(** * analytics.js: a shallow embedding and its verified properties

    The script lists a customer's applications over HTTP, fetches four
    resource collections per application (three of them page by page),
    folds them into eighteen counters and writes one CSV row per
    application.  This file embeds the script function by function:
    dynamically typed JavaScript values are an inductive type, the guarded
    property reads are partial operations, and the effectful code runs in a
    state-and-exception monad over an explicit world (scripted network,
    console, file system, the global progress counters).

    Numbers are IEEE 754 doubles, added as the language adds them; the
    counters the script steps by one, the lengths of arrays and the HTTP
    statuses are integers, exact in doubles, and are kept as integers until
    they are stored in a value.  What the embedding leaves out: the call
    stack is unbounded; colours and the percentage prefix of log lines are
    dropped; the four fetches that [Promise.all] starts together run one
    after the other.  The decimal text of a double, like the two library
    functions [jwt.sign] and [encodeURIComponent], is left open; the two
    library functions are taken to return a string for every argument.  The
    loops of the script that have no syntactic bound are given one that the
    theorems show is never reached. *)

From Stdlib Require Import Floats.SpecFloat.
From stdpp Require Import base list strings gmap pretty.

Set Warnings "-register-all,-clear-no-such-hyp".
Set Default Proof Using "Type".
Local Open Scope Z_scope.

(** ** Numbers *)

(** A number of the language is a double: Binary64, with 53 bits of
    mantissa, in the inductive presentation of the standard library (zeros
    and infinities of either sign, one NaN, and sign, mantissa and exponent
    of a finite value). *)
Definition number : Type := spec_float.

(** The double nearest to an integer: the integer itself up to 2^53. *)
Definition Number (n : Z) : number := binary_normalize 53 1024 n 0 false.

(** [x + y] on numbers: the exact sum rounded to the nearest double, ties
    to even. *)
Definition number_add (x y : number) : number := SFadd 53 1024 x y.

(** [x === y] on numbers: false when either is NaN, true on the two
    zeros. *)
Definition number_eqb (x y : number) : bool := SFeqb x y.

Definition is_NaN (x : number) : bool :=
  match x with S754_nan => true | _ => false end.

Definition is_zero (x : number) : bool :=
  match x with S754_zero _ => true | _ => false end.

Arguments Number : simpl never.
Arguments number_add : simpl never.

(** ** JavaScript values *)

(** Values as the script sees them: response bodies come out of a JSON
    parser, so they are trees; [VUndefined] is what a read of an absent
    property yields; an object is its property list in insertion order. *)
Inductive val : Type :=
  | VUndefined
  | VNull
  | VBool (b : bool)
  | VNum (x : number)
  | VStr (s : string)
  | VArr (elems : list val)
  | VObj (props : list (string * val)).

(** Thrown values. *)
Inductive exn : Type :=
  | Error (msg : string)
  | TypeError (msg : string)
  | AxiosError (msg : string).

(** The result of running a piece of code: a value, a thrown exception,
    [process.exit(code)], or the recursion bound of the model was reached
    (the theorems show the bounds chosen below are never reached). *)
Inductive res (A : Type) : Type :=
  | Ok (a : A)
  | Throw (e : exn)
  | Exit (code : Z)
  | OutOfFuel.
Arguments Ok {A} a.
Arguments Throw {A} e.
Arguments Exit {A} code.
Arguments OutOfFuel {A}.

Definition res_bind {A B} (f : A → res B) (r : res A) : res B :=
  match r with
  | Ok a => f a
  | Throw e => Throw e
  | Exit c => Exit c
  | OutOfFuel => OutOfFuel
  end.

#[export] Instance res_mret : MRet res := @Ok.
#[export] Instance res_mbind : MBind res := @res_bind.
#[export] Instance res_fmap : FMap res :=
  λ A B f r, res_bind (λ a, Ok (f a)) r.

(** [a && b] where both operands may throw and [b] is evaluated only when
    [a] holds. *)
Definition andM (a b : res bool) : res bool :=
  x ← a; if x : bool then b else mret false.

(** [for (let x of l) { acc = body(acc, x) }] *)
Fixpoint for_of {A S} (l : list A) (acc : S) (body : S → A → res S) : res S :=
  match l with
  | [] => mret acc
  | x :: l' => acc' ← body acc x; for_of l' acc' body
  end.

(** ** Primitive operations of the language *)

Definition truthy (v : val) : bool :=
  match v with
  | VUndefined | VNull => false
  | VBool b => b
  | VNum x => negb (is_zero x || is_NaN x)
  | VStr s => negb (String.eqb s "")
  | VArr _ | VObj _ => true
  end.

Definition typeof (v : val) : string :=
  match v with
  | VUndefined => "undefined"
  | VNull => "object"
  | VBool _ => "boolean"
  | VNum _ => "number"
  | VStr _ => "string"
  | VArr _ | VObj _ => "object"
  end.

(** [v && typeof v === "object"], the guard in front of every property
    test of the script. *)
Definition is_object (v : val) : bool :=
  truthy v && String.eqb (typeof v) "object".

Definition Array_isArray (v : val) : bool :=
  match v with VArr _ => true | _ => false end.

(** The elements a [for ... of] over an array value visits. *)
Definition elements (v : val) : list val :=
  match v with VArr l => l | _ => [] end.

(** [v === lit] for a primitive literal [lit] (the script compares with
    string literals, [200] and [null] only): no object is ever equal to
    one. *)
Definition strict_eq (v lit : val) : bool :=
  match v, lit with
  | VUndefined, VUndefined => true
  | VNull, VNull => true
  | VBool a, VBool b => eqb a b
  | VNum a, VNum b => number_eqb a b
  | VStr a, VStr b => String.eqb a b
  | _, _ => false
  end.

Fixpoint lookup_prop (k : string) (ps : list (string * val)) : option val :=
  match ps with
  | [] => None
  | (k', v) :: ps' => if String.eqb k' k then Some v else lookup_prop k ps'
  end.

(** [k in v].  It throws on a primitive.  The names the script tests
    ("users", "pagination", "token", "type", "children", "userID", "id",
    ...) are neither array indices nor inherited names, so an array has
    none of them. *)
Definition js_in (k : string) (v : val) : res bool :=
  match v with
  | VObj ps => Ok (bool_decide (is_Some (lookup_prop k ps)))
  | VArr _ => Ok false
  | _ => Throw (TypeError "Cannot use 'in' operator to search for a key in a primitive")
  end.

(** [v.k].  It throws on [undefined] and [null]; a primitive or an array
    has none of the names the script reads, [length] apart. *)
Definition js_get (v : val) (k : string) : res val :=
  match v with
  | VUndefined | VNull =>
      Throw (TypeError "Cannot read properties of undefined or null")
  | VObj ps => Ok (default VUndefined (lookup_prop k ps))
  | VArr l =>
      Ok (if String.eqb k "length" then VNum (Number (Z.of_nat (length l)))
          else VUndefined)
  | VStr s =>
      Ok (if String.eqb k "length" then VNum (Number (Z.of_nat (String.length s)))
          else VUndefined)
  | VBool _ | VNum _ => Ok VUndefined
  end.

(** Nesting depth of a value, the bound for the recursive scan below. *)
Fixpoint depth (v : val) : nat :=
  match v with
  | VArr l => S (foldr (λ x d, Nat.max (depth x) d) 0%nat l)
  | VObj ps => S (foldr (λ kv d, Nat.max (depth kv.2) d) 0%nat ps)
  | _ => 0%nat
  end.

(** ** countMentionsInMessageContent (analytics.js, lines 306-319) *)

(** The body of the [for] loop, [recur] being the recursive call. *)
Definition countMentions_body (recur : list val → res Z)
    (count : Z) (thing : val) : res Z :=
  if is_object thing then
    isMention ← andM (js_in "type" thing)
                     (t ← js_get thing "type";
                      mret (strict_eq t (VStr "mention")));
    let count := if isMention : bool then count + 1 else count in
    hasChildren ← andM (js_in "children" thing)
                       (Array_isArray <$> js_get thing "children");
    if hasChildren : bool then
      children ← js_get thing "children";
      n ← recur (elements children);
      mret (count + n)
    else mret count
  else mret count.

Fixpoint countMentions_rec (fuel : nat) (arr : list val) : res Z :=
  match fuel with
  | O => OutOfFuel
  | S fuel' => for_of arr 0 (countMentions_body (countMentions_rec fuel'))
  end.

(** The recursion follows the nesting of the argument, so its depth bounds
    it ([countMentions_rec_enough] below). *)
Definition countMentionsInMessageContent (arr : list val) : res Z :=
  countMentions_rec (depth (VArr arr)) arr.

(** *** The scanner as the specification words it *)

(** A node "whose [type] field equals the sentinel tag". *)
Definition is_mention_node (thing : val) : bool :=
  match thing with
  | VObj ps =>
      match lookup_prop "type" ps with
      | Some (VStr s) => String.eqb s "mention"
      | _ => false
      end
  | _ => false
  end.

(** A node and the nodes below it: "for every node that carries a
    [children] array field, recurse into it". *)
Fixpoint nodes_below (thing : val) : list val :=
  thing ::
  match thing with
  | VObj ps =>
      (fix in_props (ps : list (string * val)) : list val :=
         match ps with
         | [] => []
         | (k, v) :: ps' =>
             if String.eqb k "children"
             then match v with VArr l => flat_map nodes_below l | _ => [] end
             else in_props ps'
         end) ps
  | _ => []
  end.

Definition count_mention_nodes (nodes : list val) : Z :=
  Z.of_nat (length (filter (λ n, is_mention_node n = true)
                           (flat_map nodes_below nodes))).

(** The children array of a node, when it carries one. *)
Definition children_of (thing : val) : option (list val) :=
  match thing with
  | VObj ps =>
      match lookup_prop "children" ps with
      | Some (VArr l) => Some l
      | _ => None
      end
  | _ => None
  end.

(** A chain of [S d] mention nodes, each but the last with the next one as
    its single child. *)
Fixpoint mention_chain (d : nat) : val :=
  match d with
  | O => VObj [("type", VStr "mention")]
  | S d' => VObj [("type", VStr "mention"); ("children", VArr [mention_chain d'])]
  end.

(** The line feed. *)
Definition newline : string := String (Ascii.ascii_of_nat 10) "".

(** [Object.keys(v)]: the own property names in insertion order. *)
Definition Object_keys (v : val) : res (list string) :=
  match v with
  | VUndefined | VNull =>
      Throw (TypeError "Cannot convert undefined or null to object")
  | VObj ps => Ok (map fst ps)
  | VArr l => Ok (map (λ i : nat, pretty i) (seq 0 (length l)))
  | VStr s => Ok (map (λ i : nat, pretty i) (seq 0 (String.length s)))
  | VBool _ | VNum _ => Ok []
  end.

(** ** The world the script runs in *)

Record Response : Type := {
  status : Z;
  statusText : string;
  data : val;
}.

(** What the network does with one request: no response at all, or a
    response of any status. *)
Inductive Reply : Type :=
  | NetworkError (msg : string)
  | HttpReply (resp : Response).

Record AxiosConfig : Type := { Authorization : string }.

Record Request : Type := {
  url : string;
  config : AxiosConfig;
}.

Inductive ConsoleLine : Type :=
  | Log (idx total : Z) (str : string)
  | ConsoleLog (str : string)
  | ConsoleError (str : string)
  | ConsoleErrorExn (e : exn)
  | ConsoleErrorResp (resp : Response).

(** [net] scripts the network: the n-th request issued receives the n-th
    reply, and a request issued after the script ran out finds the network
    down.  [requests], [console] and [files] record what the script did;
    [state_idx] and [state_total] are the global [state] object;
    [fs_error] is the exception [fs.writeFileSync] raises, if any. *)
Record World : Type := {
  net : list Reply;
  requests : list Request;
  console : list ConsoleLine;
  state_idx : Z;
  state_total : Z;
  fs_error : option exn;
  files : list (val * string);
}.

Definition set_net (n : list Reply) (w : World) : World :=
  {| net := n; requests := requests w; console := console w;
     state_idx := state_idx w; state_total := state_total w;
     fs_error := fs_error w; files := files w |}.

Definition push_request (r : Request) (w : World) : World :=
  {| net := net w; requests := requests w ++ [r]; console := console w;
     state_idx := state_idx w; state_total := state_total w;
     fs_error := fs_error w; files := files w |}.

Definition push_console (c : ConsoleLine) (w : World) : World :=
  {| net := net w; requests := requests w; console := console w ++ [c];
     state_idx := state_idx w; state_total := state_total w;
     fs_error := fs_error w; files := files w |}.

Definition set_state (idx total : Z) (w : World) : World :=
  {| net := net w; requests := requests w; console := console w;
     state_idx := idx; state_total := total;
     fs_error := fs_error w; files := files w |}.

Definition push_file (path : val) (content : string) (w : World) : World :=
  {| net := net w; requests := requests w; console := console w;
     state_idx := state_idx w; state_total := state_total w;
     fs_error := fs_error w; files := files w ++ [(path, content)] |}.

(** ** The monad of effectful code *)

Definition M (A : Type) : Type := World → res A * World.

Definition M_bind {A B} (f : A → M B) (m : M A) : M B := λ w,
  match m w with
  | (Ok a, w') => f a w'
  | (Throw e, w') => (Throw e, w')
  | (Exit c, w') => (Exit c, w')
  | (OutOfFuel, w') => (OutOfFuel, w')
  end.

#[export] Instance M_mret : MRet M := λ A a w, (Ok a, w).
#[export] Instance M_mbind : MBind M := @M_bind.

(** A computation without effects, run inside effectful code. *)
Definition lift {A} (r : res A) : M A := λ w, (r, w).
Definition throw {A} (e : exn) : M A := λ w, (Throw e, w).
Definition process_exit {A} (code : Z) : M A := λ w, (Exit code, w).

(** [try { m } catch (e) { handler e }]: only a thrown exception is caught,
    [process.exit] is not. *)
Definition try_catch {A} (m : M A) (handler : exn → M A) : M A := λ w,
  match m w with
  | (Throw e, w') => handler e w'
  | r => r
  end.

Definition console_log (s : string) : M unit :=
  λ w, (Ok tt, push_console (ConsoleLog s) w).
Definition console_error (s : string) : M unit :=
  λ w, (Ok tt, push_console (ConsoleError s) w).
Definition console_error_exn (e : exn) : M unit :=
  λ w, (Ok tt, push_console (ConsoleErrorExn e) w).
Definition console_error_resp (r : Response) : M unit :=
  λ w, (Ok tt, push_console (ConsoleErrorResp r) w).

(** The global [state] is written by [main] and read by [log]. *)
Definition set_progress (f : Z * Z → Z * Z) : M unit :=
  λ w, let '(idx, total) := f (state_idx w, state_total w) in
       (Ok tt, set_state idx total w).

(** The number of replies left in the script: not something the script can
    observe, only the bound given to the fetch loops. *)
Definition replies_left : M nat := λ w, (Ok (length (net w)), w).

Definition out_of_fuel {A} : M A := λ w, (OutOfFuel, w).

(** [log] (lines 62-69) prefixes the line with the progress read from the
    global [state]; the line records the two counters instead of the
    formatted, coloured prefix. *)
Definition log (str : string) : M unit :=
  λ w, (Ok tt, push_console (Log (state_idx w) (state_total w) str) w).

(** [axios.get(url, config)]: the request is issued and the next reply of
    the script consumed.  The promise rejects when there is no response and,
    as axios does by default, when the status is outside 200..299. *)
Definition axios_get (url : string) (config : AxiosConfig) : M Response := λ w,
  let w := push_request {| url := url; config := config |} w in
  match net w with
  | [] => (Throw (AxiosError "Network Error"), w)
  | NetworkError msg :: rest => (Throw (AxiosError msg), set_net rest w)
  | HttpReply resp :: rest =>
      if (200 <=? status resp) && (status resp <? 300)
      then (Ok resp, set_net rest w)
      else (Throw (AxiosError ("Request failed with status code "
                               +:+ pretty (status resp))),
            set_net rest w)
  end.

(** [fs.writeFileSync(path, content)] *)
Definition writeFileSync (path : val) (content : string) : M unit := λ w,
  match fs_error w with
  | Some e => (Throw e, w)
  | None => (Ok tt, push_file path content w)
  end.

(** ** autoRetry (lines 28-38) *)

Definition autoRetry {A} (func : M A) : M A :=
  try_catch func
    (λ e, console_error_exn e;; console_error "Retrying once...";; func).

Definition makeAxiosAuthHeaders (token : string) : AxiosConfig :=
  {| Authorization := "Bearer " +:+ token |}.

(** What differs between [getUsers], [getThreads] and [getMessages], whose
    bodies are otherwise the same text. *)
Record Resource : Type := {
  plural : string;
  limit : Z;
  no_items_message : string;
  bad_pagination_message : string;
  bad_status_message : string;
}.

Definition users_resource : Resource :=
  {| plural := "users"; limit := 25000;
     no_items_message := "Request for users was malformed -- no users";
     bad_pagination_message :=
       "Malformed pagination data on response for listing users";
     bad_status_message := "Failed to fetch users: " |}.

Definition threads_resource : Resource :=
  {| plural := "threads"; limit := 25000;
     no_items_message := "Request for threads had no threads";
     bad_pagination_message :=
       "Malformed pagination data on response for listing threads";
     bad_status_message := "Failed to fetch threads: " |}.

Definition messages_resource : Resource :=
  {| plural := "messages"; limit := 1500;
     no_items_message := "Request for messages had no messages";
     bad_pagination_message :=
       "Malformed pagination data on response for listing messages";
     bad_status_message := "Failed to fetch threads: " |}.

(** ** The aggregation of generateApplicationAnalytics (lines 340-445) *)

Definition is_number (v : val) : bool := String.eqb (typeof v) "number".

(** Equality of the elements of a [Set]: primitives are compared by value,
    NaN being equal to itself and the two zeros to each other; an object or
    an array is equal to itself only, and every one that reaches the
    aggregation is a distinct node of a parsed response, so it equals no
    element already in the set. *)
Definition same_value_zero (a b : val) : bool :=
  match a, b with
  | VUndefined, VUndefined => true
  | VNull, VNull => true
  | VBool x, VBool y => eqb x y
  | VNum x, VNum y => number_eqb x y || (is_NaN x && is_NaN y)
  | VStr x, VStr y => String.eqb x y
  | _, _ => false
  end.

(** [set.add(v)] on a [Set] kept as its elements in insertion order, and
    [set.size]. *)
Definition Set_add (v : val) (set : list val) : list val :=
  if existsb (same_value_zero v) set then set else set ++ [v].

Definition Set_size (set : list val) : Z := Z.of_nat (length set).

(** Lines 340-350. *)
Definition count_users (users : list val) : res (Z * Z) :=
  for_of users (0, 0) (λ '(activeUserCount, deletedUserCount) u,
    if is_object u then
      st ← js_get u "status";
      if strict_eq st (VStr "active") then
        mret (activeUserCount + 1, deletedUserCount)
      else
        st ← js_get u "status";
        if strict_eq st (VStr "deleted") then
          mret (activeUserCount, deletedUserCount + 1)
        else mret (activeUserCount, deletedUserCount)
    else mret (activeUserCount, deletedUserCount)).

(** Lines 352-366. *)
Definition count_groups (groups : list val) : res (Z * Z * Z) :=
  for_of groups (0, 0, 0)
    (λ '(activeGroupCount, deletedGroupCount, slackConnectedGroupCount) g,
      if is_object g then
        st ← js_get g "status";
        '(activeGroupCount, deletedGroupCount) ←
          (if strict_eq st (VStr "active") then
             mret (activeGroupCount + 1, deletedGroupCount)
           else
             st ← js_get g "status";
             if strict_eq st (VStr "deleted") then
               mret (activeGroupCount, deletedGroupCount + 1)
             else mret (activeGroupCount, deletedGroupCount));
        connectToSlack ← js_get g "connectToSlack";
        if truthy connectToSlack then
          mret (activeGroupCount, deletedGroupCount, slackConnectedGroupCount + 1)
        else
          mret (activeGroupCount, deletedGroupCount, slackConnectedGroupCount)
      else mret (activeGroupCount, deletedGroupCount, slackConnectedGroupCount)).

(** The four totals of message counts are sums of numbers read from the
    records; [totalResolvedThreadCount] is stepped by one. *)
Record ThreadTotals : Type := {
  totalResolvedThreadCount : Z;
  totalMessageCount : number;
  totalDeletedMessageCount : number;
  totalActionMessagesCount : number;
  totalUserMessagesCount : number;
  threadParticipants : list val;
}.

(** [counter += v] for a value [v] whose [typeof] is "number". *)
Definition add_value (counter : number) (v : val) : number :=
  match v with VNum x => number_add counter x | _ => counter end.

(** [if (typeof t.field === "number") counter += t.field] *)
Definition add_if_number (counter : number) (t : val) (field : string)
    : res number :=
  x ← js_get t field;
  if is_number x then y ← js_get t field; mret (add_value counter y)
  else mret counter.

(** Lines 395-401. *)
Definition add_participants (t : val) (set : list val) : res (list val) :=
  participants ← js_get t "participants";
  isArr ← andM (mret (truthy participants))
               (Array_isArray <$> js_get t "participants");
  if isArr : bool then
    participants ← js_get t "participants";
    for_of (elements participants) set (λ set p,
      hasID ← andM (mret (is_object p)) (js_in "userID" p);
      if hasID : bool then userID ← js_get p "userID"; mret (Set_add userID set)
      else mret set)
  else mret set.

(** Lines 368-403. *)
Definition count_threads (threads : list val) : res ThreadTotals :=
  for_of threads
    {| totalResolvedThreadCount := 0; totalMessageCount := Number 0;
       totalDeletedMessageCount := Number 0; totalActionMessagesCount := Number 0;
       totalUserMessagesCount := Number 0; threadParticipants := [] |}
    (λ acc t,
      if is_object t then
        resolved ← js_get t "resolved";
        let resolvedCount :=
          if truthy resolved then totalResolvedThreadCount acc + 1
          else totalResolvedThreadCount acc in
        messageCount ← add_if_number (totalMessageCount acc) t "total";
        actionCount ←
          add_if_number (totalActionMessagesCount acc) t "actionMessages";
        userCount ← add_if_number (totalUserMessagesCount acc) t "userMessages";
        deletedCount ←
          add_if_number (totalDeletedMessageCount acc) t "deletedMessages";
        set ← add_participants t (threadParticipants acc);
        mret {| totalResolvedThreadCount := resolvedCount;
                totalMessageCount := messageCount;
                totalDeletedMessageCount := deletedCount;
                totalActionMessagesCount := actionCount;
                totalUserMessagesCount := userCount;
                threadParticipants := set |}
      else mret acc).

(** [if (m.field && Array.isArray(m.field))] *)
Definition array_field (m : val) (field : string) : res (option (list val)) :=
  x ← js_get m field;
  isArr ← andM (mret (truthy x)) (Array_isArray <$> js_get m field);
  if isArr : bool then y ← js_get m field; mret (Some (elements y))
  else mret None.

(** Lines 405-422. *)
Definition count_messages (messages : list val) : res (Z * Z * Z) :=
  for_of messages (0, 0, 0)
    (λ '(totalMentionMessagesCount, totalReactionsCount, totalAttachmentsCount) m,
      if is_object m then
        reactions ← array_field m "reactions";
        let totalReactionsCount :=
          match reactions with
          | Some l => totalReactionsCount + Z.of_nat (length l)
          | None => totalReactionsCount
          end in
        attachments ← array_field m "attachments";
        let totalAttachmentsCount :=
          match attachments with
          | Some l => totalAttachmentsCount + Z.of_nat (length l)
          | None => totalAttachmentsCount
          end in
        content ← array_field m "content";
        match content with
        | Some l =>
            n ← countMentionsInMessageContent l;
            mret (totalMentionMessagesCount + n, totalReactionsCount,
                  totalAttachmentsCount)
        | None =>
            mret (totalMentionMessagesCount, totalReactionsCount,
                  totalAttachmentsCount)
        end
      else mret (totalMentionMessagesCount, totalReactionsCount,
                 totalAttachmentsCount)).

(** The column names, in the order the object literal of lines 425-444
    lists them. *)
Definition metric_names : list string :=
  [ "Total User Count"; "Active User Count"; "Deleted User Count";
    "Total Group Count"; "Active Group Count"; "Deleted Group Count";
    "Slack Connected Group Count"; "Total Thread Count";
    "Total Resolved Thread Count"; "Total Message Count";
    "Total Deleted Message Count"; "Total User Messages Count";
    "Total Action Messages Count"; "Total Thread Participants Count";
    "Total Messages"; "Total Mention Messages Count";
    "Total Reactions Count"; "Total Attachments Count" ].

(** Lines 340-445: the four loops and the returned row. *)
Definition aggregate (users groups threads messages : list val) : res val :=
  '(activeUserCount, deletedUserCount) ← count_users users;
  '(activeGroupCount, deletedGroupCount, slackConnectedGroupCount) ←
    count_groups groups;
  t ← count_threads threads;
  '(totalMentionMessagesCount, totalReactionsCount, totalAttachmentsCount) ←
    count_messages messages;
  mret (VObj
    [ ("Total User Count", VNum (Number (Z.of_nat (length users))));
      ("Active User Count", VNum (Number activeUserCount));
      ("Deleted User Count", VNum (Number deletedUserCount));
      ("Total Group Count", VNum (Number (Z.of_nat (length groups))));
      ("Active Group Count", VNum (Number activeGroupCount));
      ("Deleted Group Count", VNum (Number deletedGroupCount));
      ("Slack Connected Group Count", VNum (Number slackConnectedGroupCount));
      ("Total Thread Count", VNum (Number (Z.of_nat (length threads))));
      ("Total Resolved Thread Count", VNum (Number (totalResolvedThreadCount t)));
      ("Total Message Count", VNum (totalMessageCount t));
      ("Total Deleted Message Count", VNum (totalDeletedMessageCount t));
      ("Total User Messages Count", VNum (totalUserMessagesCount t));
      ("Total Action Messages Count", VNum (totalActionMessagesCount t));
      ("Total Thread Participants Count",
       VNum (Number (Set_size (threadParticipants t))));
      ("Total Messages", VNum (Number (Z.of_nat (length messages))));
      ("Total Mention Messages Count", VNum (Number totalMentionMessagesCount));
      ("Total Reactions Count", VNum (Number totalReactionsCount));
      ("Total Attachments Count", VNum (Number totalAttachmentsCount)) ]).

(** The value a row holds for a metric. *)
Definition metric (name : string) (row : res val) : option val :=
  match row with
  | Ok (VObj ps) => lookup_prop name ps
  | _ => None
  end.

(** ** The script proper

    The decimal text the engine gives a number, the two library functions
    the script calls on values, and the two globals read from the
    environment and the command line, are left open. *)
Section Script.

(** [Number::toString]: "25000", "0.30000000000000004", "1e+21", "NaN". *)
Variable Number_toString : number → string.

(** *** String conversion *)

(** [String(v)], as string concatenation and template literals apply it.
    An object parsed from JSON inherits [toString] and prints as "[object
    Object]", unless it has a property of that name of its own: a parsed
    value is never a function, so no conversion is left and the engine
    throws.  An array prints its elements, [undefined] and [null] as
    nothing, joined by commas. *)
Fixpoint toString (v : val) : res string :=
  match v with
  | VUndefined => Ok "undefined"
  | VNull => Ok "null"
  | VBool b => Ok (if b then "true" else "false")
  | VNum x => Ok (Number_toString x)
  | VStr s => Ok s
  | VArr l =>
      String.concat "," <$>
        (fix texts (l : list val) : res (list string) :=
           match l with
           | [] => Ok []
           | x :: l' =>
               s ← match x with
                   | VUndefined | VNull => Ok ""
                   | _ => toString x
                   end;
               ss ← texts l';
               mret (s :: ss)
           end) l
  | VObj ps =>
      if bool_decide (is_Some (lookup_prop "toString" ps))
      then Throw (TypeError "Cannot convert object to primitive value")
      else Ok "[object Object]"
  end.

(** [arr.join(sep)]: [undefined] and [null] elements print as nothing. *)
Definition array_join (sep : string) (arr : list val) : res string :=
  texts ← for_of arr [] (λ texts x,
    s ← match x with
        | VUndefined | VNull => Ok ""
        | _ => toString x
        end;
    mret (texts ++ [s]));
  mret (String.concat sep texts).

Variable encodeURIComponent : val → string.
(** [jwt.sign(payload, secret, {algorithm, expiresIn})] *)
Variable jwt_sign : list (string * val) → val → string → string → string.
(** [dotenv.config().parsed] *)
Variable env : val.
(** [argv.outputFile] *)
Variable argv_outputFile : val.

(** Lines 40-45; [env] was checked at start-up. *)
Definition makeCustomerToken : res string :=
  customer_id ← js_get env "CUSTOMER_ID";
  secret ← js_get env "CUSTOMER_SECRET";
  mret (jwt_sign [("customer_id", customer_id)] secret "HS512" "1 min").

(** Lines 47-52. *)
Definition makeServerToken (appID appSecret : val) : string :=
  jwt_sign [("app_id", appID)] appSecret "HS512" "90 min".

(** Lines 71-96. *)
Definition listApplications : M val :=
  try_catch
    (resp ← autoRetry
       (token ← lift makeCustomerToken;
        axios_get "https://api.cord.com/v1/applications"
                  (makeAxiosAuthHeaders token));
     if status resp =? 200 then mret (data resp)
     else throw (Error ("Request for applications failed: "
                        +:+ pretty (status resp) +:+ ": " +:+ statusText resp)))
    (λ e,
      console_error_exn e;;
      console_error "⛔️ Failed to list appications. See the error above.";;
      process_exit 1).

(** The URL of a page request (lines 107-111). *)
Definition page_url (r : Resource) (paginationToken : val) : string :=
  "https://api.cord.com/v1/" +:+ plural r +:+ "?limit="
  +:+ encodeURIComponent (VNum (Number (limit r)))
  +:+ (if negb (strict_eq paginationToken VNull)
       then "&token=" +:+ encodeURIComponent paginationToken
       else "").

(** The test of lines 126-132. *)
Definition has_pagination (data : val) : res bool :=
  andM (js_in "pagination" data)
  (andM (p ← js_get data "pagination"; mret (String.eqb (typeof p) "object"))
  (andM (truthy <$> js_get data "pagination")
  (andM (p ← js_get data "pagination"; js_in "token" p)
        (p ← js_get data "pagination"; js_in "total" p)))).

(** One turn of the [do ... while] body (lines 104-153): the items
    accumulated so far and the cursor go in, and come out updated. *)
Definition fetch_page (r : Resource) (token : string)
    (items : list val) (paginationToken : val) : M (list val * val) :=
  resp ← autoRetry
    (axios_get (page_url r paginationToken) (makeAxiosAuthHeaders token));
  if status resp =? 200 then
    let data := data resp in
    if is_object data then
      hasItems ← lift (andM (js_in (plural r) data)
                            (Array_isArray <$> js_get data (plural r)));
      items ← (if hasItems : bool then
                 arr ← lift (js_get data (plural r));
                 mret (items ++ elements arr)
               else throw (Error (no_items_message r)));
      hasPagination ← lift (has_pagination data);
      if hasPagination : bool then
        pagination ← lift (js_get data "pagination");
        paginationToken ← lift (js_get pagination "token");
        total ← lift (js_get pagination "total");
        total ← lift (toString total);
        log ("    Fetched " +:+ pretty (length items) +:+ " " +:+ plural r
             +:+ " of " +:+ total);;
        mret (items, paginationToken)
      else throw (Error (bad_pagination_message r))
    else mret (items, paginationToken)
  else
    console_error_resp resp;;
    throw (Error (bad_status_message r +:+ pretty (status resp) +:+ ": "
                  +:+ statusText resp)).

(** The [do ... while (paginationToken !== null)] loop. *)
Fixpoint fetch_loop (r : Resource) (token : string) (fuel : nat)
    (items : list val) (paginationToken : val) : M (list val) :=
  match fuel with
  | O => out_of_fuel
  | S fuel' =>
      '(items, paginationToken) ← fetch_page r token items paginationToken;
      if negb (strict_eq paginationToken VNull)
      then fetch_loop r token fuel' items paginationToken
      else mret items
  end.

(** The body shared by [getUsers], [getThreads] and [getMessages].  Every
    turn of the loop consumes a reply of the script or fails, so the length
    of the script bounds the number of turns ([fetch_loop_fuel]). *)
Definition getPaginated (r : Resource) (debugName token : string)
    : M (list val) :=
  log ("    Fetching " +:+ plural r +:+ " for " +:+ debugName);;
  n ← replies_left;
  fetch_loop r token (S n) [] VNull.

(** Lines 98-157. *)
Definition getUsers : string → string → M (list val) :=
  getPaginated users_resource.

(** Lines 188-245. *)
Definition getThreads : string → string → M (list val) :=
  getPaginated threads_resource.

(** Lines 247-304. *)
Definition getMessages : string → string → M (list val) :=
  getPaginated messages_resource.

(** Lines 159-186. *)
Definition getGroups (debugName token : string) : M (list val) :=
  log ("    Fetching groups for " +:+ debugName);;
  resp ← autoRetry
    (axios_get "https://api.cord.com/v1/groups" (makeAxiosAuthHeaders token));
  if status resp =? 200 then
    let data := data resp in
    if truthy data && Array_isArray data then mret (elements data)
    else throw (Error "Response for groups was malformed -- no groups")
  else
    console_error_resp resp;;
    throw (Error ("Failed to fetch groups: " +:+ pretty (status resp) +:+ ": "
                  +:+ statusText resp)).

(** The test of lines 322-331. *)
Definition is_application (app : val) : res bool :=
  let string_field k :=
    andM (js_in k app)
         (v ← js_get app k; mret (String.eqb (typeof v) "string")) in
  andM (mret (is_object app))
  (andM (string_field "id") (andM (string_field "secret") (string_field "name"))).

(** Lines 321-451.  [Promise.all] starts the four fetches together; each
    reads the replies to its own requests only, and here they run one after
    the other, each taking its replies from the script in turn. *)
Definition generateApplicationAnalytics (debugName : string) (app : val)
    : M (list val) :=
  valid ← lift (is_application app);
  if valid : bool then
    id ← lift (js_get app "id");
    secret ← lift (js_get app "secret");
    let serverToken := makeServerToken id secret in
    users ← getUsers debugName serverToken;
    groups ← getGroups debugName serverToken;
    threads ← getThreads debugName serverToken;
    messages ← getMessages debugName serverToken;
    row ← lift (aggregate users groups threads messages);
    mret [row]
  else throw (Error "Application is missing required fields: name, id, and secret").

(** The two application identifiers of lines 463-464. *)
Definition excluded (id : val) : bool :=
  strict_eq id (VStr "923ecd44-198f-49a2-a4f5-96f69c3d148b")
  || strict_eq id (VStr "aeb2797f-f0a3-485c-a317-4986e2c8343b").

(** The [for] loop of lines 459-489, [applicationData] being the rows
    pushed so far.  The name under which the application is logged is put
    together in line 468, in front of the [try]: a name or an identifier
    without a string conversion ends the loop, and [main], with the
    [TypeError]. *)
Fixpoint main_loop (applications : list val) (applicationData : list (list val))
    : M (list (list val)) :=
  match applications with
  | [] => mret applicationData
  | application :: rest =>
      if is_object application then
        set_progress (λ '(idx, total), (idx + 1, total));;
        id ← lift (js_get application "id");
        if excluded id then main_loop rest applicationData
        else
          name ← lift (js_get application "name");
          nameText ← lift (toString name);
          idText ← lift (toString id);
          let debugName := nameText +:+ " " +:+ idText in
          log ("Generating analytics for app " +:+ debugName);;
          entry ← try_catch
            (metrics ← generateApplicationAnalytics debugName application;
             mret ([id; name] ++ metrics))
            (λ e,
              console_error_exn e;;
              idText ← lift (toString id);
              console_error
                ("⛔️ Failed to generate analytics for appication with ID "
                 +:+ idText +:+ ". See the error above.");;
              process_exit 1);
          main_loop rest (applicationData ++ [entry])
      else
        console_error
          "⛔️ Malformed application object when requesting the application list";;
        process_exit 1
  end.

(** [arr[i]] on a local array. *)
Definition index (arr : list val) (i : nat) : val := default VUndefined (arr !! i).

(** Lines 494-500. *)
Definition render_rows (keys : list string) (applicationData : list (list val))
    : res (list string) :=
  for_of applicationData [] (λ output app,
    cells ← for_of keys [index app 0; index app 1] (λ row k,
      v ← js_get (index app 2) k; mret (row ++ [v]));
    line ← array_join "," cells;
    mret (output ++ [line])).

(** Lines 490-508. *)
Definition main_output (applicationData : list (list val)) : M unit :=
  first ← lift (match applicationData !! 0%nat with
                | Some app => Ok app
                | None => Throw (TypeError
                    "Cannot read properties of undefined (reading '2')")
                end);
  keys ← lift (Object_keys (index first 2));
  header ← lift (array_join "," (map VStr ("ID" :: "Name" :: keys)));
  rows ← lift (render_rows keys applicationData);
  let outString := String.concat newline (header :: rows) +:+ newline in
  try_catch (writeFileSync argv_outputFile outString)
    (λ e,
      console_error_exn e;;
      console_error "⛔️ Failed to write output file. See error above.");;
  console_log "✅ CSV file written".

(** Lines 453-515. *)
Definition main : M unit :=
  applications ← listApplications;
  if truthy applications && Array_isArray applications then
    set_progress
      (λ '(idx, _), (idx, Z.of_nat (length (elements applications))));;
    applicationData ← main_loop (elements applications) [];
    main_output applicationData
  else
    console_error
      "⛔️ Received an unexpected response when requesting the list of applications";;
    process_exit 1.

(** Lines 9-26: the checks made before anything else runs. *)
Definition startup : M unit :=
  customer_id ← lift (js_get env "CUSTOMER_ID");
  if negb (truthy customer_id) then
    throw (Error "Missing CUSTOMER_ID in .env file")
  else
    customer_secret ← lift (js_get env "CUSTOMER_SECRET");
    if negb (truthy customer_secret) then
      throw (Error "Missing CUSTOMER_SECRET in .env file")
    else if negb (truthy argv_outputFile) then
      console_error "⛔️ Could not proceed";;
      console_error "    Please specify an output file with --outputFile=";;
      console_error "      Example: node analytics.js --outputFile=data.csv";;
      process_exit 1
    else mret tt.

(** How a run of the process ends. *)
Inductive Outcome : Type :=
  | Completed
  | Exited (code : Z)
  | UncaughtException (e : exn)
  | UnhandledRejection (e : exn)
  | Unfinished.

(** The whole file: the start-up checks run synchronously, so an exception
    there is uncaught; [main()] is an async call whose promise nobody
    awaits, so an exception there is an unhandled rejection. *)
Definition program : World → Outcome * World := λ w,
  match startup w with
  | (Ok _, w1) =>
      match main w1 with
      | (Ok _, w2) => (Completed, w2)
      | (Throw e, w2) => (UnhandledRejection e, w2)
      | (Exit code, w2) => (Exited code, w2)
      | (OutOfFuel, w2) => (Unfinished, w2)
      end
  | (Throw e, w1) => (UncaughtException e, w1)
  | (Exit code, w1) => (Exited code, w1)
  | (OutOfFuel, w1) => (Unfinished, w1)
  end.

(** The exit status of the process: 0 when the event loop drains, the
    argument of [process.exit], and 1 when Node ends the process on an
    uncaught exception.  What an unhandled rejection does depends on the
    runtime's version and flags, so no status is given for it. *)
Definition exit_code (o : Outcome) : option Z :=
  match o with
  | Completed => Some 0
  | Exited code => Some code
  | UncaughtException _ => Some 1
  | UnhandledRejection _ => None
  | Unfinished => None
  end.

(** ** Vocabulary of the statements *)

(** A computation that came to an end by itself: it returned or threw. *)
Definition settled {A} (r : res A) : Prop :=
  match r with Ok _ | Throw _ => True | Exit _ | OutOfFuel => False end.

(** What one entry of the scanned array adds to the count by itself. *)
Definition own_count (thing : val) : Z :=
  if is_mention_node thing then 1 else 0.

(** The value of a field of a fetched record; [VUndefined] when the record
    is not an object or lacks the field. *)
Definition field (record : val) (k : string) : val :=
  match record with
  | VObj ps => default VUndefined (lookup_prop k ps)
  | _ => VUndefined
  end.

Definition sum_of {A} (f : A → Z) (l : list A) : Z :=
  foldr (λ x s, f x + s) 0 l.

(** Contributions of one record to the counters. *)
Definition has_status (s : string) (record : val) : Z :=
  if strict_eq (field record "status") (VStr s) then 1 else 0.

Definition flag (k : string) (record : val) : Z :=
  if truthy (field record k) then 1 else 0.

(** The number a record holds under [k], when it holds one. *)
Definition numeric (k : string) (record : val) : option number :=
  match field record k with VNum x => Some x | _ => None end.

(** The numbers the records hold under [k], in the order of the records. *)
Definition numbers_in (k : string) (records : list val) : list number :=
  omap (numeric k) records.

(** The sum of a list of numbers as a loop [total += x] computes it: from
    zero, left to right, every partial sum rounded to a double. *)
Definition number_sum (l : list number) : number :=
  foldl number_add (Number 0) l.

Definition array_length (k : string) (record : val) : Z :=
  match field record k with VArr l => Z.of_nat (length l) | _ => 0 end.

Definition mentions_in (record : val) : Z :=
  match field record "content" with
  | VArr l => count_mention_nodes l
  | _ => 0
  end.

(** The [userID] values "found in participants entries across all
    threads", in the order the loops meet them. *)
Definition userID_of (p : val) : option val :=
  match p with VObj ps => lookup_prop "userID" ps | _ => None end.

Definition participant_ids (threads : list val) : list val :=
  flat_map (λ t, omap userID_of (elements (field t "participants"))) threads.

#[export] Instance number_eq_dec : EqDecision number.
Proof. unfold number. solve_decision. Defined.

#[export] Instance number_countable : Countable number.
Proof.
  refine (inj_countable'
    (λ x : number, match x with
          | S754_zero s => inl (inl s)
          | S754_infinity s => inl (inr s)
          | S754_nan => inr (inl tt)
          | S754_finite s m e => inr (inr (s, m, e))
          end)
    (λ x : (bool + bool) + (unit + bool * positive * Z),
          match x with
          | inl (inl s) => S754_zero s
          | inl (inr s) => S754_infinity s
          | inr (inl _) => S754_nan
          | inr (inr (s, m, e)) => S754_finite s m e
          end) _).
  by intros [].
Defined.

(** The two zeros are one value to a [Set]. *)
Definition unsigned_zero (x : number) : number :=
  match x with S754_zero _ => S754_zero false | _ => x end.

(** Primitive values, the ones a [Set] compares by value. *)
Inductive prim : Type :=
  | PUndefined
  | PNull
  | PBool (b : bool)
  | PNum (x : number)
  | PStr (s : string).

#[export] Instance prim_eq_dec : EqDecision prim.
Proof. solve_decision. Defined.

#[export] Instance prim_countable : Countable prim.
Proof.
  refine (inj_countable'
    (λ p, match p with
          | PUndefined => inl (inl tt)
          | PNull => inl (inr tt)
          | PBool b => inr (inl b)
          | PNum n => inr (inr (inl n))
          | PStr s => inr (inr (inr s))
          end)
    (λ x : (unit + unit) + (bool + (number + string)),
          match x with
          | inl (inl _) => PUndefined
          | inl (inr _) => PNull
          | inr (inl b) => PBool b
          | inr (inr (inl n)) => PNum n
          | inr (inr (inr s)) => PStr s
          end) _).
  by intros [].
Defined.

Definition prim_of (v : val) : option prim :=
  match v with
  | VUndefined => Some PUndefined
  | VNull => Some PNull
  | VBool b => Some (PBool b)
  | VNum x => Some (PNum (unsigned_zero x))
  | VStr s => Some (PStr s)
  | VArr _ | VObj _ => None
  end.

Definition is_reference (v : val) : bool :=
  match v with VArr _ | VObj _ => true | _ => false end.

(** The number of distinct values among [ids]: the distinct primitive
    values, and every object or array on its own. *)
Definition distinct_count (ids : list val) : Z :=
  Z.of_nat (size (list_to_set (omap prim_of ids) : gset prim)
            + length (filter (λ v, is_reference v = true) ids)).

(** A response body read as a page: its items, cursor and declared total,
    when it is "an object containing an array field at the expected key,
    and a pagination object containing both token and total". *)
Definition page_of (r : Resource) (data : val) : option (list val * val * val) :=
  match data with
  | VObj ps =>
      match lookup_prop (plural r) ps, lookup_prop "pagination" ps with
      | Some (VArr items), Some (VObj pg) =>
          match lookup_prop "token" pg, lookup_prop "total" pg with
          | Some token, Some total => Some (items, token, total)
          | _, _ => None
          end
      | _, _ => None
      end
  | _ => None
  end.

(** How axios settles a request, given the reply the network has for it. *)
Definition settle (reply : option Reply) : res Response :=
  match reply with
  | None => Throw (AxiosError "Network Error")
  | Some (NetworkError msg) => Throw (AxiosError msg)
  | Some (HttpReply resp) =>
      if (200 <=? status resp) && (status resp <? 300) then Ok resp
      else Throw (AxiosError ("Request failed with status code "
                              +:+ pretty (status resp)))
  end.

(** A reply with status 200 and the given body. *)
Definition ok_reply (body : val) : Reply :=
  HttpReply {| status := 200; statusText := "OK"; data := body |}.

(** A page body as the API documents it. *)
Definition page_body (r : Resource) (items : list val) (token total : val) : val :=
  VObj [ (plural r, VArr items);
         ("pagination", VObj [("token", token); ("total", total)]) ].

(** A world with the given network script and nothing done yet. *)
Definition fresh_world (script : list Reply) (write_error : option exn) : World :=
  {| net := script; requests := []; console := [];
     state_idx := 0; state_total := 0;
     fs_error := write_error; files := [] |}.

(** A value that has a string conversion: no object in it, nor in the
    arrays it is made of, has a property [toString] of its own. *)
Fixpoint printable (v : val) : bool :=
  match v with
  | VArr l => forallb printable l
  | VObj ps => negb (bool_decide (is_Some (lookup_prop "toString" ps)))
  | _ => true
  end.

(** What the engine throws on a value that has none. *)
Definition no_conversion : exn :=
  TypeError "Cannot convert object to primitive value".

(** The text of a value that has a string conversion. *)
Definition text_of (v : val) : string :=
  match toString v with Ok s => s | _ => "" end.

(** A reply read as a page: it has status 200 and a well-formed body, whose
    declared total, which the fetch logs, can be printed. *)
Definition reply_page (r : Resource) (reply : Reply)
    : option (list val * val * val) :=
  match reply with
  | HttpReply resp =>
      if status resp =? 200 then
        match page_of r (data resp) with
        | Some (items, cursor, total) =>
            if printable total then Some (items, cursor, total) else None
        | None => None
        end
      else None
  | NetworkError _ => None
  end.

Definition page_items (p : list val * val * val) : list val := p.1.1.
Definition page_cursor (p : list val * val * val) : val := p.1.2.

(** The request a turn of the loop issues for a given cursor. *)
Definition page_request (r : Resource) (token : string) (cursor : val) : Request :=
  {| url := page_url r cursor; config := makeAxiosAuthHeaders token |}.

(** The participants set after the given [userID] values were added. *)
Definition add_all (ids : list val) (set : list val) : list val :=
  foldl (λ set v, Set_add v set) set ids.

(** What one thread does to the running totals. *)
Definition thread_step (acc : ThreadTotals) (t : val) : ThreadTotals :=
  {| totalResolvedThreadCount := totalResolvedThreadCount acc + flag "resolved" t;
     totalMessageCount := add_value (totalMessageCount acc) (field t "total");
     totalDeletedMessageCount :=
       add_value (totalDeletedMessageCount acc) (field t "deletedMessages");
     totalActionMessagesCount :=
       add_value (totalActionMessagesCount acc) (field t "actionMessages");
     totalUserMessagesCount :=
       add_value (totalUserMessagesCount acc) (field t "userMessages");
     threadParticipants :=
       add_all (omap userID_of (elements (field t "participants")))
               (threadParticipants acc) |}.

(** The row the aggregation computes, metric by metric: fourteen counts,
    and the four sums of the numbers the threads hold. *)
Definition metrics_row (users groups threads messages : list val) : val :=
  VObj
    [ ("Total User Count", VNum (Number (Z.of_nat (length users))));
      ("Active User Count", VNum (Number (sum_of (has_status "active") users)));
      ("Deleted User Count", VNum (Number (sum_of (has_status "deleted") users)));
      ("Total Group Count", VNum (Number (Z.of_nat (length groups))));
      ("Active Group Count", VNum (Number (sum_of (has_status "active") groups)));
      ("Deleted Group Count",
       VNum (Number (sum_of (has_status "deleted") groups)));
      ("Slack Connected Group Count",
       VNum (Number (sum_of (flag "connectToSlack") groups)));
      ("Total Thread Count", VNum (Number (Z.of_nat (length threads))));
      ("Total Resolved Thread Count",
       VNum (Number (sum_of (flag "resolved") threads)));
      ("Total Message Count", VNum (number_sum (numbers_in "total" threads)));
      ("Total Deleted Message Count",
       VNum (number_sum (numbers_in "deletedMessages" threads)));
      ("Total User Messages Count",
       VNum (number_sum (numbers_in "userMessages" threads)));
      ("Total Action Messages Count",
       VNum (number_sum (numbers_in "actionMessages" threads)));
      ("Total Thread Participants Count",
       VNum (Number (distinct_count (participant_ids threads))));
      ("Total Messages", VNum (Number (Z.of_nat (length messages))));
      ("Total Mention Messages Count", VNum (Number (sum_of mentions_in messages)));
      ("Total Reactions Count",
       VNum (Number (sum_of (array_length "reactions") messages)));
      ("Total Attachments Count",
       VNum (Number (sum_of (array_length "attachments") messages))) ].

(** A thread record with the given participants. *)
Definition thread_with (userIDs : list string) : val :=
  VObj [("participants", VArr (map (λ u, VObj [("userID", VStr u)]) userIDs))].

(** Effectful code that comes to an end by itself in every world. *)
Definition M_settled {A} (m : M A) : Prop := ∀ w, settled (m w).1.

(** The two ways the listing of the applications ends: with the response
    body, or with [process.exit(1)]. *)
Definition rows_or_exit {A} (r : res A) : Prop :=
  match r with Ok _ | Exit 1 => True | _ => False end.

(** The ways the application loop ends: with the rows, with
    [process.exit(1)], or with the exception of a name or an identifier
    that has no string conversion. *)
Definition rows_exit_or_conversion {A} (r : res A) : Prop :=
  match r with
  | Ok _ | Exit 1 => True
  | Throw e => e = no_conversion
  | _ => False
  end.

(** An entry of [applicationData]: identifier and name, both strings, and
    a row holding a number for each of the eighteen metrics. *)
Definition is_entry (entry : list val) : Prop :=
  ∃ id name ps,
    entry = [VStr id; VStr name; VObj ps] ∧ map fst ps = metric_names ∧
    Forall (λ kv, is_number kv.2 = true) ps.

(** The text of a cell of the output: [undefined] and [null] print as
    nothing. *)
Definition cell_text (v : val) : string :=
  match v with VUndefined | VNull => "" | _ => text_of v end.

(** The line of the output for an entry, given the column names. *)
Definition row_of (keys : list string) (entry : list val) : string :=
  String.concat ","
    (map cell_text ([index entry 0; index entry 1]
                    ++ map (λ k, field (index entry 2) k) keys)).

(** A value that is a string. *)
Definition is_string (v : val) : bool := String.eqb (typeof v) "string".

(** The applications the loop produces a row for. *)
Definition processed (applications : list val) : list val :=
  filter (λ a, excluded (field a "id") = false) applications.

(** The name an application is logged under (line 468), when its name and
    its identifier can be printed. *)
Definition debugName_of (application : val) : string :=
  text_of (field application "name") +:+ " "
  +:+ text_of (field application "id").

(** The world when [generateApplicationAnalytics] is called for an
    application: the progress counter was stepped and the line announcing
    the application logged. *)
Definition announced (application : val) (w : World) : World :=
  push_console
    (Log (state_idx w + 1) (state_total w)
         ("Generating analytics for app " +:+ debugName_of application))
    (set_state (state_idx w + 1) (state_total w) w).

(** The text written to the output file for the given entries. *)
Definition csv_of (keys : list string) (applicationData : list (list val)) : string :=
  String.concat newline
    (String.concat "," ("ID" :: "Name" :: keys)
     :: map (row_of keys) applicationData)
  +:+ newline.

(** The world in which the application loop starts, [state.total] set. *)
Definition loop_start (applications : val) (w : World) : World :=
  set_state (state_idx w) (Z.of_nat (length (elements applications))) w.

(** An application the loop skips: an object with an excluded [id]. *)
Definition is_skipped (application : val) : Prop :=
  is_object application = true ∧ excluded (field application "id") = true.

(** The four fetches of an application, in the order in which their
    replies are taken from the script. *)
Inductive Fetch : Type := Users | Groups | Threads | Messages.

Definition fetch_order : list Fetch := [Users; Groups; Threads; Messages].

Definition run_fetch (f : Fetch) : string → string → M (list val) :=
  match f with
  | Users => getUsers
  | Groups => getGroups
  | Threads => getThreads
  | Messages => getMessages
  end.

(** The resource of a paginated fetch; the groups come in one response. *)
Definition resource_of (f : Fetch) : option Resource :=
  match f with
  | Users => Some users_resource
  | Groups => None
  | Threads => Some threads_resource
  | Messages => Some messages_resource
  end.

(** A response of status 200 whose body satisfies [P]. *)
Definition ok_with (P : val → Prop) (reply : Reply) : Prop :=
  ∃ resp, reply = HttpReply resp ∧ status resp = 200 ∧ P (data resp).

(** Well-formed pages that all carry a cursor, so that the fetch goes on
    after each. *)
Definition pages_going_on (r : Resource) (replies : list Reply) : Prop :=
  ∃ init, map (reply_page r) replies = map Some init ∧
          Forall (λ p, strict_eq (page_cursor p) VNull = false) init.

(** The replies that answer a fetch in full: for a paginated fetch,
    well-formed pages of which the last and only the last has a null
    cursor; for the groups, one response holding an array. *)
Definition answered (f : Fetch) (replies : list Reply) : Prop :=
  match resource_of f with
  | Some r =>
      ∃ pages last,
        replies = pages ++ [last] ∧ pages_going_on r pages ∧
        ∃ items total, reply_page r last = Some (items, VNull, total)
  | None =>
      ∃ reply, replies = [reply] ∧
               ok_with (λ body, Array_isArray body = true) reply
  end.

(** A body the fetch is written to reject as malformed: for a paginated
    fetch an object, or an array, that is not a page; for the groups
    anything but an array. *)
Definition rejected_body (f : Fetch) (body : val) : Prop :=
  match resource_of f with
  | Some r => is_object body = true ∧ page_of r body = None
  | None => Array_isArray body = false
  end.

(** The replies on which a fetch fails: after pages that go on (none for
    the groups), a response with a malformed body, or two attempts of the
    same request that both fail. *)
Definition refused (f : Fetch) (replies : list Reply) : Prop :=
  ∃ pages last,
    replies = pages ++ last ∧
    match resource_of f with
    | Some r => pages_going_on r pages
    | None => pages = []
    end ∧
    ((∃ reply, last = [reply] ∧ ok_with (rejected_body f) reply) ∨
     (∃ first second e1 e2,
        last = [first; second] ∧
        settle (Some first) = Throw e1 ∧ settle (Some second) = Throw e2)).

(** A first page that the paginated fetches do not examine: a response of
    status 200 whose body is not an object. *)
Definition unexamined (reply : Reply) : Prop :=
  ok_with (λ body, is_object body = false) reply.

(** Effectful code that leaves the file system alone. *)
Definition keeps_files {A} (m : M A) : Prop :=
  ∀ w, fs_error (m w).2 = fs_error w ∧ files (m w).2 = files w.

(** ** A sample run

    One application with two active users and a deleted one, a group
    connected to Slack, a resolved thread of five messages, and three
    messages of which one has two reactions and a mention. *)

Definition example_env : val :=
  VObj [("CUSTOMER_ID", VStr "customer"); ("CUSTOMER_SECRET", VStr "secret")].

Definition example_outputFile : val := VStr "data.csv".

(** The integer a double holds, when it holds one. *)
Definition integer_of (x : number) : option Z :=
  match x with
  | S754_zero _ => Some 0
  | S754_finite s m e =>
      if 0 <=? e then Some (cond_Zopp s (Z.pos m * 2 ^ e))
      else if Z.pos m mod 2 ^ (- e) =? 0
           then Some (cond_Zopp s (Z.pos m / 2 ^ (- e)))
           else None
  | _ => None
  end.

(** The printer of the samples: the decimal digits of an integer, which is
    the text the engine gives the integers below 10^21; the samples hold no
    other number. *)
Definition example_Number_toString (x : number) : string :=
  match integer_of x with Some n => pretty n | None => "NaN" end.

(** The encoder of the samples: a string or a number as it prints; the
    samples encode nothing that holds a reserved character. *)
Definition example_encodeURIComponent (v : val) : string :=
  match v with
  | VStr s => s
  | VNum x => example_Number_toString x
  | _ => ""
  end.

Definition example_jwt_sign
    : list (string * val) → val → string → string → string :=
  λ _ _ _ _, "token".

Definition example_application : val :=
  VObj [("id", VStr "app1"); ("name", VStr "App One"); ("secret", VStr "s3cret")].

Definition example_users : list val :=
  [ VObj [("status", VStr "active")]; VObj [("status", VStr "active")];
    VObj [("status", VStr "deleted")] ].

Definition example_messages : list val :=
  [ VObj [ ("reactions", VArr [VObj []; VObj []]);
           ("content", VArr [VObj [ ("type", VStr "p");
                                    ("children", VArr [mention_chain 0]) ]]) ];
    VObj []; VObj [] ].

Definition example_script : list Reply :=
  [ ok_reply (VArr [example_application]);
    ok_reply (page_body users_resource example_users VNull (VNum (Number 3)));
    ok_reply (VArr [VObj [("connectToSlack", VBool true)]]);
    ok_reply (page_body threads_resource
                [VObj [("resolved", VBool true); ("total", VNum (Number 5))]]
                VNull (VNum (Number 1)));
    ok_reply (page_body messages_resource example_messages VNull (VNum (Number 3))) ].



(** ** Vocabulary of the further properties *)

(** The request [getGroups] issues. *)
Definition groups_request (token : string) : Request :=
  {| url := "https://api.cord.com/v1/groups";
     config := makeAxiosAuthHeaders token |}.

(** A network script and the same script with failed attempts put in: each
    reply of the first is, in the second, either alone or preceded by one
    reply the request fails on. *)
Inductive flaky : list Reply → list Reply → Prop :=
  | flaky_nil : flaky [] []
  | flaky_through (x : Reply) (clean noisy : list Reply) :
      flaky clean noisy → flaky (x :: clean) (x :: noisy)
  | flaky_retry (bad x : Reply) (e : exn) (clean noisy : list Reply) :
      settle (Some bad) = Throw e →
      flaky clean noisy → flaky (x :: clean) (bad :: x :: noisy).

(** Effectful code that issues only requests satisfying [P], and only adds
    to the log of requests. *)
Definition only_requests (P : Request → Prop) {A} (m : M A) : Prop :=
  ∀ w, ∃ new, requests (m w).2 = requests w ++ new ∧ Forall P new.

(** Effectful code that leaves the global progress counters alone. *)
Definition keeps_progress {A} (m : M A) : Prop :=
  ∀ w, state_idx (m w).2 = state_idx w ∧ state_total (m w).2 = state_total w.


(** A row holds the count [n] for a metric. *)
Definition holds_count (row : val) (name : string) (n : Z) : Prop :=
  field row name = VNum (Number n).

(** A request to one of the five resource addresses of the API, carrying a
    bearer token. *)
Definition api_request (q : Request) : Prop :=
  (∃ name rest,
     name ∈ ["applications"; "users"; "groups"; "threads"; "messages"] ∧
     url q = "https://api.cord.com/v1/" +:+ name +:+ rest) ∧
  ∃ token, Authorization (config q) = "Bearer " +:+ token.

(** Effectful code that leaves the progress counters alone and whose console
    lines all satisfy [P], which may refer to the counters. *)
Definition console_frame (P : Z → Z → ConsoleLine → Prop) {A} (m : M A) : Prop :=
  ∀ w, ∃ new,
    console (m w).2 = console w ++ new ∧
    Forall (P (state_idx w) (state_total w)) new ∧
    state_idx (m w).2 = state_idx w ∧ state_total (m w).2 = state_total w.

(** A line of [log] printed while the counters stand at [idx] and [total];
    the other lines of the console carry no counters. *)
Definition stamped (idx total : Z) (c : ConsoleLine) : Prop :=
  match c with Log i t _ => i = idx ∧ t = total | _ => True end.

(** No line of [log] at all. *)
Definition unstamped (_ _ : Z) (c : ConsoleLine) : Prop :=
  match c with Log _ _ _ => False | _ => True end.

(** A line of [log] whose counter lies between 1 and the total, so that the
    percentage in front of it is a number between 0 and 100. *)
Definition within_total (c : ConsoleLine) : Prop :=
  match c with Log idx total _ => 1 ≤ idx ≤ total | _ => True end.

(** An entry whose line in the output is the identifier and the name as
    they are, followed by the texts the engine gives the eighteen numbers
    of its row. *)
Definition plain_row (entry : list val) : Prop :=
  ∃ (id name : string) (counters : list number),
    index entry 0 = VStr id ∧ index entry 1 = VStr name ∧
    length counters = 18%nat ∧
    map (λ k, field (index entry 2) k) metric_names = map VNum counters ∧
    row_of metric_names entry
      = String.concat "," (id :: name :: map Number_toString counters).

(** The request for the list of applications, with the token it carries. *)
Definition applications_request (token : string) : Request :=
  {| url := "https://api.cord.com/v1/applications";
     config := makeAxiosAuthHeaders token |}.

(** The fourteen metrics that are counts: counters stepped by one, lengths
    of the fetched arrays, and the size of the participants set. *)
Definition count_names : list string :=
  [ "Total User Count"; "Active User Count"; "Deleted User Count";
    "Total Group Count"; "Active Group Count"; "Deleted Group Count";
    "Slack Connected Group Count"; "Total Thread Count";
    "Total Resolved Thread Count"; "Total Thread Participants Count";
    "Total Messages"; "Total Mention Messages Count";
    "Total Reactions Count"; "Total Attachments Count" ].

(** A thread record that holds the given number of messages. *)
Definition thread_of (total : number) : val := VObj [("total", VNum total)].

(** * Properties *)

(** ** Running pure code *)

(** The guard [v && typeof v === "object"] lets arrays and objects through
    and nothing else. *)
Lemma is_object_spec (v : val) :
  is_object v = match v with VArr _ | VObj _ => true | _ => false end.
Proof.
  unfold is_object. destruct v; simpl; auto using andb_false_r.
Qed.

Lemma settled_get (v : val) (k : string) : settled (js_get v k).
Proof. by destruct v. Qed.

Lemma settled_in (k : string) (v : val) : settled (js_in k v).
Proof. by destruct v. Qed.

Lemma settled_bind {A B} (r : res A) (f : A → res B) :
  settled r → (∀ a, settled (f a)) → settled (r ≫= f).
Proof. destruct r; simpl; auto. Qed.

Lemma settled_fmap {A B} (f : A → B) (r : res A) : settled r → settled (f <$> r).
Proof. by destruct r. Qed.

Lemma settled_andM (a b : res bool) : settled a → settled b → settled (andM a b).
Proof. intros Ha Hb. apply settled_bind; [done|]. by intros []. Qed.

Lemma settled_for_of {A S} (l : list A) (acc : S) (body : S → A → res S) :
  (∀ acc x, settled (body acc x)) → settled (for_of l acc body).
Proof.
  intros Hbody. revert acc. induction l as [|x l IH]; intros acc; [done|].
  simpl. apply settled_bind; auto.
Qed.

Create HintDb settled.
#[local] Hint Resolve settled_get settled_in settled_bind settled_fmap
  settled_andM settled_for_of : settled.

(** ** The content tree scanner *)

Lemma depth_prop (k : string) (ps : list (string * val)) (v : val) :
  lookup_prop k ps = Some v → (depth v < depth (VObj ps))%nat.
Proof.
  induction ps as [|[k' v'] ps IH]; simpl; [done|].
  destruct (String.eqb k' k); intros H.
  - injection H as ->. lia.
  - specialize (IH H). simpl in IH. lia.
Qed.

Lemma nodes_below_obj (ps : list (string * val)) :
  nodes_below (VObj ps) =
  VObj ps :: match lookup_prop "children" ps with
             | Some (VArr l) => flat_map nodes_below l
             | _ => []
             end.
Proof.
  simpl. f_equal.
  induction ps as [|[k v] ps IH]; [done|].
  simpl. destruct (String.eqb k "children"); [done|apply IH].
Qed.

Lemma count_mention_nodes_cons (thing : val) (rest : list val) :
  count_mention_nodes (thing :: rest) =
  own_count thing + count_mention_nodes (default [] (children_of thing))
  + count_mention_nodes rest.
Proof.
  unfold count_mention_nodes, own_count, children_of.
  change (flat_map nodes_below (thing :: rest))
    with (nodes_below thing ++ flat_map nodes_below rest).
  rewrite filter_app, length_app, Nat2Z.inj_add. f_equal.
  destruct thing as [| | | | |l|ps]; try reflexivity.
  rewrite nodes_below_obj.
  destruct (is_mention_node (VObj ps)) eqn:Hm.
  - rewrite filter_cons_True by done. simpl length.
    destruct (lookup_prop "children" ps) as [[]|]; simpl; lia.
  - rewrite filter_cons_False by congruence.
    destruct (lookup_prop "children" ps) as [[]|]; simpl; lia.
Qed.

(** The loop body on one entry, given what the recursive call returns on
    the entry's children. *)
Lemma countMentions_body_eq (recur : list val → res Z) (count : Z) (thing : val) :
  (∀ l, children_of thing = Some l → recur l = Ok (count_mention_nodes l)) →
  countMentions_body recur count thing =
  Ok (count + own_count thing
      + count_mention_nodes (default [] (children_of thing))).
Proof.
  intros Hrec. unfold countMentions_body. rewrite is_object_spec.
  assert (Hz : count_mention_nodes [] = 0) by reflexivity.
  destruct thing as [| | b | n | s | l | ps]; cbn;
    rewrite ?Hz; try (f_equal; lia).
  unfold own_count, children_of in *. cbn.
  destruct (lookup_prop "type" ps) as [t|] eqn:Ht; cbn.
  all: destruct (lookup_prop "children" ps) as [c|] eqn:Hc; cbn.
  all: try destruct c; try destruct t; cbn.
  all: try (rewrite (Hrec _ eq_refl); cbn).
  all: rewrite ?Hz; try destruct (String.eqb _ "mention"); try (f_equal; lia).
Qed.


Lemma children_depth (thing : val) (l : list val) :
  children_of thing = Some l → (depth (VArr l) < depth thing)%nat.
Proof.
  destruct thing as [| | | | | |ps]; try done. unfold children_of.
  destruct (lookup_prop "children" ps) as [[]|] eqn:H; try done.
  intros [= <-]. by apply depth_prop in H.
Qed.

Lemma countMentions_loop (fuel : nat) :
  (∀ l, (depth (VArr l) ≤ fuel)%nat →
        countMentions_rec fuel l = Ok (count_mention_nodes l)) →
  ∀ arr count, (depth (VArr arr) ≤ S fuel)%nat →
    for_of arr count (countMentions_body (countMentions_rec fuel)) =
    Ok (count + count_mention_nodes arr).
Proof.
  intros IH arr. induction arr as [|thing rest IHrest]; intros count Hd.
  - simpl. f_equal. change (count_mention_nodes []) with 0. lia.
  - cbn [for_of]. rewrite countMentions_body_eq.
    + cbn. rewrite IHrest by (simpl in *; lia).
      f_equal. rewrite (count_mention_nodes_cons thing rest). lia.
    + intros l Hl. apply IH. apply children_depth in Hl. simpl in Hd. lia.
Qed.

(** The bound is never reached: with fuel for the nesting depth of the
    array, the scanner returns the count. *)
Lemma countMentions_rec_enough (fuel : nat) (arr : list val) :
  (depth (VArr arr) ≤ fuel)%nat →
  countMentions_rec fuel arr = Ok (count_mention_nodes arr).
Proof.
  revert arr. induction fuel as [|fuel IH]; intros arr Hd.
  - simpl in Hd. lia.
  - simpl. by rewrite (countMentions_loop fuel IH arr 0 Hd).
Qed.

Lemma countMentions_correct (arr : list val) :
  countMentionsInMessageContent arr = Ok (count_mention_nodes arr).
Proof. apply countMentions_rec_enough. lia. Qed.

(** The recursive equation of the source: the scanner is its loop body
    folded over the array, the recursive call being the scanner itself. *)
Lemma countMentions_unfold (arr : list val) :
  countMentionsInMessageContent arr =
  for_of arr 0 (countMentions_body countMentionsInMessageContent).
Proof.
  rewrite countMentions_correct. symmetry.
  assert (H : ∀ arr count,
    for_of arr count (countMentions_body countMentionsInMessageContent) =
    Ok (count + count_mention_nodes arr)).
  { clear arr. induction arr as [|thing rest IH]; intros count.
    - simpl. f_equal. change (count_mention_nodes []) with 0. lia.
    - cbn [for_of]. rewrite countMentions_body_eq
        by (intros; apply countMentions_correct).
      cbn. rewrite IH, (count_mention_nodes_cons thing rest). f_equal. lia. }
  by rewrite H.
Qed.

Lemma count_flat_mentions (l : list val) :
  Forall (λ t, is_mention_node t = true ∧ children_of t = None) l →
  count_mention_nodes l = Z.of_nat (length l).
Proof.
  induction 1 as [|t l [Hm Hc] _ IH]; [done|].
  rewrite count_mention_nodes_cons, IH. unfold own_count.
  rewrite Hm, Hc. simpl length. change (count_mention_nodes (default [] None)) with 0.
  lia.
Qed.

Lemma count_mention_chain (d : nat) :
  count_mention_nodes [mention_chain d] = Z.of_nat (S d).
Proof.
  induction d as [|d IH].
  - reflexivity.
  - rewrite count_mention_nodes_cons.
    change (children_of (mention_chain (S d))) with (Some [mention_chain d]).
    change (own_count (mention_chain (S d))) with 1.
    change (count_mention_nodes []) with 0.
    cbn [default id]. unfold id. rewrite IH. lia.
Qed.

(** C5. [countMentionsInMessageContent] returns, for every array, the
    number of nodes at any depth (the entries, and recursively the entries
    of the [children] arrays of entries) whose [type] is "mention".  It
    returns 0 on the empty array, N on a flat list of N mention nodes
    without children, and [S d] on a chain of [S d] nested single-child
    mention nodes; an entry that is not an object adds nothing, an object
    without a [children] array adds only its own match, and a node that is
    not a mention adds only the matches among its descendants. *)
Theorem countMentionsInMessageContent_spec :
  (∀ arr, countMentionsInMessageContent arr = Ok (count_mention_nodes arr)) ∧
  countMentionsInMessageContent [] = Ok 0 ∧
  (∀ l, Forall (λ t, is_mention_node t = true ∧ children_of t = None) l →
        countMentionsInMessageContent l = Ok (Z.of_nat (length l))) ∧
  (∀ d, countMentionsInMessageContent [mention_chain d] = Ok (Z.of_nat (S d))) ∧
  (∀ thing rest, is_object thing = false →
        countMentionsInMessageContent (thing :: rest) =
        countMentionsInMessageContent rest) ∧
  (∀ thing rest, children_of thing = None →
        countMentionsInMessageContent (thing :: rest) =
        (n ← countMentionsInMessageContent rest;
         mret ((if is_mention_node thing then 1 else 0) + n))) ∧
  (∀ thing children rest,
        is_mention_node thing = false → children_of thing = Some children →
        countMentionsInMessageContent (thing :: rest) =
        (below ← countMentionsInMessageContent children;
         n ← countMentionsInMessageContent rest;
         mret (below + n))).
Proof.
  split; [apply countMentions_correct|].
  split; [reflexivity|].
  split; [intros l Hl; by rewrite countMentions_correct, count_flat_mentions|].
  split; [intros d; by rewrite countMentions_correct, count_mention_chain|].
  split; [|split].
  - intros thing rest Hobj. rewrite !countMentions_correct.
    rewrite count_mention_nodes_cons. f_equal.
    rewrite is_object_spec in Hobj.
    destruct thing; try done; reflexivity.
  - intros thing rest Hc. rewrite !countMentions_correct.
    rewrite count_mention_nodes_cons, Hc. cbn. f_equal.
    change (count_mention_nodes []) with 0. unfold own_count. lia.
  - intros thing children rest Hm Hc. rewrite !countMentions_correct.
    rewrite count_mention_nodes_cons, Hc. cbn. f_equal.
    unfold own_count. rewrite Hm. lia.
Qed.

(** ** String conversion *)

(** Induction on values, the elements of an array included. *)
Lemma val_elements_ind (P : val → Prop) :
  P VUndefined → P VNull → (∀ b, P (VBool b)) → (∀ x, P (VNum x)) →
  (∀ s, P (VStr s)) → (∀ l, Forall P l → P (VArr l)) → (∀ ps, P (VObj ps)) →
  ∀ v, P v.
Proof.
  intros Hu Hn Hb Hx Hs Ha Ho. fix IH 1.
  intros [| |b|x|s|l|ps];
    [exact Hu|exact Hn|apply Hb|apply Hx|apply Hs| |apply Ho].
  apply Ha. induction l as [|v l IHl]; constructor; [apply IH|exact IHl].
Qed.

(** The texts of the elements of an array, as [toString] joins them. *)
Lemma toString_arr (l : list val) :
  toString (VArr l) =
  String.concat "," <$>
    for_of l [] (λ texts x,
      s ← match x with VUndefined | VNull => Ok "" | _ => toString x end;
      mret (texts ++ [s])).
Proof.
  cbn [toString]. set (texts := fix texts (l : list val) := _).
  assert (H : ∀ acc,
    for_of l acc (λ texts x,
      s ← match x with VUndefined | VNull => Ok "" | _ => toString x end;
      mret (texts ++ [s]))
    = (ss ← texts l; mret (acc ++ ss))).
  { induction l as [|x l IH]; intros acc; cbn [for_of].
    - simpl. by rewrite app_nil_r.
    - change (texts (x :: l)) with
        (s ← match x with VUndefined | VNull => Ok "" | _ => toString x end;
         ss ← texts l; mret (s :: ss)).
      destruct (match x with VUndefined | VNull => Ok "" | _ => toString x end)
        as [s| | |]; cbn; try done.
      rewrite IH. destruct (texts l) as [ss| | |]; cbn; try done.
      by rewrite <- app_assoc. }
  rewrite H. by destruct (texts l).
Qed.

(** The conversion succeeds on the values that can be printed and throws
    on the others. *)
Lemma toString_spec (v : val) :
  toString v = if printable v then Ok (text_of v) else Throw no_conversion.
Proof.
  assert (H : if printable v then ∃ s, toString v = Ok s
              else toString v = Throw no_conversion).
  2:{ unfold text_of. destruct (printable v); [|done]. by destruct H as [s ->]. }
  induction v as [| |b|x|s|l IH|ps] using val_elements_ind;
    try (by eexists).
  - rewrite toString_arr. cbn [printable].
    set (body := λ (texts : list string) (x : val), _).
    assert (Hl : ∀ acc, if forallb printable l
                        then ∃ ss, for_of l acc body = Ok ss
                        else for_of l acc body = Throw no_conversion).
    { induction IH as [|x l Hx _ IHl]; intros acc; cbn [forallb for_of].
      + by eexists.
      + change (body acc x) with
          (s ← match x with VUndefined | VNull => Ok "" | _ => toString x end;
           mret (acc ++ [s])).
        destruct (printable x); cbn [andb].
        * destruct Hx as [s Hs].
          assert (∃ s, match x with VUndefined | VNull => Ok "" | _ => toString x end
                       = Ok s) as [s' ->] by (destruct x; eauto).
          cbn. apply IHl.
        * assert (match x with VUndefined | VNull => Ok "" | _ => toString x end
                  = Throw no_conversion) as -> by (by destruct x).
          done. }
    specialize (Hl []). destruct (forallb printable l).
    + destruct Hl as [ss ->]. by eexists.
    + by rewrite Hl.
  - cbn. by destruct (bool_decide _); [|eexists].
Qed.

Lemma toString_printable (v : val) :
  printable v = true → toString v = Ok (text_of v).
Proof. intros H. by rewrite toString_spec, H. Qed.

Lemma toString_unprintable (v : val) :
  printable v = false → toString v = Throw no_conversion.
Proof. intros H. by rewrite toString_spec, H. Qed.

Lemma settled_toString (v : val) : settled (toString v).
Proof. rewrite toString_spec. by destruct (printable v). Qed.

(** ** Running effectful code *)

(** Unfolds the monadic plumbing and computes. *)
Ltac run :=
  repeat (progress (cbn;
    unfold lift, throw, process_exit, console_log, console_error,
      console_error_exn, console_error_resp, log, set_progress, replies_left,
      out_of_fuel, mbind, M_mbind, M_bind, mret, M_mret)).

Lemma M_bind_Ok {A B} (m : M A) (f : A → M B) (w w' : World) (a : A) :
  m w = (Ok a, w') → (m ≫= f) w = f a w'.
Proof. intros H. unfold mbind, M_mbind, M_bind. by rewrite H. Qed.

Lemma M_bind_Throw {A B} (m : M A) (f : A → M B) (w w' : World) (e : exn) :
  m w = (Throw e, w') → (m ≫= f) w = (Throw e, w').
Proof. intros H. unfold mbind, M_mbind, M_bind. by rewrite H. Qed.

Lemma M_bind_Exit {A B} (m : M A) (f : A → M B) (w w' : World) (c : Z) :
  m w = (Exit c, w') → (m ≫= f) w = (Exit c, w').
Proof. intros H. unfold mbind, M_mbind, M_bind. by rewrite H. Qed.

Lemma lift_bind_Ok {A B} (r : res A) (f : A → M B) (w : World) (a : A) :
  r = Ok a → (lift r ≫= f) w = f a w.
Proof. by intros ->. Qed.

(** ** One request and its single retry *)

Lemma axios_get_eq (u : string) (cfg : AxiosConfig) (w : World) :
  axios_get u cfg w =
  (settle (head (net w)),
   set_net (tail (net w)) (push_request {| url := u; config := cfg |} w)).
Proof.
  destruct w as [n rq co i t fe fi]. unfold axios_get, settle. simpl.
  destruct n as [|[msg|resp] rest]; simpl; try done.
  by destruct ((200 <=? status resp) && (status resp <? 300)).
Qed.

Lemma autoRetry_eq {A} (func : M A) (w : World) :
  autoRetry func w =
  match func w with
  | (Throw e, w1) =>
      func (push_console (ConsoleError "Retrying once...")
              (push_console (ConsoleErrorExn e) w1))
  | r => r
  end.
Proof.
  unfold autoRetry, try_catch.
  destruct (func w) as [[a|e|c|] w1]; reflexivity.
Qed.

(** C3. [autoRetry] calls the wrapped request once; when that attempt
    succeeds its result is returned and nothing else happens; when it
    throws, the failure is logged and the same request is made exactly once
    more, and whatever the second attempt gives, result or exception, is
    the outcome.  For a page request this reads off the world: one request
    is issued and one reply consumed when the first attempt succeeds, two
    identical requests and two replies when it fails, never a third; and
    when both attempts fail the fetch ends with the second failure. *)
Theorem autoRetry_retries_once :
  (∀ (A : Type) (func : M A) (w : World),
     autoRetry func w =
     match func w with
     | (Throw e, w1) =>
         func (push_console (ConsoleError "Retrying once...")
                 (push_console (ConsoleErrorExn e) w1))
     | r => r
     end) ∧
  (∀ (u : string) (cfg : AxiosConfig) (w : World),
     let req := {| url := u; config := cfg |} in
     let result := autoRetry (axios_get u cfg) w in
     match settle (head (net w)) with
     | Throw e =>
         result.1 = settle (head (tail (net w))) ∧
         requests result.2 = requests w ++ [req; req] ∧
         net result.2 = tail (tail (net w)) ∧
         console result.2 =
           console w ++ [ConsoleErrorExn e; ConsoleError "Retrying once..."]
     | first =>
         result.1 = first ∧
         requests result.2 = requests w ++ [req] ∧
         net result.2 = tail (net w) ∧
         console result.2 = console w
     end) ∧
  (∀ (r : Resource) (token : string) (fuel : nat) (items : list val)
     (cursor : val) (w : World) (e1 e2 : exn),
     settle (head (net w)) = Throw e1 →
     settle (head (tail (net w))) = Throw e2 →
     let result := fetch_loop r token (S fuel) items cursor w in
     result.1 = Throw e2 ∧
     requests result.2 =
       requests w ++ [page_request r token cursor; page_request r token cursor] ∧
     net result.2 = tail (tail (net w))).
Proof.
  split; [intros; apply autoRetry_eq|]. split.
  - intros u cfg w req result. subst result.
    rewrite autoRetry_eq, axios_get_eq.
    destruct (settle (head (net w))) as [resp|e|c|] eqn:Hfirst;
      try (by repeat split).
    rewrite axios_get_eq. simpl. repeat split.
    all: by rewrite <- ?app_assoc.
  - intros r token fuel items cursor w e1 e2 H1 H2 result. subst result.
    cbn [fetch_loop]. unfold fetch_page.
    assert (Hretry : autoRetry (axios_get (page_url r cursor)
                                  (makeAxiosAuthHeaders token)) w =
              (Throw e2,
               set_net (tail (tail (net w)))
                 (push_request (page_request r token cursor)
                    (push_console (ConsoleError "Retrying once...")
                       (push_console (ConsoleErrorExn e1)
                          (set_net (tail (net w))
                             (push_request (page_request r token cursor) w))))))).
    { rewrite autoRetry_eq, axios_get_eq, H1, axios_get_eq. simpl.
      by rewrite H2. }
    erewrite M_bind_Throw; [|by erewrite M_bind_Throw by exact Hretry].
    simpl. by rewrite <- app_assoc.
Qed.

(** ** The paginated fetches *)

Lemma retry_get_Ok (u : string) (cfg : AxiosConfig) (w : World)
    (resp : Response) (rest : list Reply) :
  net w = HttpReply resp :: rest →
  status resp = 200 →
  autoRetry (axios_get u cfg) w =
  (Ok resp, set_net rest (push_request {| url := u; config := cfg |} w)).
Proof.
  intros Hnet Hst. rewrite autoRetry_eq, axios_get_eq, Hnet. simpl.
  by rewrite Hst.
Qed.


(** A turn of the loop on a well-formed page. *)
Lemma fetch_page_page (r : Resource) (token : string) (items : list val)
    (cursor : val) (w : World) (resp : Response) (rest : list Reply)
    (l : list val) (t total : val) :
  net w = HttpReply resp :: rest →
  status resp = 200 →
  page_of r (data resp) = Some (l, t, total) →
  printable total = true →
  ∃ w', fetch_page r token items cursor w = (Ok (items ++ l, t), w') ∧
        net w' = rest ∧
        requests w' = requests w ++ [page_request r token cursor] ∧
        fs_error w' = fs_error w ∧ files w' = files w.
Proof.
  intros Hnet Hst Hpage Htotal. unfold fetch_page.
  erewrite M_bind_Ok by (by apply retry_get_Ok).
  rewrite Hst. simpl. destruct (data resp) as [| | | | | |ps]; try done.
  simpl in Hpage.
  destruct (lookup_prop (plural r) ps) as [[]|] eqn:Hitems; try done.
  destruct (lookup_prop "pagination" ps) as [[| | | | | |pg]|] eqn:Hpg; try done.
  destruct (lookup_prop "token" pg) as [t'|] eqn:Htok; try done.
  destruct (lookup_prop "total" pg) as [n'|] eqn:Htot; try done.
  injection Hpage as -> -> ->.
  run. rewrite Hitems. run. rewrite Hpg. run. rewrite Htok, Htot. run.
  rewrite (toString_printable total Htotal). run.
  eexists. split; [reflexivity|]. by simpl.
Qed.

(** A turn of the loop on a 200 response whose body is an object (or an
    array) but not a well-formed page: the turn throws, after the one
    request that was answered. *)
Lemma fetch_page_malformed (r : Resource) (token : string) (items : list val)
    (cursor : val) (w : World) (resp : Response) (rest : list Reply) :
  net w = HttpReply resp :: rest →
  status resp = 200 →
  is_object (data resp) = true →
  page_of r (data resp) = None →
  ∃ msg w', fetch_page r token items cursor w = (Throw (Error msg), w') ∧
        (msg = no_items_message r ∨ msg = bad_pagination_message r) ∧
        net w' = rest ∧
        requests w' = requests w ++ [page_request r token cursor].
Proof.
  intros Hnet Hst Hobj Hpage. unfold fetch_page.
  erewrite M_bind_Ok by (by apply retry_get_Ok).
  rewrite Hst. simpl. rewrite Hobj. rewrite is_object_spec in Hobj.
  destruct (data resp) as [| | | | |arr|ps]; try done.
  { run. eexists _, _. split; [reflexivity|]. auto. }
  simpl in Hpage. run.
  destruct (lookup_prop (plural r) ps) as [[]|] eqn:Hitems; run;
    try (eexists _, _; split; [reflexivity|]; by auto).
  destruct (lookup_prop "pagination" ps) as [[| | | | | |pg]|] eqn:Hpg; run;
    try (eexists _, _; split; [reflexivity|]; by auto).
  destruct (lookup_prop "token" pg) as [t'|] eqn:Htok; run;
    try (eexists _, _; split; [reflexivity|]; by auto).
  destruct (lookup_prop "total" pg) as [n'|] eqn:Htot; run;
    try (eexists _, _; split; [reflexivity|]; by auto).
  done.
Qed.

(** A turn of the loop on a 200 response whose body is not an object:
    nothing is checked, nothing is thrown, and items and cursor stay as
    they were. *)
Lemma fetch_page_non_object (r : Resource) (token : string) (items : list val)
    (cursor : val) (w : World) (resp : Response) (rest : list Reply) :
  net w = HttpReply resp :: rest →
  status resp = 200 →
  is_object (data resp) = false →
  fetch_page r token items cursor w =
  (Ok (items, cursor),
   set_net rest (push_request (page_request r token cursor) w)).
Proof.
  intros Hnet Hst Hobj. unfold fetch_page.
  erewrite M_bind_Ok by (by apply retry_get_Ok).
  by rewrite Hst, Hobj.
Qed.

Lemma reply_page_Some (r : Resource) (reply : Reply) (p : list val * val * val) :
  reply_page r reply = Some p →
  ∃ resp, reply = HttpReply resp ∧ status resp = 200 ∧
          page_of r (data resp) = Some p ∧ printable p.2 = true.
Proof.
  destruct reply as [|resp]; [done|]. simpl.
  destruct (status resp =? 200) eqn:Hst; [|done].
  destruct (page_of r (data resp)) as [[[items cursor] total]|] eqn:Hpage;
    [|done].
  destruct (printable total) eqn:Htotal; [|done].
  intros [= <-]. exists resp. split; [done|].
  split; [by apply Z.eqb_eq|]. by split.
Qed.

(** The loop over a run of well-formed pages, the last of which is the
    first one with a null cursor. *)
Lemma fetch_loop_pages (r : Resource) (token : string)
    (init : list (list val * val * val)) (last_items : list val) (last_total : val) :
  ∀ (replies rest : list Reply) (fuel : nat) (items : list val) (cursor : val)
    (w : World),
    net w = replies ++ rest →
    map (reply_page r) replies = map Some (init ++ [(last_items, VNull, last_total)]) →
    Forall (λ p, strict_eq (page_cursor p) VNull = false) init →
    (length init < fuel)%nat →
    ∃ w', fetch_loop r token fuel items cursor w =
            (Ok (items ++ concat (map page_items init) ++ last_items), w') ∧
          net w' = rest ∧
          requests w' =
            requests w ++ map (page_request r token) (cursor :: map page_cursor init) ∧
          fs_error w' = fs_error w ∧ files w' = files w.
Proof.
  induction init as [|[[l t] n] init IH];
    intros replies rest fuel items cursor w Hnet Hmap Hnn Hfuel.
  - destruct replies as [|reply [|? ?]]; try done.
    simpl in Hmap. injection Hmap as Hp.
    apply reply_page_Some in Hp as (resp & -> & Hst & Hp & Htotal).
    destruct fuel as [|fuel]; [lia|].
    destruct (fetch_page_page r token items cursor w resp rest _ _ _
                Hnet Hst Hp Htotal) as (w' & Hrun & Hn & Hr & Hfe & Hfi).
    exists w'. simpl. erewrite M_bind_Ok by exact Hrun.
    simpl. by rewrite Hr.
  - destruct replies as [|reply replies]; [done|].
    simpl in Hmap. injection Hmap as Hp Hmap.
    apply reply_page_Some in Hp as (resp & -> & Hst & Hp & Htotal).
    destruct fuel as [|fuel]; [simpl in Hfuel; lia|].
    apply Forall_cons in Hnn as [Ht Hnn]. change (strict_eq t VNull = false) in Ht.
    destruct (fetch_page_page r token items cursor w resp (replies ++ rest)
                _ _ _ Hnet Hst Hp Htotal) as (w1 & Hrun & Hn & Hr & Hfe & Hfi).
    destruct (IH replies rest fuel (items ++ l) t w1 Hn Hmap Hnn)
      as (w' & Hloop & Hn' & Hr' & Hfe' & Hfi'); [simpl in Hfuel; lia|].
    exists w'. cbn [fetch_loop]. erewrite M_bind_Ok by exact Hrun.
    cbn beta iota. rewrite Ht. cbn [negb]. rewrite Hloop.
    split; [|split; [done|split; [|split; congruence]]].
    + f_equal. f_equal. simpl. by rewrite <- !app_assoc.
    + rewrite Hr', Hr. simpl. by rewrite <- app_assoc.
Qed.

Lemma getPaginated_pages (r : Resource) (debugName token : string)
    (init : list (list val * val * val)) (last_items : list val) (last_total : val)
    (replies rest : list Reply) (w : World) :
  net w = replies ++ rest →
  map (reply_page r) replies = map Some (init ++ [(last_items, VNull, last_total)]) →
  Forall (λ p, strict_eq (page_cursor p) VNull = false) init →
  ∃ w', getPaginated r debugName token w =
          (Ok (concat (map page_items init) ++ last_items), w') ∧
        net w' = rest ∧
        requests w' =
          requests w ++ map (page_request r token) (VNull :: map page_cursor init) ∧
        fs_error w' = fs_error w ∧ files w' = files w.
Proof.
  intros Hnet Hmap Hnn.
  unfold getPaginated, log, replies_left, mbind, M_mbind, M_bind.
  cbn -[fetch_loop]. set (w1 := push_console _ w).
  destruct (fetch_loop_pages r token init last_items last_total replies rest
              (S (length (net w))) [] VNull w1) as (w' & Hloop & H);
    try done.
  - rewrite Hnet, length_app.
    apply (f_equal length) in Hmap. rewrite !length_map, length_app in Hmap.
    simpl in Hmap. lia.
  - exists w'. by rewrite Hloop.
Qed.

(** Every turn of the loop that does not throw has consumed a reply, and no
    turn runs out of fuel. *)
Lemma retry_get_net (u : string) (cfg : AxiosConfig) (w : World) :
  let result := autoRetry (axios_get u cfg) w in
  result.1 ≠ OutOfFuel ∧
  (∀ c, result.1 ≠ Exit c) ∧
  (∀ resp, result.1 = Ok resp → (length (net result.2) < length (net w))%nat).
Proof.
  cbv zeta. rewrite autoRetry_eq, axios_get_eq.
  assert (Hsettle : ∀ o c, settle o ≠ Exit c ∧ settle o ≠ OutOfFuel).
  { intros [[|resp]|] c; simpl; try done. by destruct (_ && _). }
  destruct (settle (head (net w))) as [resp|e|c|] eqn:Hs.
  - simpl. split; [done|]. split; [done|]. intros _ _.
    destruct (net w); simpl; [done|lia].
  - rewrite axios_get_eq. cbn [fst snd]. split; [apply (Hsettle _ 0)|].
    split; [intros c; apply Hsettle|].
    intros resp Hresp. simpl in *.
    destruct (net w) as [|r1 [|r2 rest]]; simpl in *; try done. lia.
  - by destruct (Hsettle (head (net w)) c).
  - by destruct (Hsettle (head (net w)) 0).
Qed.

Lemma settled_has_pagination (data : val) : settled (has_pagination data).
Proof.
  unfold has_pagination.
  repeat (first [apply settled_andM | apply settled_bind | apply settled_fmap
                | apply settled_get | apply settled_in | intros ? | done ]).
Qed.

Lemma fetch_page_net (r : Resource) (token : string) (items : list val)
    (cursor : val) (w : World) :
  let result := fetch_page r token items cursor w in
  settled result.1 ∧
  (∀ x, result.1 = Ok x → (length (net result.2) < length (net w))%nat).
Proof.
  cbv zeta.
  pose proof (retry_get_net (page_url r cursor) (makeAxiosAuthHeaders token) w)
    as (Hfuel & Hexit & Hnet). cbv zeta in *.
  destruct (fetch_page r token items cursor w) as [res1 w2] eqn:Hrun.
  revert Hrun. unfold fetch_page, mbind, M_mbind, M_bind.
  destruct (autoRetry _ w) as [[resp| |c|] w1]; simpl in *;
    try (by intros [= <- <-]); [|by destruct (Hexit c)].
  specialize (Hnet resp eq_refl).
  destruct (status resp =? 200); [|run; by intros [= <- <-]].
  destruct (is_object (data resp)); [|run; by intros [= <- <-]].
  run.
  assert (H1 : settled (andM (js_in (plural r) (data resp))
                             (Array_isArray <$> js_get (data resp) (plural r))))
    by auto with settled.
  destruct (andM _ _) as [[]| | |]; run; try (by intros [= <- <-]).
  pose proof (settled_get (data resp) (plural r)) as H2.
  destruct (js_get (data resp) (plural r)) as [arr| | |]; run;
    try (by intros [= <- <-]).
  pose proof (settled_has_pagination (data resp)) as H3.
  destruct (has_pagination (data resp)) as [[]| | |]; run;
    try (by intros [= <- <-]).
  pose proof (settled_get (data resp) "pagination") as H4.
  destruct (js_get (data resp) "pagination") as [pg| | |]; run;
    try (by intros [= <- <-]).
  pose proof (settled_get pg "token") as H5.
  pose proof (settled_get pg "total") as H6.
  destruct (js_get pg "token"); run; try (by intros [= <- <-]).
  destruct (js_get pg "total") as [total| | |]; run; try (by intros [= <- <-]).
  pose proof (settled_toString total) as H7.
  destruct (toString total); run; try (by intros [= <- <-]).
Qed.

(** The bound given to the loop is never reached: a script of [n] replies
    allows at most [n] turns that go on. *)
Lemma fetch_loop_fuel (r : Resource) (token : string) :
  ∀ (fuel : nat) (items : list val) (cursor : val) (w : World),
    (length (net w) < fuel)%nat →
    settled (fetch_loop r token fuel items cursor w).1.
Proof.
  induction fuel as [|fuel IH]; intros items cursor w Hlen; [lia|].
  cbn [fetch_loop]. unfold mbind, M_mbind, M_bind.
  pose proof (fetch_page_net r token items cursor w) as [Hf Hn].
  cbv zeta in *.
  destruct (fetch_page r token items cursor w) as [[[items' cursor']| | |] w1];
    simpl in *; try done.
  specialize (Hn _ eq_refl).
  destruct (negb _); [|done]. apply IH. lia.
Qed.

Lemma getPaginated_settled (r : Resource) (debugName token : string) (w : World) :
  settled (getPaginated r debugName token w).1.
Proof.
  unfold getPaginated, log, replies_left, mbind, M_mbind, M_bind.
  cbn -[fetch_loop]. apply fetch_loop_fuel. simpl. lia.
Qed.

(** A well-formed body that is an object but not a page ends the fetch
    with the malformed-response error, after a single request: the throw
    happens outside [autoRetry], so nothing is retried. *)
Lemma malformed_object_body_fatal (r : Resource) (token : string) (fuel : nat)
    (items : list val) (cursor : val) (w : World) (resp : Response)
    (rest : list Reply) :
  net w = HttpReply resp :: rest →
  status resp = 200 →
  is_object (data resp) = true →
  page_of r (data resp) = None →
  ∃ msg w', fetch_loop r token (S fuel) items cursor w = (Throw (Error msg), w') ∧
        (msg = no_items_message r ∨ msg = bad_pagination_message r) ∧
        net w' = rest ∧
        requests w' = requests w ++ [page_request r token cursor].
Proof.
  intros Hnet Hst Hobj Hpage.
  destruct (fetch_page_malformed r token items cursor w resp rest Hnet Hst Hobj Hpage)
    as (msg & w' & Hrun & H).
  exists msg, w'. split; [|done].
  cbn [fetch_loop]. by erewrite M_bind_Throw.
Qed.

(** A body that is not an object is not examined at all: on the first page
    the fetch returns normally with no items. *)
Lemma non_object_body_accepted (r : Resource) (debugName token : string)
    (w : World) (resp : Response) (rest : list Reply) :
  net w = HttpReply resp :: rest →
  status resp = 200 →
  is_object (data resp) = false →
  ∃ w', getPaginated r debugName token w = (Ok [], w') ∧ net w' = rest.
Proof.
  intros Hnet Hst Hobj.
  unfold getPaginated, log, replies_left, mbind, M_mbind, M_bind.
  cbn -[fetch_loop]. cbn [fetch_loop].
  erewrite M_bind_Ok
    by (by apply (fetch_page_non_object _ _ _ _ _ resp rest)).
  simpl. eexists. split; [reflexivity|done].
Qed.

(** C1 does not hold of the script: a page response with status 200
    whose body is not an object (here the text of an error page) is not
    rejected.  On the first page each of the three fetches returns normally
    with no items; on a later page the body is skipped and the request for
    the same cursor is issued again. *)
Theorem non_object_body_not_rejected :
  let bad := ok_reply (VStr "Bad Gateway") in
  (getUsers "app" "tok" (fresh_world [bad] None)).1 = Ok [] ∧
  (getThreads "app" "tok" (fresh_world [bad] None)).1 = Ok [] ∧
  (getMessages "app" "tok" (fresh_world [bad] None)).1 = Ok [] ∧
  let script :=
    [ ok_reply (page_body users_resource [VStr "u1"] (VStr "c1")
                          (VNum (Number 2)));
      bad;
      ok_reply (page_body users_resource [VStr "u2"] VNull (VNum (Number 2))) ] in
  let result := getUsers "app" "tok" (fresh_world script None) in
  result.1 = Ok [VStr "u1"; VStr "u2"] ∧
  requests result.2 =
    [ page_request users_resource "tok" VNull;
      page_request users_resource "tok" (VStr "c1");
      page_request users_resource "tok" (VStr "c1") ].
Proof. cbv zeta. repeat split; reflexivity. Qed.



(** ** The aggregation *)

Lemma for_of_sum {A S} (body : S → A → res S) (step : S → A → S) (l : list A) :
  (∀ acc x, body acc x = Ok (step acc x)) →
  ∀ acc, for_of l acc body = Ok (foldl step acc l).
Proof.
  intros Hbody. induction l as [|x l IH]; intros acc; [done|].
  simpl. rewrite Hbody. simpl. apply IH.
Qed.

Lemma foldl_sum2 {A} (f g : A → Z) (l : list A) (a d : Z) :
  foldl (λ '(a, d) x, (a + f x, d + g x)) (a, d) l
  = (a + sum_of f l, d + sum_of g l).
Proof.
  revert a d. induction l as [|x l IH]; intros a d; simpl.
  - unfold sum_of. simpl. f_equal; lia.
  - rewrite IH. unfold sum_of. simpl. f_equal; lia.
Qed.

Lemma foldl_sum3 {A} (f g h : A → Z) (l : list A) (a d s : Z) :
  foldl (λ '(a, d, s) x, (a + f x, d + g x, s + h x)) (a, d, s) l
  = (a + sum_of f l, d + sum_of g l, s + sum_of h l).
Proof.
  revert a d s. induction l as [|x l IH]; intros a d s; simpl.
  - unfold sum_of. simpl. f_equal; [f_equal|]; lia.
  - rewrite IH. unfold sum_of. simpl. f_equal; [f_equal|]; lia.
Qed.

Lemma js_get_field (record : val) (k : string) :
  is_object record = true → String.eqb k "length" = false →
  js_get record k = Ok (field record k).
Proof.
  rewrite is_object_spec. destruct record; try done; simpl.
  by intros _ ->.
Qed.

Lemma field_not_object (record : val) (k : string) :
  is_object record = false → field record k = VUndefined.
Proof. rewrite is_object_spec. by destruct record. Qed.

Lemma count_users_eq (users : list val) :
  count_users users =
  Ok (sum_of (has_status "active") users, sum_of (has_status "deleted") users).
Proof.
  unfold count_users.
  rewrite (for_of_sum _ (λ '(a, d) u,
             (a + has_status "active" u, d + has_status "deleted" u))).
  - by rewrite foldl_sum2.
  - intros [a d] u. unfold has_status.
    destruct (is_object u) eqn:Hobj.
    + rewrite !js_get_field by done. cbn.
      destruct (field u "status") as [| | | |s| |]; cbn;
        try (f_equal; f_equal; lia).
      destruct (String.eqb s "active") eqn:Ha; cbn.
      * apply String.eqb_eq in Ha as ->. cbn. f_equal; f_equal; lia.
      * destruct (String.eqb s "deleted"); cbn; f_equal; f_equal; lia.
    + rewrite field_not_object by done. cbn. f_equal; f_equal; lia.
Qed.

Lemma count_groups_eq (groups : list val) :
  count_groups groups =
  Ok (sum_of (has_status "active") groups, sum_of (has_status "deleted") groups,
      sum_of (flag "connectToSlack") groups).
Proof.
  unfold count_groups.
  rewrite (for_of_sum _ (λ '(a, d, s) g,
             (a + has_status "active" g, d + has_status "deleted" g,
              s + flag "connectToSlack" g))).
  - by rewrite foldl_sum3.
  - intros [[a d] s] g. unfold has_status, flag.
    destruct (is_object g) eqn:Hobj.
    + rewrite !js_get_field by done. cbn.
      destruct (truthy (field g "connectToSlack"));
      destruct (field g "status") as [| | | |st| |]; cbn;
        try (f_equal; repeat f_equal; lia).
      all: destruct (String.eqb st "active") eqn:Ha; cbn;
        [apply String.eqb_eq in Ha as ->; cbn; f_equal; repeat f_equal; lia|].
      all: destruct (String.eqb st "deleted"); cbn; f_equal; repeat f_equal; lia.
    + rewrite !field_not_object by done. cbn. f_equal; repeat f_equal; lia.
Qed.

Lemma add_if_number_eq (counter : number) (t : val) (k : string) :
  is_object t = true → String.eqb k "length" = false →
  add_if_number counter t k = Ok (add_value counter (field t k)).
Proof.
  intros Hobj Hk. unfold add_if_number.
  rewrite !js_get_field by done. cbn.
  by destruct (field t k).
Qed.

(** Adding the field of one more record, when it is a number, is adding
    the next of the numbers the records hold. *)
Lemma number_sum_step (k : string) (t : val) (records : list val) (c : number) :
  foldl number_add (add_value c (field t k)) (numbers_in k records)
  = foldl number_add c (numbers_in k (t :: records)).
Proof.
  unfold numbers_in. cbn [omap list_omap]. unfold numeric at 2.
  by destruct (field t k).
Qed.

Lemma add_participants_eq (t : val) (set : list val) :
  is_object t = true →
  add_participants t set =
  Ok (add_all (omap userID_of (elements (field t "participants"))) set).
Proof.
  intros Hobj. unfold add_participants.
  rewrite !js_get_field by done. cbn.
  destruct (field t "participants") as [| |[]|n|s|ps|]; cbn; try done.
  - by destruct (is_zero n || is_NaN n).
  - by destruct (String.eqb s "").
  - unfold add_all.
    rewrite (for_of_sum _ (λ set p, match userID_of p with
                                    | Some v => Set_add v set
                                    | None => set
                                    end)).
    + f_equal. revert set. induction ps as [|p ps IH]; intros set; [done|].
      simpl. destruct (userID_of p); simpl; apply IH.
    + intros acc p. rewrite is_object_spec.
      destruct p as [| | | | | |f]; cbn; try done.
      by destruct (lookup_prop "userID" f).
Qed.

Lemma add_all_app (ids1 ids2 set : list val) :
  add_all (ids1 ++ ids2) set = add_all ids2 (add_all ids1 set).
Proof. unfold add_all. by rewrite foldl_app. Qed.

Lemma count_threads_eq (threads : list val) :
  count_threads threads =
  Ok {| totalResolvedThreadCount := sum_of (flag "resolved") threads;
        totalMessageCount := number_sum (numbers_in "total" threads);
        totalDeletedMessageCount :=
          number_sum (numbers_in "deletedMessages" threads);
        totalActionMessagesCount :=
          number_sum (numbers_in "actionMessages" threads);
        totalUserMessagesCount := number_sum (numbers_in "userMessages" threads);
        threadParticipants := add_all (participant_ids threads) [] |}.
Proof.
  unfold count_threads. rewrite (for_of_sum _ thread_step).
  - f_equal.
    assert (H : ∀ acc,
      foldl thread_step acc threads =
      {| totalResolvedThreadCount :=
           totalResolvedThreadCount acc + sum_of (flag "resolved") threads;
         totalMessageCount :=
           foldl number_add (totalMessageCount acc) (numbers_in "total" threads);
         totalDeletedMessageCount :=
           foldl number_add (totalDeletedMessageCount acc)
                 (numbers_in "deletedMessages" threads);
         totalActionMessagesCount :=
           foldl number_add (totalActionMessagesCount acc)
                 (numbers_in "actionMessages" threads);
         totalUserMessagesCount :=
           foldl number_add (totalUserMessagesCount acc)
                 (numbers_in "userMessages" threads);
         threadParticipants :=
           add_all (participant_ids threads) (threadParticipants acc) |}).
    { induction threads as [|t threads IH]; intros acc.
      - destruct acc. unfold sum_of. simpl. f_equal; lia.
      - cbn [foldl]. rewrite IH. unfold participant_ids. cbn [flat_map].
        rewrite add_all_app. unfold thread_step at 1 2 3 4 5 6.
        cbn [totalResolvedThreadCount totalMessageCount totalDeletedMessageCount
             totalActionMessagesCount totalUserMessagesCount threadParticipants].
        rewrite !number_sum_step.
        unfold sum_of. cbn [foldr]. f_equal. lia. }
    by rewrite H.
  - intros acc t. destruct (is_object t) eqn:Hobj.
    + rewrite js_get_field, !add_if_number_eq, add_participants_eq by done.
      cbn. unfold thread_step, flag.
      destruct (truthy (field t "resolved")); f_equal; f_equal; lia.
    + unfold thread_step, flag. rewrite !field_not_object by done.
      destruct acc. simpl. unfold add_all. simpl. f_equal. f_equal; lia.
Qed.

Lemma array_field_eq (m : val) (k : string) :
  is_object m = true → String.eqb k "length" = false →
  array_field m k = Ok (match field m k with VArr l => Some l | _ => None end).
Proof.
  intros Hobj Hk. unfold array_field. rewrite !js_get_field by done. cbn.
  destruct (field m k) as [| |[]|n|s| |]; cbn; try done.
  - by destruct (is_zero n || is_NaN n).
  - by destruct (String.eqb s "").
Qed.

Lemma count_messages_eq (messages : list val) :
  count_messages messages =
  Ok (sum_of mentions_in messages, sum_of (array_length "reactions") messages,
      sum_of (array_length "attachments") messages).
Proof.
  unfold count_messages.
  rewrite (for_of_sum _ (λ '(a, d, s) m,
             (a + mentions_in m, d + array_length "reactions" m,
              s + array_length "attachments" m))).
  - by rewrite foldl_sum3.
  - intros [[a d] s] m. unfold mentions_in, array_length.
    destruct (is_object m) eqn:Hobj.
    + rewrite !array_field_eq by done.
      assert (Hlen : ∀ v, match v with VArr l => Z.of_nat (length l) | _ => 0 end
                = match (match v with VArr l => Some l | _ => None end) with
                  | Some l => Z.of_nat (length l) | None => 0 end)
        by (by intros []).
      assert (Hcount : ∀ v, match v with VArr l => count_mention_nodes l | _ => 0 end
                = match (match v with VArr l => Some l | _ => None end) with
                  | Some l => count_mention_nodes l | None => 0 end)
        by (by intros []).
      rewrite !Hlen, Hcount.
      destruct (match field m "reactions" with VArr l => Some l | _ => None end),
        (match field m "attachments" with VArr l => Some l | _ => None end),
        (match field m "content" with VArr l => Some l | _ => None end);
        cbn -[count_mention_nodes countMentionsInMessageContent];
        rewrite ?countMentions_correct;
        cbn -[count_mention_nodes]; f_equal; repeat f_equal; lia.
    + rewrite !field_not_object by done. f_equal; repeat f_equal; lia.
Qed.

(** *** The participants set *)

(** Two finite doubles are equal numbers exactly when they are the same
    double. *)
Lemma finite_eqb (s1 s2 : bool) (m1 m2 : positive) (e1 e2 : Z) :
  number_eqb (S754_finite s1 m1 e1) (S754_finite s2 m2 e2) = true ↔
  s1 = s2 ∧ m1 = m2 ∧ e1 = e2.
Proof.
  unfold number_eqb, SFeqb, SFcompare.
  change (Pos.compare_cont Eq m1 m2) with (Pos.compare m1 m2).
  destruct s1, s2; try (split; [done|by intros [? _]]).
  all: destruct (Z.compare_spec e1 e2) as [->|He|He];
    try (split; [done|intros (_ & _ & ->); lia]).
  all: destruct (Pos.compare_spec m1 m2) as [->|Hm|Hm]; simpl;
    try (split; [done|intros (_ & -> & _); lia]).
  all: done.
Qed.

(** The equality of a [Set] on numbers: the same double, the sign of zero
    apart. *)
Lemma same_number (x y : number) :
  number_eqb x y || (is_NaN x && is_NaN y) = true ↔
  unsigned_zero x = unsigned_zero y.
Proof.
  destruct x as [s1|s1| |s1 m1 e1], y as [s2|s2| |s2 m2 e2];
    try (by split); try (by destruct s1); try (by destruct s2).
  - destruct s1, s2; by split.
  - rewrite orb_false_r, finite_eqb. simpl. split.
    + by intros (-> & -> & ->).
    + by intros [= -> -> ->].
Qed.

Lemma same_value_zero_prim (a b : val) :
  same_value_zero a b = true ↔ ∃ p, prim_of a = Some p ∧ prim_of b = Some p.
Proof.
  destruct a as [| |x|x|x| |], b as [| |y|y|y| |]; simpl; split;
    try done; try (by intros (p & ? & ?); simplify_eq);
    try (intros _; by eexists).
  - intros H. apply eqb_prop in H as ->. by eexists.
  - intros (p & ? & ?); simplify_eq. by destruct y.
  - intros H. apply same_number in H as ->. by eexists.
  - intros (p & ? & ?); simplify_eq. by apply same_number.
  - intros H. apply String.eqb_eq in H as ->. by eexists.
  - intros (p & ? & ?); simplify_eq. apply String.eqb_refl.
Qed.

Lemma existsb_same_value_zero (v : val) (set : list val) :
  existsb (same_value_zero v) set = true ↔
  ∃ p, prim_of v = Some p ∧ p ∈ omap prim_of set.
Proof.
  rewrite existsb_exists. split.
  - intros (x & Hx & Hsvz). apply same_value_zero_prim in Hsvz as (p & Hv & Hp).
    exists p. split; [done|]. apply list_elem_of_omap. exists x.
    by rewrite list_elem_of_In.
  - intros (p & Hv & Hp). apply list_elem_of_omap in Hp as (x & Hx & Hp).
    exists x. rewrite <- list_elem_of_In. split; [done|].
    apply same_value_zero_prim. eauto.
Qed.

Lemma length_prims_refs (set : list val) :
  length set =
  (length (omap prim_of set) + length (filter (λ v, is_reference v = true) set))%nat.
Proof.
  induction set as [|v set IH]; [done|].
  change (v :: set) with ([v] ++ set).
  rewrite omap_app, filter_app, !length_app, IH.
  assert (length [v] = (length (omap prim_of [v])
            + length (filter (λ v, is_reference v = true) [v]))%nat)
    by (by destruct v).
  lia.
Qed.

Lemma Set_add_spec (v : val) (set : list val) :
  NoDup (omap prim_of set) →
  NoDup (omap prim_of (Set_add v set)) ∧
  (list_to_set (omap prim_of (Set_add v set)) : gset prim) =
    list_to_set (omap prim_of set) ∪ list_to_set (omap prim_of [v]) ∧
  length (filter (λ v, is_reference v = true) (Set_add v set)) =
    (length (filter (λ v, is_reference v = true) set)
     + length (filter (λ v, is_reference v = true) [v]))%nat.
Proof.
  clear encodeURIComponent jwt_sign env argv_outputFile.
  intros Hnd. unfold Set_add.
  destruct (existsb (same_value_zero v) set) eqn:Hex.
  - apply existsb_same_value_zero in Hex as (p & Hv & Hp).
    split; [done|]. split.
    + simpl. rewrite Hv. simpl.
      apply (elem_of_list_to_set (C := gset prim)) in Hp. set_solver.
    + by destruct v.
  - assert (Hfresh : ∀ p, prim_of v = Some p → p ∉ omap prim_of set).
    { intros p Hv Hp. assert (existsb (same_value_zero v) set = true)
        by (apply existsb_same_value_zero; eauto). congruence. }
    rewrite omap_app, filter_app, length_app, list_to_set_app_L.
    split; [|done].
    simpl. destruct (prim_of v) as [p|] eqn:Hv; simpl.
    + apply NoDup_app. split; [done|]. split; [|apply NoDup_singleton].
      intros x Hx Hx'. apply list_elem_of_singleton in Hx' as ->.
      by apply (Hfresh p).
    + by rewrite app_nil_r.
Qed.

Lemma add_all_spec (ids set : list val) :
  NoDup (omap prim_of set) →
  NoDup (omap prim_of (add_all ids set)) ∧
  (list_to_set (omap prim_of (add_all ids set)) : gset prim) =
    list_to_set (omap prim_of set) ∪ list_to_set (omap prim_of ids) ∧
  length (filter (λ v, is_reference v = true) (add_all ids set)) =
    (length (filter (λ v, is_reference v = true) set)
     + length (filter (λ v, is_reference v = true) ids))%nat.
Proof.
  clear encodeURIComponent jwt_sign env argv_outputFile.
  revert set. induction ids as [|v ids IH]; intros set Hnd.
  - simpl. split; [done|]. split; [set_solver|lia].
  - change (add_all (v :: ids) set) with (add_all ids (Set_add v set)).
    destruct (Set_add_spec v set Hnd) as (Hnd1 & Hset1 & Hlen1).
    destruct (IH (Set_add v set) Hnd1) as (Hnd2 & Hset2 & Hlen2).
    split; [done|]. split.
    + rewrite Hset2, Hset1.
      change (v :: ids) with ([v] ++ ids).
      rewrite omap_app, list_to_set_app_L. set_solver.
    + rewrite Hlen2, Hlen1. change (v :: ids) with ([v] ++ ids).
      rewrite filter_app, length_app. lia.
Qed.

(** The size of the set the thread loop builds is the number of distinct
    identifiers met. *)
Lemma Set_size_add_all (ids : list val) :
  Set_size (add_all ids []) = distinct_count ids.
Proof.
  clear encodeURIComponent jwt_sign env argv_outputFile.
  unfold Set_size, distinct_count. f_equal.
  destruct (add_all_spec ids [] (NoDup_nil_2 : NoDup (omap prim_of [])))
    as (Hnd & Hset & Hlen).
  rewrite length_prims_refs, Hlen. simpl.
  rewrite <- (size_list_to_set (C := gset prim)) by done.
  rewrite Hset. simpl. f_equal. f_equal. set_solver.
Qed.

(** The aggregation never fails, and each metric is the sum of what the
    records contribute to it. *)
Lemma aggregate_eq (users groups threads messages : list val) :
  aggregate users groups threads messages =
  Ok (metrics_row users groups threads messages).
Proof.
  unfold aggregate.
  rewrite count_users_eq, count_groups_eq, count_threads_eq, count_messages_eq.
  cbn -[sum_of distinct_count number_sum]. by rewrite Set_size_add_all.
Qed.

Lemma distinct_count_absorb (ids more : list val) :
  Forall (λ v, is_reference v = false ∧ v ∈ ids) more →
  distinct_count (ids ++ more) = distinct_count ids.
Proof.
  clear encodeURIComponent jwt_sign env argv_outputFile.
  intros Hmore. unfold distinct_count. f_equal.
  rewrite omap_app, filter_app, length_app, list_to_set_app_L.
  assert (Hrefs : filter (λ v, is_reference v = true) more = []).
  { induction Hmore as [|v more [Hv _] _ IH]; [done|].
    rewrite filter_cons_False by congruence. done. }
  assert (Hsub : (list_to_set (omap prim_of more) : gset prim)
                 ⊆ list_to_set (omap prim_of ids)).
  { intros p. rewrite !elem_of_list_to_set, !list_elem_of_omap.
    intros (v & Hv & Hp). rewrite Forall_forall in Hmore.
    destruct (Hmore v Hv) as [_ Hin]. eauto. }
  rewrite Hrefs. simpl.
  replace (list_to_set (omap prim_of ids) ∪ list_to_set (omap prim_of more))
    with (list_to_set (omap prim_of ids) : gset prim) by set_solver.
  lia.
Qed.

(** C6.  The "Total Thread Participants Count" of a row is the number of
    distinct [userID] values found in the participants entries of all
    threads: primitive values are counted once however often and in
    however many threads they occur (an object in place of an identifier is
    a value of its own).  A thread whose participants all occurred before
    changes nothing, and two threads that both contain participant "u1"
    count 1. *)
Theorem participants_counted_once (users groups threads messages : list val) :
  metric "Total Thread Participants Count"
         (aggregate users groups threads messages)
    = Some (VNum (Number (distinct_count (participant_ids threads)))) ∧
  (∀ t, Forall (λ v, is_reference v = false ∧ v ∈ participant_ids threads)
               (participant_ids [t]) →
        metric "Total Thread Participants Count"
               (aggregate users groups (threads ++ [t]) messages)
        = metric "Total Thread Participants Count"
               (aggregate users groups threads messages)) ∧
  metric "Total Thread Participants Count"
         (aggregate users groups [thread_with ["u1"]; thread_with ["u1"]] messages)
    = Some (VNum (Number 1)).
Proof.
  rewrite !aggregate_eq. split; [done|]. split; [|done].
  intros t Ht. rewrite aggregate_eq. cbn -[distinct_count participant_ids].
  unfold participant_ids at 1. rewrite flat_map_app.
  fold (participant_ids threads). fold (participant_ids [t]).
  by rewrite distinct_count_absorb.
Qed.

(** A record whose field is missing or not a number is left out of the
    numbers summed, wherever it stands among the records. *)
Lemma numbers_in_skip (k : string) (before after : list val) (record : val) :
  is_number (field record k) = false →
  numbers_in k (before ++ record :: after) = numbers_in k (before ++ after).
Proof.
  intros H. unfold numbers_in. rewrite !omap_app. cbn [omap list_omap].
  unfold numeric at 2. by destruct (field record k).
Qed.

(** C7 (as amended).  The aggregation never fails, whatever the records
    hold.  Fourteen metrics are counts, each the sum of what the records
    contribute, and four are the sums, in double arithmetic and in the order
    of the list, of the numbers the threads hold.  A numeric field that is
    missing or not a number is left out of its sum, so the metric is what it
    would be without the record; an array field that is missing or not an
    array contributes zero, and so does a status that is not a string; the
    two flags ([resolved], [connectToSlack]) are tested for truthiness and
    not for their type, so a flag contributes one exactly when its value is
    truthy, and zero when it is missing.  A thread whose [total] is the
    string "not-a-number" leaves "Total Message Count" at 0. *)
Theorem tolerant_reduction (users groups threads messages : list val) :
  aggregate users groups threads messages
    = Ok (metrics_row users groups threads messages) ∧
  (∀ k record, is_number (field record k) = false → numeric k record = None) ∧
  Forall (λ '(name, k),
      ∀ before after record,
        is_number (field record k) = false →
        metric name (aggregate users groups (before ++ record :: after) messages)
        = metric name (aggregate users groups (before ++ after) messages))
    [ ("Total Message Count", "total");
      ("Total Deleted Message Count", "deletedMessages");
      ("Total User Messages Count", "userMessages");
      ("Total Action Messages Count", "actionMessages") ] ∧
  (∀ k record, Array_isArray (field record k) = false →
               array_length k record = 0) ∧
  (∀ m, Array_isArray (field m "content") = false → mentions_in m = 0) ∧
  (∀ t, Array_isArray (field t "participants") = false →
        participant_ids [t] = []) ∧
  (∀ s record, typeof (field record "status") ≠ "string" →
               has_status s record = 0) ∧
  (∀ k record, flag k record = if truthy (field record k) then 1 else 0) ∧
  (∀ k record, field record k = VUndefined → flag k record = 0) ∧
  metric "Total Message Count"
         (aggregate users groups [VObj [("total", VStr "not-a-number")]] messages)
    = Some (VNum (Number 0)).
Proof.
  split; [apply aggregate_eq|].
  split; [intros k record; unfold numeric; by destruct (field record k)|].
  split.
  { repeat constructor; intros before after record Hk; rewrite !aggregate_eq;
      cbn -[sum_of distinct_count number_sum numbers_in];
      by rewrite numbers_in_skip. }
  split; [intros k record; unfold array_length; by destruct (field record k)|].
  split; [intros m; unfold mentions_in; by destruct (field m "content")|].
  split.
  { intros t. unfold participant_ids. simpl.
    by destruct (field t "participants"). }
  split; [intros s record; unfold has_status; by destruct (field record "status")|].
  split; [done|].
  split; [intros k record; unfold flag; by intros ->|].
  by rewrite aggregate_eq.
Qed.

(** ** The run *)

Lemma M_settled_bind {A B} (m : M A) (f : A → M B) :
  M_settled m → (∀ a, M_settled (f a)) → M_settled (m ≫= f).
Proof.
  intros Hm Hf w. specialize (Hm w). unfold mbind, M_mbind, M_bind.
  destruct (m w) as [[a| | |] w1]; simpl in *; try done. apply Hf.
Qed.

Lemma M_settled_lift {A} (r : res A) : settled r → M_settled (lift r).
Proof. by intros H w. Qed.

Lemma getGroups_settled (debugName token : string) : M_settled (getGroups debugName token).
Proof.
  intros w. unfold getGroups, mbind, M_mbind, M_bind, log. cbn -[autoRetry].
  pose proof (retry_get_net "https://api.cord.com/v1/groups"
                (makeAxiosAuthHeaders token)
                (push_console (Log (state_idx w) (state_total w)
                   ("    Fetching groups for " +:+ debugName)) w))
    as (Hf & He & _). cbv zeta in *.
  destruct (autoRetry _ _) as [[resp| |c|] w1]; simpl in *; try done.
  - destruct (status resp =? 200); [|by run].
    by destruct (truthy (data resp) && Array_isArray (data resp)).
  - by destruct (He c).
Qed.

Lemma settled_is_application (app : val) : settled (is_application app).
Proof.
  unfold is_application.
  repeat (first [apply settled_andM | apply settled_bind | apply settled_fmap
                | apply settled_get | apply settled_in | intros ? | done ]).
Qed.

Lemma generateApplicationAnalytics_settled (debugName : string) (app : val) :
  M_settled (generateApplicationAnalytics debugName app).
Proof.
  unfold generateApplicationAnalytics.
  apply M_settled_bind; [apply M_settled_lift, settled_is_application|].
  intros []; [|by intros w].
  apply M_settled_bind; [apply M_settled_lift, settled_get|]. intros id.
  apply M_settled_bind; [apply M_settled_lift, settled_get|]. intros secret.
  apply M_settled_bind; [intros w; apply getPaginated_settled|]. intros users.
  apply M_settled_bind; [apply getGroups_settled|]. intros groups.
  apply M_settled_bind; [intros w; apply getPaginated_settled|]. intros threads.
  apply M_settled_bind; [intros w; apply getPaginated_settled|]. intros messages.
  rewrite aggregate_eq. by intros w.
Qed.

(** What [generateApplicationAnalytics] returns is a one-element array
    holding a row of the eighteen metrics. *)
Lemma generateApplicationAnalytics_Ok (debugName : string) (app : val)
    (w w' : World) (metrics : list val) :
  generateApplicationAnalytics debugName app w = (Ok metrics, w') →
  ∃ users groups threads messages,
    metrics = [metrics_row users groups threads messages].
Proof.
  unfold generateApplicationAnalytics, mbind, M_mbind, M_bind, lift.
  destruct (is_application app) as [[]| | |]; try done.
  destruct (js_get app "id") as [id| | |]; try done.
  destruct (js_get app "secret") as [secret| | |]; try done.
  destruct (getUsers _ _ w) as [[users| | |] w1]; try done.
  destruct (getGroups _ _ w1) as [[groups| | |] w2]; try done.
  destruct (getThreads _ _ w2) as [[threads| | |] w3]; try done.
  destruct (getMessages _ _ w3) as [[messages| | |] w4]; try done.
  rewrite aggregate_eq. intros [= <- <-]. eauto.
Qed.

(** An application record lacking a string [id], [secret] or [name] makes
    [generateApplicationAnalytics] throw, before any request. *)
Lemma generateApplicationAnalytics_invalid (debugName : string) (app : val)
    (w : World) :
  is_application app = Ok false →
  generateApplicationAnalytics debugName app w =
  (Throw (Error "Application is missing required fields: name, id, and secret"), w).
Proof.
  intros H. unfold generateApplicationAnalytics, mbind, M_mbind, M_bind, lift.
  by rewrite H.
Qed.

Lemma is_application_eq (app : val) :
  is_application app =
  Ok (is_object app && is_string (field app "id")
      && is_string (field app "secret") && is_string (field app "name")).
Proof.
  unfold is_application. rewrite is_object_spec.
  destruct app as [| |b|n|s|l|ps]; try done.
  unfold field, is_string. cbn.
  destruct (lookup_prop "id" ps) as [id|]; cbn; [|done].
  destruct (String.eqb (typeof id) "string"); cbn; [|done].
  destruct (lookup_prop "secret" ps) as [secret|]; cbn; [|done].
  destruct (String.eqb (typeof secret) "string"); cbn; [|done].
  by destruct (lookup_prop "name" ps) as [name|].
Qed.

Lemma is_string_spec (v : val) : is_string v = true → ∃ s, v = VStr s.
Proof. destruct v; try done. eauto. Qed.

(** An application record that passes the check has a string for
    identifier and for name. *)
Lemma is_application_strings (app : val) :
  is_application app = Ok true →
  ∃ id name, field app "id" = VStr id ∧ field app "name" = VStr name.
Proof.
  rewrite is_application_eq. intros [= Hb].
  apply andb_prop in Hb as [Hb Hname]. apply andb_prop in Hb as [Hb _].
  apply andb_prop in Hb as [_ Hid].
  apply is_string_spec in Hid as [id Hid].
  apply is_string_spec in Hname as [name Hname]. eauto.
Qed.

Lemma generateApplicationAnalytics_valid (debugName : string) (app : val)
    (w w' : World) (metrics : list val) :
  generateApplicationAnalytics debugName app w = (Ok metrics, w') →
  is_application app = Ok true.
Proof.
  unfold generateApplicationAnalytics, mbind, M_mbind, M_bind, lift.
  rewrite is_application_eq. by destruct (_ && _).
Qed.

Lemma main_loop_cons_malformed (a : val) (rest : list val)
    (acc : list (list val)) (w : World) :
  is_object a = false →
  main_loop (a :: rest) acc w =
  (Exit 1,
   push_console (ConsoleError
     "⛔️ Malformed application object when requesting the application list") w).
Proof. intros H. cbn [main_loop]. by rewrite H. Qed.

Lemma main_loop_cons_excluded (a : val) (rest : list val)
    (acc : list (list val)) (w : World) :
  is_object a = true → excluded (field a "id") = true →
  main_loop (a :: rest) acc w =
  main_loop rest acc (set_state (state_idx w + 1) (state_total w) w).
Proof.
  intros Hobj Hex. cbn [main_loop]. rewrite Hobj.
  unfold mbind, M_mbind, M_bind, set_progress, lift. cbn -[main_loop].
  rewrite js_get_field by done. by rewrite Hex.
Qed.

(** An application whose name or identifier has no string conversion ends
    the loop with the exception of line 468, which no [try] surrounds: the
    counter was stepped, nothing was logged or requested. *)
Lemma main_loop_cons_unprintable (a : val) (rest : list val)
    (acc : list (list val)) (w : World) :
  is_object a = true → excluded (field a "id") = false →
  printable (field a "name") && printable (field a "id") = false →
  main_loop (a :: rest) acc w =
  (Throw no_conversion, set_state (state_idx w + 1) (state_total w) w).
Proof.
  intros Hobj Hex Hp. cbn [main_loop]. rewrite Hobj.
  unfold mbind, M_mbind, M_bind, set_progress, lift, log, try_catch.
  cbn -[main_loop generateApplicationAnalytics toString].
  rewrite !js_get_field by done. rewrite Hex.
  cbn -[main_loop generateApplicationAnalytics toString].
  rewrite ?js_get_field by done.
  rewrite (toString_spec (field a "name")).
  destruct (printable (field a "name")); [|done].
  rewrite (toString_spec (field a "id")).
  by destruct (printable (field a "id")).
Qed.

Lemma main_loop_cons_run (a : val) (rest : list val)
    (acc : list (list val)) (w : World) :
  is_object a = true → excluded (field a "id") = false →
  printable (field a "name") && printable (field a "id") = true →
  main_loop (a :: rest) acc w =
  match generateApplicationAnalytics (debugName_of a) a (announced a w) with
  | (Ok metrics, w2) =>
      main_loop rest (acc ++ [[field a "id"; field a "name"] ++ metrics]) w2
  | (Throw e, w2) =>
      (Exit 1,
       push_console (ConsoleError
         ("⛔️ Failed to generate analytics for appication with ID "
          +:+ text_of (field a "id") +:+ ". See the error above."))
         (push_console (ConsoleErrorExn e) w2))
  | (Exit c, w2) => (Exit c, w2)
  | (OutOfFuel, w2) => (OutOfFuel, w2)
  end.
Proof.
  intros Hobj Hex Hp. apply andb_prop in Hp as [Hname Hid].
  cbn [main_loop]. rewrite Hobj.
  unfold mbind, M_mbind, M_bind, set_progress, lift, log, try_catch.
  cbn -[main_loop generateApplicationAnalytics toString].
  rewrite !js_get_field by done. rewrite Hex.
  cbn -[main_loop generateApplicationAnalytics toString].
  rewrite ?js_get_field by done.
  rewrite !(toString_printable _ Hname), !(toString_printable _ Hid).
  cbn -[main_loop generateApplicationAnalytics toString].
  fold (debugName_of a).
  change (push_console _ (set_state _ _ w)) with (announced a w).
  by destruct (generateApplicationAnalytics _ a (announced a w))
    as [[metrics|e|c|] w2].
Qed.

(** The cases of one turn of the loop. *)
Ltac main_loop_cases a Hobj Hex Hp :=
  destruct (is_object a) eqn:Hobj;
    [destruct (excluded (field a "id")) eqn:Hex;
      [rewrite ?main_loop_cons_excluded by done
      |destruct (printable (field a "name") && printable (field a "id")) eqn:Hp;
        [rewrite ?main_loop_cons_run by done
        |rewrite ?main_loop_cons_unprintable by done]]
    |rewrite ?main_loop_cons_malformed by done].

(** Whatever happens while the applications are processed, the loop ends
    with the rows, with [process.exit(1)], or with the exception of a name
    that cannot be printed: no other exception escapes it. *)
Lemma main_loop_outcome (applications : list val) :
  ∀ (acc : list (list val)) (w : World),
    rows_exit_or_conversion (main_loop applications acc w).1.
Proof.
  induction applications as [|a rest IH]; intros acc w; [done|].
  main_loop_cases a Hobj Hex Hp.
  - apply IH.
  - pose proof (generateApplicationAnalytics_settled (debugName_of a) a
                  (announced a w)) as Hs.
    destruct (generateApplicationAnalytics _ a _) as [[metrics|e|c|] w2];
      simpl in *; done.
  - done.
  - done.
Qed.

(** The row of the eighteen metrics holds a number under every name. *)
Lemma metrics_row_entry (id name : string) (users groups threads messages : list val) :
  is_entry [VStr id; VStr name; metrics_row users groups threads messages].
Proof. eexists _, _, _. split; [reflexivity|]. split; [done|]. repeat constructor. Qed.

(** When the loop ends with the rows, every application was an object, and
    there is one entry, in order, for each application not excluded. *)
Lemma main_loop_entries (applications : list val) :
  ∀ (acc data : list (list val)) (w w' : World),
    main_loop applications acc w = (Ok data, w') →
    Forall is_entry acc →
    Forall is_entry data ∧
    map (take 2) data =
      map (take 2) acc
      ++ map (λ a, [field a "id"; field a "name"]) (processed applications).
Proof.
  induction applications as [|a rest IH]; intros acc data w w' Hrun Hacc.
  - injection Hrun as <- <-. by rewrite app_nil_r.
  - unfold processed. rewrite filter_cons. revert Hrun.
    main_loop_cases a Hobj Hex Hp; try done; intros Hrun.
    + rewrite decide_False by done. by apply (IH _ _ _ _ Hrun).
    + rewrite decide_True by done.
      destruct (generateApplicationAnalytics _ a _) as [[metrics|e|c|] w2] eqn:Hgen;
        try done.
      pose proof (generateApplicationAnalytics_valid _ _ _ _ _ Hgen) as Hvalid.
      apply is_application_strings in Hvalid as (id & name & Hid & Hname).
      apply generateApplicationAnalytics_Ok in Hgen as (u & g & t & m & ->).
      apply IH in Hrun as [Hdata Horder].
      * split; [done|]. rewrite Horder, map_app. simpl.
        by rewrite <- app_assoc.
      * apply Forall_app. split; [done|]. apply Forall_singleton.
        rewrite Hid, Hname. apply metrics_row_entry.
Qed.

(** The loop over a list in two parts. *)
Lemma main_loop_app (pre post : list val) :
  ∀ (acc : list (list val)) (w : World),
    main_loop (pre ++ post) acc w = (main_loop pre acc ≫= main_loop post) w.
Proof.
  induction pre as [|a pre IH]; intros acc w; [done|].
  unfold mbind, M_mbind, M_bind in *.
  change ((a :: pre) ++ post) with (a :: (pre ++ post)).
  main_loop_cases a Hobj Hex Hp.
  - apply IH.
  - destruct (generateApplicationAnalytics _ a _) as [[metrics|e|c|] w2];
      try done; apply IH.
  - done.
  - done.
Qed.

Lemma render_cells (keys : list string) (ps : list (string * val)) :
  ∀ row, for_of keys row (λ row k, v ← js_get (VObj ps) k; mret (row ++ [v]))
         = Ok (row ++ map (λ k, field (VObj ps) k) keys).
Proof.
  induction keys as [|k keys IH]; intros row; simpl.
  - by rewrite app_nil_r.
  - rewrite IH. by rewrite <- app_assoc.
Qed.

(** [join] on cells that can all be printed. *)
Lemma array_join_printable (sep : string) (cells : list val) :
  forallb printable cells = true →
  array_join sep cells = Ok (String.concat sep (map cell_text cells)).
Proof.
  intros Hcells. unfold array_join.
  set (body := λ (texts : list string) (x : val), _).
  assert (H : ∀ acc, for_of cells acc body = Ok (acc ++ map cell_text cells)).
  { induction cells as [|x cells IH]; intros acc; cbn [for_of map].
    - by rewrite app_nil_r.
    - cbn [forallb] in Hcells. apply andb_prop in Hcells as [Hx Hcells].
      change (body acc x) with
        (s ← match x with VUndefined | VNull => Ok "" | _ => toString x end;
         mret (acc ++ [s])).
      assert (match x with VUndefined | VNull => Ok "" | _ => toString x end
              = Ok (cell_text x)) as ->.
      { destruct x; try done; unfold cell_text;
          by rewrite toString_printable. }
      cbn. rewrite (IH Hcells). by rewrite <- app_assoc. }
  by rewrite H.
Qed.

Lemma array_join_strings (sep : string) (l : list string) :
  array_join sep (map VStr l) = Ok (String.concat sep l).
Proof.
  rewrite array_join_printable.
  - rewrite map_map. do 2 f_equal. by rewrite <- (map_id l) at 2.
  - by induction l.
Qed.

(** What a row of numbers holds under any name can be printed. *)
Lemma number_field_printable (ps : list (string * val)) (k : string) :
  Forall (λ kv, is_number kv.2 = true) ps →
  printable (field (VObj ps) k) = true.
Proof.
  intros Hps. unfold field.
  induction Hps as [|[k' v] ps Hv _ IH]; [done|].
  cbn [lookup_prop]. destruct (String.eqb k' k); [|done].
  by destruct v.
Qed.

Lemma render_rows_eq (keys : list string) (applicationData : list (list val)) :
  Forall is_entry applicationData →
  render_rows keys applicationData = Ok (map (row_of keys) applicationData).
Proof.
  intros Hdata. unfold render_rows.
  assert (H : ∀ output,
    for_of applicationData output (λ output app,
      cells ← for_of keys [index app 0; index app 1] (λ row k,
        v ← js_get (index app 2) k; mret (row ++ [v]));
      line ← array_join "," cells;
      mret (output ++ [line]))
    = Ok (output ++ map (row_of keys) applicationData)).
  { induction Hdata as [|entry data (id & name & ps & -> & _ & Hps) _ IH];
      intros output.
    - simpl. by rewrite app_nil_r.
    - cbn [for_of]. change (index [VStr id; VStr name; VObj ps] 2) with (VObj ps).
      rewrite render_cells. cbn [mbind res_mbind res_bind mret res_mret].
      rewrite array_join_printable.
      + cbn [mbind res_mbind res_bind mret res_mret].
        rewrite IH. cbn [map]. by rewrite <- app_assoc.
      + cbn [app forallb printable andb]. apply forallb_forall.
        intros v Hv. apply in_map_iff in Hv as (k & <- & _).
        by apply number_field_printable. }
  apply H.
Qed.

(** The output of a run that produced at least one entry. *)
Lemma main_output_eq (first : list val) (more : list (list val)) (w : World) :
  Forall is_entry (first :: more) →
  main_output (first :: more) w =
  let outString := csv_of metric_names (first :: more) in
  match fs_error w with
  | None =>
      (Ok tt, push_console (ConsoleLog "✅ CSV file written")
                (push_file argv_outputFile outString w))
  | Some e =>
      (Ok tt, push_console (ConsoleLog "✅ CSV file written")
                (push_console
                   (ConsoleError "⛔️ Failed to write output file. See error above.")
                   (push_console (ConsoleErrorExn e) w)))
  end.
Proof.
  intros Hdata. unfold main_output.
  pose proof (Forall_inv Hdata) as (id & name & ps & -> & Hkeys & _).
  unfold mbind at 1, M_mbind, M_bind, lift. cbn [lookup list_lookup].
  change (index [VStr id; VStr name; VObj ps] 2) with (VObj ps).
  cbn [Object_keys]. rewrite Hkeys.
  unfold mbind at 1, M_mbind, M_bind.
  rewrite array_join_strings.
  unfold mbind at 1, M_mbind, M_bind.
  rewrite render_rows_eq by done.
  unfold mbind, M_mbind, M_bind, try_catch, writeFileSync.
  cbv zeta. fold (csv_of metric_names ([VStr id; VStr name; VObj ps] :: more)).
  by destruct (fs_error w).
Qed.

(** With no entry at all, reading [applicationData[0][2]] throws. *)
Lemma main_output_empty (w : World) :
  main_output [] w =
  (Throw (TypeError "Cannot read properties of undefined (reading '2')"), w).
Proof. reflexivity. Qed.

Lemma startup_Ok (w w' : World) :
  startup w = (Ok tt, w') →
  w' = w ∧ is_object env = true ∧ truthy argv_outputFile = true.
Proof.
  unfold startup, mbind, M_mbind, M_bind, lift, throw.
  rewrite is_object_spec.
  remember env as e eqn:He. clear He.
  destruct e as [| |b|n|s|l|ps]; cbn; try done.
  destruct (truthy (default VUndefined (lookup_prop "CUSTOMER_ID" ps))); [|done].
  cbn. destruct (truthy (default VUndefined (lookup_prop "CUSTOMER_SECRET" ps)));
    [|done].
  cbn. destruct (truthy argv_outputFile); [|done].
  cbn. by intros [= <-].
Qed.

(** A run whose [.env] lacks one of the two secrets ends on an uncaught
    exception, before anything else happens. *)
Lemma startup_missing_secret (w : World) :
  truthy (field env "CUSTOMER_ID") = false ∨
  truthy (field env "CUSTOMER_SECRET") = false →
  ∃ e, startup w = (Throw e, w).
Proof.
  unfold startup, mbind, M_mbind, M_bind, lift, throw, field.
  remember env as e0 eqn:He. clear He.
  destruct e0 as [| |b|n|s|l|ps]; cbn; try by eauto.
  intros [-> | H]; cbn; [by eauto|].
  destruct (truthy (default VUndefined (lookup_prop "CUSTOMER_ID" ps))); cbn;
    [|by eauto].
  rewrite H. cbn. by eauto.
Qed.

Lemma startup_missing_outputFile (w : World) :
  truthy (field env "CUSTOMER_ID") = true →
  truthy (field env "CUSTOMER_SECRET") = true →
  truthy argv_outputFile = false →
  ∃ w', startup w = (Exit 1, w').
Proof.
  unfold startup, mbind, M_mbind, M_bind, lift, throw, field.
  remember env as e0 eqn:He. clear He.
  destruct e0 as [| |b|n|s|l|ps]; cbn; try done.
  intros -> -> ->. cbn. by eauto.
Qed.

Lemma M_settled_axios_get (u : string) (cfg : AxiosConfig) : M_settled (axios_get u cfg).
Proof.
  intros w. rewrite axios_get_eq. simpl.
  destruct (head (net w)) as [[|resp]|]; simpl; try done.
  by destruct (_ && _).
Qed.

Lemma M_settled_autoRetry {A} (func : M A) : M_settled func → M_settled (autoRetry func).
Proof.
  intros H w. rewrite autoRetry_eq. pose proof (H w) as Hw.
  destruct (func w) as [[a|e|c|] w1]; simpl in *; try done; apply H.
Qed.

(** [listApplications] returns the body of the response or ends the
    process with code 1; it lets no exception out. *)
Lemma listApplications_outcome (w : World) : rows_or_exit (listApplications w).1.
Proof.
  unfold listApplications, try_catch.
  set (inner := _ ≫= _).
  assert (Hs : M_settled inner).
  { apply M_settled_bind.
    - apply M_settled_autoRetry, M_settled_bind.
      + apply M_settled_lift. unfold makeCustomerToken.
        apply settled_bind; [apply settled_get|]. intros ?.
        apply settled_bind; [apply settled_get|]. by intros ?.
      + intros token. apply M_settled_axios_get.
    - intros resp w'. by destruct (status resp =? 200). }
  specialize (Hs w). by destruct (inner w) as [[a|e|c|] w1].
Qed.

Lemma listApplications_Ok (w : World) (resp : Response) (rest : list Reply) :
  is_object env = true →
  net w = HttpReply resp :: rest →
  status resp = 200 →
  ∃ w', listApplications w = (Ok (data resp), w') ∧
        net w' = rest ∧ requests w' = requests w ++
          [{| url := "https://api.cord.com/v1/applications";
              config := makeAxiosAuthHeaders
                (jwt_sign [("customer_id", field env "CUSTOMER_ID")]
                          (field env "CUSTOMER_SECRET") "HS512" "1 min") |}] ∧
        fs_error w' = fs_error w ∧ files w' = files w ∧
        console w' = console w.
Proof.
  intros Henv Hnet Hst. unfold listApplications, try_catch, makeCustomerToken.
  rewrite !js_get_field by done. cbn [mbind res_mbind res_bind mret res_mret].
  unfold mbind at 1, M_mbind, M_bind.
  rewrite autoRetry_eq. erewrite lift_bind_Ok by reflexivity.
  rewrite axios_get_eq, Hnet. simpl. rewrite Hst. simpl. rewrite Hst. simpl.
  eexists. split; [reflexivity|]. by simpl.
Qed.

Lemma main_loop_skipped (applications : list val) :
  Forall is_skipped applications →
  ∀ (acc : list (list val)) (w : World),
    ∃ w', main_loop applications acc w = (Ok acc, w') ∧
          files w' = files w ∧ fs_error w' = fs_error w ∧
          requests w' = requests w ∧ net w' = net w.
Proof.
  induction 1 as [|a rest [Hobj Hex] _ IH]; intros acc w.
  - by exists w.
  - rewrite main_loop_cons_excluded by done.
    destruct (IH acc (set_state (state_idx w + 1) (state_total w) w))
      as (w' & Hrun & H).
    by exists w'.
Qed.

(** [main], once the list of applications is in. *)
Lemma main_eq (w w1 : World) (applications : val) :
  listApplications w = (Ok applications, w1) →
  main w =
  if truthy applications && Array_isArray applications then
    match main_loop (elements applications) [] (loop_start applications w1) with
    | (Ok applicationData, w2) => main_output applicationData w2
    | (Throw e, w2) => (Throw e, w2)
    | (Exit c, w2) => (Exit c, w2)
    | (OutOfFuel, w2) => (OutOfFuel, w2)
    end
  else
    (Exit 1,
     push_console (ConsoleError
       "⛔️ Received an unexpected response when requesting the list of applications")
       w1).
Proof.
  intros Hlist. unfold main. unfold mbind at 1, M_mbind, M_bind. rewrite Hlist.
  by destruct (truthy applications && Array_isArray applications).
Qed.

(** *** Only the final write touches the file system *)

Lemma keeps_files_bind {A B} (m : M A) (f : A → M B) :
  keeps_files m → (∀ a, keeps_files (f a)) → keeps_files (m ≫= f).
Proof.
  intros Hm Hf w. specialize (Hm w). unfold mbind, M_mbind, M_bind.
  destruct (m w) as [[a| | |] w1]; simpl in *; try done.
  destruct (Hf a w1) as [H1 H2]. destruct Hm as [H3 H4].
  split; congruence.
Qed.

Lemma keeps_files_pure {A} (r : res A) : keeps_files (λ w, (r, w)).
Proof. by intros w. Qed.

Lemma keeps_files_console {A} (r : res A) (line : World → ConsoleLine) :
  keeps_files (λ w, (r, push_console (line w) w)).
Proof. by intros w. Qed.

Lemma keeps_files_axios_get (u : string) (cfg : AxiosConfig) :
  keeps_files (axios_get u cfg).
Proof. intros w. by rewrite axios_get_eq. Qed.

Lemma keeps_files_try_catch {A} (m : M A) (handler : exn → M A) :
  keeps_files m → (∀ e, keeps_files (handler e)) → keeps_files (try_catch m handler).
Proof.
  intros Hm Hh w. specialize (Hm w). unfold try_catch.
  destruct (m w) as [[a|e| |] w1]; simpl in *; try done.
  destruct (Hh e w1) as [H1 H2]. destruct Hm as [H3 H4].
  split; congruence.
Qed.

(** Composes the lemmas above along the structure of a definition. *)
Ltac keeps_files :=
  repeat first
    [ assumption
    | apply keeps_files_bind; [|intros ?]
    | apply keeps_files_try_catch; [|intros ?]
    | apply keeps_files_axios_get
    | apply keeps_files_pure
    | apply (keeps_files_console (Ok tt))
    | match goal with
      | |- keeps_files (if ?b then _ else _) => destruct b
      | |- keeps_files (match ?x with _ => _ end) => destruct x
      | |- keeps_files (let _ := _ in _) => cbv zeta
      end ].

Lemma keeps_files_autoRetry {A} (func : M A) :
  keeps_files func → keeps_files (autoRetry func).
Proof.
  intros H. unfold autoRetry, console_error_exn, console_error. keeps_files.
Qed.

Lemma keeps_files_fetch_page (r : Resource) (token : string)
    (items : list val) (cursor : val) :
  keeps_files (fetch_page r token items cursor).
Proof.
  unfold fetch_page, lift, throw, log, console_error_resp.
  apply keeps_files_bind;
    [apply keeps_files_autoRetry, keeps_files_axios_get|intros resp].
  keeps_files.
Qed.

Lemma keeps_files_fetch_loop (r : Resource) (token : string) (fuel : nat) :
  ∀ items cursor, keeps_files (fetch_loop r token fuel items cursor).
Proof.
  induction fuel as [|fuel IH]; intros items cursor; [by intros w|].
  cbn [fetch_loop]. apply keeps_files_bind; [apply keeps_files_fetch_page|].
  intros [items' cursor']. destruct (negb _); [apply IH|by intros w].
Qed.

Lemma keeps_files_getPaginated (r : Resource) (debugName token : string) :
  keeps_files (getPaginated r debugName token).
Proof.
  unfold getPaginated, log, replies_left.
  apply keeps_files_bind; [keeps_files|intros _].
  apply keeps_files_bind; [by intros w|intros n].
  apply keeps_files_fetch_loop.
Qed.

Lemma keeps_files_getGroups (debugName token : string) :
  keeps_files (getGroups debugName token).
Proof.
  unfold getGroups, log, throw, console_error_resp.
  apply keeps_files_bind; [keeps_files|intros _].
  apply keeps_files_bind;
    [apply keeps_files_autoRetry, keeps_files_axios_get|intros resp].
  keeps_files.
Qed.

Lemma keeps_files_generateApplicationAnalytics (debugName : string) (app : val) :
  keeps_files (generateApplicationAnalytics debugName app).
Proof.
  unfold generateApplicationAnalytics, lift, throw.
  apply keeps_files_bind; [keeps_files|intros []]; [|keeps_files].
  apply keeps_files_bind; [keeps_files|intros id].
  apply keeps_files_bind; [keeps_files|intros secret].
  apply keeps_files_bind; [apply keeps_files_getPaginated|intros users].
  apply keeps_files_bind; [apply keeps_files_getGroups|intros groups].
  apply keeps_files_bind; [apply keeps_files_getPaginated|intros threads].
  apply keeps_files_bind; [apply keeps_files_getPaginated|intros messages].
  keeps_files.
Qed.

Lemma keeps_files_main_loop (applications : list val) :
  ∀ acc, keeps_files (main_loop applications acc).
Proof.
  induction applications as [|a rest IH]; intros acc; [by intros w|].
  cbn [main_loop].
  unfold set_progress, lift, log, console_error, console_error_exn, process_exit.
  destruct (is_object a); [|keeps_files].
  apply keeps_files_bind; [by intros w|intros _].
  apply keeps_files_bind; [keeps_files|intros id].
  destruct (excluded id); [apply IH|].
  apply keeps_files_bind; [keeps_files|intros name].
  apply keeps_files_bind; [keeps_files|intros nameText].
  apply keeps_files_bind; [keeps_files|intros idText].
  cbv zeta. apply keeps_files_bind; [keeps_files|intros _].
  apply keeps_files_bind; [|intros entry; apply IH].
  apply keeps_files_try_catch; [|intros e; keeps_files].
  apply keeps_files_bind;
    [apply keeps_files_generateApplicationAnalytics|intros metrics; keeps_files].
Qed.

Lemma keeps_files_listApplications : keeps_files listApplications.
Proof.
  unfold listApplications, lift, throw, console_error, console_error_exn,
    process_exit.
  apply keeps_files_try_catch; [|intros e; keeps_files].
  apply keeps_files_bind; [|intros resp; keeps_files].
  apply keeps_files_autoRetry. keeps_files.
Qed.

(** The file system when the output is about to be written is the one the
    run started with. *)
Lemma files_before_output (w w1 w2 : World) (applications : val)
    (applicationData : list (list val)) :
  listApplications w = (Ok applications, w1) →
  main_loop (elements applications) [] (loop_start applications w1)
    = (Ok applicationData, w2) →
  fs_error w2 = fs_error w ∧ files w2 = files w.
Proof.
  intros Hlist Hloop.
  destruct (keeps_files_listApplications w) as [H1 H2].
  destruct (keeps_files_main_loop (elements applications) []
              (loop_start applications w1)) as [H3 H4].
  rewrite Hlist in H1, H2. rewrite Hloop in H3, H4. simpl in *.
  split; congruence.
Qed.

Lemma program_started (w : World) :
  startup w = (Ok tt, w) →
  program w =
  match main w with
  | (Ok _, w2) => (Completed, w2)
  | (Throw e, w2) => (UnhandledRejection e, w2)
  | (Exit code, w2) => (Exited code, w2)
  | (OutOfFuel, w2) => (Unfinished, w2)
  end.
Proof. intros H. unfold program. by rewrite H. Qed.

(** C8.  In every run that produces output, the header lists "ID", "Name"
    and then the keys of the first processed application's row in their
    insertion order; every data row gives the identifier, the name and the
    values of its own row read in that same key order; the data rows are
    those of the applications not excluded, in the order of the list; and
    the text ends with a line feed after the last row. *)
Theorem columns_follow_first_row
    (w w1 w2 : World) (applications : val) (applicationData : list (list val)) :
  startup w = (Ok tt, w) →
  listApplications w = (Ok applications, w1) →
  truthy applications && Array_isArray applications = true →
  main_loop (elements applications) [] (loop_start applications w1)
    = (Ok applicationData, w2) →
  applicationData ≠ [] →
  fs_error w = None →
  ∃ first keys w3,
    head applicationData = Some first ∧
    Object_keys (index first 2) = Ok keys ∧
    keys = metric_names ∧
    program w = (Completed, w3) ∧
    files w3 = files w ++
      [(argv_outputFile,
        String.concat newline
          (String.concat "," ("ID" :: "Name" :: keys)
           :: map (row_of keys) applicationData)
        +:+ newline)] ∧
    map (take 2) applicationData =
      map (λ a, [field a "id"; field a "name"]) (processed (elements applications)).
Proof.
  intros Hstart Hlist Harr Hloop Hne Hfs.
  destruct (main_loop_entries _ _ _ _ _ Hloop (Forall_nil_2 _)) as [Hentries Horder].
  destruct (files_before_output _ _ _ _ _ Hlist Hloop) as [Hfs2 Hfiles2].
  rewrite <- Hfs2 in Hfs. rewrite <- Hfiles2.
  destruct applicationData as [|first more]; [done|].
  pose proof (Forall_inv Hentries) as (id & name & ps & -> & Hkeys & _).
  eexists _, metric_names, _. split; [done|].
  split; [by simpl; rewrite Hkeys|]. split; [done|].
  rewrite (program_started w Hstart), (main_eq w w1 applications Hlist), Harr, Hloop.
  rewrite main_output_eq by done. cbv zeta. rewrite Hfs.
  split; [reflexivity|]. split; [reflexivity|]. exact Horder.
Qed.

(** *** The four fetches and their replies *)

(** Two failed attempts of a request: the second failure is the outcome. *)
Lemma retry_get_two_failures (u : string) (cfg : AxiosConfig) (w : World)
    (e1 e2 : exn) :
  settle (head (net w)) = Throw e1 →
  settle (head (tail (net w))) = Throw e2 →
  ∃ w', autoRetry (axios_get u cfg) w = (Throw e2, w') ∧
        net w' = tail (tail (net w)).
Proof.
  intros H1 H2. rewrite autoRetry_eq, axios_get_eq, H1, axios_get_eq. simpl.
  rewrite H2. by eexists.
Qed.

Lemma fetch_loop_two_failures (r : Resource) (token : string) (fuel : nat)
    (items : list val) (cursor : val) (w : World) (e1 e2 : exn) :
  settle (head (net w)) = Throw e1 →
  settle (head (tail (net w))) = Throw e2 →
  ∃ w', fetch_loop r token (S fuel) items cursor w = (Throw e2, w') ∧
        net w' = tail (tail (net w)).
Proof.
  intros H1 H2.
  destruct (retry_get_two_failures (page_url r cursor)
              (makeAxiosAuthHeaders token) w e1 e2 H1 H2) as (w' & Hrun & Hnet).
  exists w'. split; [|done]. cbn [fetch_loop]. unfold fetch_page.
  erewrite M_bind_Throw; [done|]. by erewrite M_bind_Throw by exact Hrun.
Qed.

(** The loop over pages that all carry a cursor goes on after the last of
    them. *)
Lemma fetch_loop_going_on (r : Resource) (token : string)
    (init : list (list val * val * val)) :
  ∀ (pages rest : list Reply) (fuel : nat) (items : list val) (cursor : val)
    (w : World),
    net w = pages ++ rest →
    map (reply_page r) pages = map Some init →
    Forall (λ p, strict_eq (page_cursor p) VNull = false) init →
    ∃ items' cursor' w',
      fetch_loop r token (length init + fuel) items cursor w
        = fetch_loop r token fuel items' cursor' w' ∧
      net w' = rest.
Proof.
  induction init as [|[[l t] n] init IH];
    intros pages rest fuel items cursor w Hnet Hmap Hnn.
  - destruct pages; [|done]. by exists items, cursor, w.
  - destruct pages as [|reply pages]; [done|].
    simpl in Hmap. injection Hmap as Hp Hmap.
    apply reply_page_Some in Hp as (resp & -> & Hst & Hp & Htotal).
    apply Forall_cons in Hnn as [Ht Hnn]. change (strict_eq t VNull = false) in Ht.
    destruct (fetch_page_page r token items cursor w resp (pages ++ rest)
                _ _ _ Hnet Hst Hp Htotal) as (w1 & Hrun & Hn & _).
    destruct (IH pages rest fuel (items ++ l) t w1 Hn Hmap Hnn)
      as (items' & cursor' & w' & Hloop & Hrest).
    exists items', cursor', w'. split; [|done].
    cbn [length Nat.add fetch_loop]. erewrite M_bind_Ok by exact Hrun.
    cbn beta iota. rewrite Ht. cbn [negb]. exact Hloop.
Qed.

(** [getGroups] on a response of status 200. *)
Lemma getGroups_answer (debugName token : string) (w : World)
    (resp : Response) (rest : list Reply) :
  net w = HttpReply resp :: rest →
  status resp = 200 →
  ∃ w', getGroups debugName token w =
          (if Array_isArray (data resp) then Ok (elements (data resp))
           else Throw (Error "Response for groups was malformed -- no groups"),
           w') ∧
        net w' = rest.
Proof.
  intros Hnet Hst. unfold getGroups.
  erewrite M_bind_Ok by reflexivity.
  erewrite M_bind_Ok by (by apply retry_get_Ok).
  rewrite Hst. cbn.
  destruct (data resp); cbn; rewrite ?andb_false_r; by eexists.
Qed.

Lemma getPaginated_refused (r : Resource) (debugName token : string) (w : World)
    (pages last rest : list Reply) :
  pages_going_on r pages →
  (∃ reply, last = [reply] ∧
            ok_with (λ body, is_object body = true ∧ page_of r body = None) reply) ∨
  (∃ first second e1 e2,
     last = [first; second] ∧
     settle (Some first) = Throw e1 ∧ settle (Some second) = Throw e2) →
  net w = (pages ++ last) ++ rest →
  ∃ e w', getPaginated r debugName token w = (Throw e, w') ∧ net w' = rest.
Proof.
  intros (init & Hmap & Hnn) Hlast Hnet.
  unfold getPaginated, log, replies_left, mbind, M_mbind, M_bind.
  cbn -[fetch_loop]. set (w1 := push_console _ w).
  assert (Hlen : length pages = length init).
  { apply (f_equal length) in Hmap. by rewrite !length_map in Hmap. }
  replace (S (length (net w)))
    with (length init + S (length last + length rest))%nat
    by (rewrite Hnet, !length_app, Hlen; lia).
  rewrite <- app_assoc in Hnet.
  destruct (fetch_loop_going_on r token init pages (last ++ rest)
              (S (length last + length rest)) [] VNull w1 Hnet Hmap Hnn)
    as (items' & cursor' & w2 & -> & Hnet2).
  destruct Hlast as [(reply & -> & resp & -> & Hst & Hobj & Hpage)
                    |(first & second & e1 & e2 & -> & H1 & H2)].
  - destruct (malformed_object_body_fatal r token
                (length [HttpReply resp] + length rest) items' cursor' w2 resp rest
                Hnet2 Hst Hobj Hpage) as (msg & w' & -> & _ & Hrest & _).
    by eexists _, _.
  - destruct (fetch_loop_two_failures r token (length [first; second]
                + length rest) items' cursor' w2 e1 e2) as (w' & -> & Hrest).
    + by rewrite Hnet2.
    + by rewrite Hnet2.
    + eexists _, _. split; [done|]. by rewrite Hrest, Hnet2.
Qed.

(** A fetch whose replies answer it in full returns, and leaves the rest
    of the script. *)
Lemma run_fetch_answered (f : Fetch) (debugName token : string) (w : World)
    (replies rest : list Reply) :
  answered f replies →
  net w = replies ++ rest →
  ∃ items w', run_fetch f debugName token w = (Ok items, w') ∧ net w' = rest.
Proof.
  assert (Hpages : ∀ r,
    (∃ pages last,
       replies = pages ++ [last] ∧ pages_going_on r pages ∧
       ∃ items total, reply_page r last = Some (items, VNull, total)) →
    net w = replies ++ rest →
    ∃ items w', getPaginated r debugName token w = (Ok items, w') ∧ net w' = rest).
  { intros r (pages & last & -> & (init & Hmap & Hnn) & items & total & Hlast) Hnet.
    destruct (getPaginated_pages r debugName token init items total
                (pages ++ [last]) rest w Hnet) as (w' & Hrun & Hrest & _).
    - rewrite !map_app, Hmap. simpl. by rewrite Hlast.
    - done.
    - by eexists _, _. }
  destruct f; try (apply Hpages).
  intros (reply & -> & resp & -> & Hst & Harr) Hnet.
  destruct (getGroups_answer debugName token w resp rest Hnet Hst)
    as (w' & Hrun & Hrest).
  rewrite Harr in Hrun. by eexists _, _.
Qed.

(** A fetch that meets replies it fails on throws. *)
Lemma run_fetch_refused (f : Fetch) (debugName token : string) (w : World)
    (replies rest : list Reply) :
  refused f replies →
  net w = replies ++ rest →
  ∃ e w', run_fetch f debugName token w = (Throw e, w') ∧ net w' = rest.
Proof.
  intros (pages & last & -> & Hpages & Hlast) Hnet.
  destruct f; try (by eapply (getPaginated_refused _ _ _ _ pages last)).
  cbn in Hpages. subst pages. cbn [app] in Hnet. cbn [run_fetch].
  destruct Hlast as [(reply & -> & resp & -> & Hst & Harr)
                    |(first & second & e1 & e2 & -> & H1 & H2)].
  - destruct (getGroups_answer debugName token w resp rest Hnet Hst)
      as (w' & Hrun & Hrest).
    cbn in Harr. rewrite Harr in Hrun. by eexists _, _.
  - unfold getGroups. erewrite M_bind_Ok by reflexivity.
    destruct (retry_get_two_failures "https://api.cord.com/v1/groups"
                (makeAxiosAuthHeaders token)
                (push_console (Log (state_idx w) (state_total w)
                   ("    Fetching groups for " +:+ debugName)) w) e1 e2)
      as (w' & Hrun & Hrest).
    + cbn [net push_console]. by rewrite Hnet.
    + cbn [net push_console]. by rewrite Hnet.
    + erewrite M_bind_Throw by exact Hrun.
      eexists _, _. split; [done|]. rewrite Hrest. cbn [net push_console].
      by rewrite Hnet.
Qed.

Lemma is_application_object (app : val) :
  is_application app = Ok true → is_object app = true.
Proof. rewrite is_application_eq. intros [= H]. by destruct (is_object app). Qed.

(** [generateApplicationAnalytics] on a valid record is the four fetches,
    one after the other, and the aggregation of what they return. *)
Lemma generateApplicationAnalytics_eq (debugName : string) (app : val) (w : World) :
  is_application app = Ok true →
  generateApplicationAnalytics debugName app w =
  let token := makeServerToken (field app "id") (field app "secret") in
  (users ← run_fetch Users debugName token;
   groups ← run_fetch Groups debugName token;
   threads ← run_fetch Threads debugName token;
   messages ← run_fetch Messages debugName token;
   mret [metrics_row users groups threads messages]) w.
Proof.
  intros Hvalid. pose proof (is_application_object app Hvalid) as Hobj.
  unfold generateApplicationAnalytics.
  erewrite lift_bind_Ok by exact Hvalid.
  rewrite !js_get_field by done.
  do 2 (erewrite lift_bind_Ok by reflexivity).
  cbv zeta. cbn [run_fetch]. unfold mbind, M_mbind, M_bind.
  destruct (getUsers _ _ w) as [[users| | |] w1]; try done.
  destruct (getGroups _ _ w1) as [[groups| | |] w2]; try done.
  destruct (getThreads _ _ w2) as [[threads| | |] w3]; try done.
  destruct (getMessages _ _ w3) as [[messages| | |] w4]; try done.
  by rewrite aggregate_eq.
Qed.

(** When the fetches before one are answered in full and that one meets
    replies it fails on, [generateApplicationAnalytics] throws. *)
Lemma generateApplicationAnalytics_refused (debugName : string) (app : val)
    (w : World) (before later : list Fetch) (failing : Fetch)
    (answers : list (list Reply)) (bad rest : list Reply) :
  is_application app = Ok true →
  fetch_order = before ++ failing :: later →
  Forall2 answered before answers →
  refused failing bad →
  net w = concat answers ++ bad ++ rest →
  ∃ e w', generateApplicationAnalytics debugName app w = (Throw e, w').
Proof.
  intros Hvalid Horder Hanswers Hbad Hnet.
  rewrite generateApplicationAnalytics_eq by done. cbv zeta.
  set (token := makeServerToken _ _).
  assert (Hfail : ∀ w0 {B} (k : list val → M B),
    net w0 = bad ++ rest →
    ∃ e w', (run_fetch failing debugName token ≫= k) w0 = (Throw e, w')).
  { intros w0 B k Hnet0.
    destruct (run_fetch_refused failing debugName token w0 bad rest Hbad Hnet0)
      as (e & w' & Hrun & _).
    exists e, w'. by erewrite M_bind_Throw. }
  assert (Hstep : ∀ f replies more w0 {B} (k : list val → M B),
    answered f replies → net w0 = replies ++ more →
    ∃ items w1, (run_fetch f debugName token ≫= k) w0 = k items w1 ∧
                net w1 = more).
  { intros f replies more w0 B k Hf Hnet0.
    destruct (run_fetch_answered f debugName token w0 replies more Hf Hnet0)
      as (items & w1 & Hrun & Hrest).
    exists items, w1. split; [|done]. by erewrite M_bind_Ok. }
  unfold fetch_order in Horder.
  destruct before as [|f1 [|f2 [|f3 [|f4 before]]]];
    simpl in Horder; simplify_eq.
  - apply Forall2_nil_inv_l in Hanswers as ->. by apply Hfail.
  - apply Forall2_cons_inv_l in Hanswers as (a1 & ? & H1 & Hnil & ->).
    apply Forall2_nil_inv_l in Hnil as ->.
    cbn [concat] in Hnet. rewrite app_nil_r, <- ?app_assoc in Hnet.
    edestruct (Hstep Users) as (i1 & w1 & -> & Hn1); [done..|].
    by apply Hfail.
  - apply Forall2_cons_inv_l in Hanswers as (a1 & ? & H1 & Hrest & ->).
    apply Forall2_cons_inv_l in Hrest as (a2 & ? & H2 & Hnil & ->).
    apply Forall2_nil_inv_l in Hnil as ->.
    cbn [concat] in Hnet. rewrite app_nil_r, <- ?app_assoc in Hnet.
    edestruct (Hstep Users) as (i1 & w1 & -> & Hn1); [done..|].
    edestruct (Hstep Groups) as (i2 & w2 & -> & Hn2); [done..|].
    by apply Hfail.
  - apply Forall2_cons_inv_l in Hanswers as (a1 & ? & H1 & Hrest & ->).
    apply Forall2_cons_inv_l in Hrest as (a2 & ? & H2 & Hrest & ->).
    apply Forall2_cons_inv_l in Hrest as (a3 & ? & H3 & Hnil & ->).
    apply Forall2_nil_inv_l in Hnil as ->.
    cbn [concat] in Hnet. rewrite app_nil_r, <- ?app_assoc in Hnet.
    edestruct (Hstep Users) as (i1 & w1 & -> & Hn1); [done..|].
    edestruct (Hstep Groups) as (i2 & w2 & -> & Hn2); [done..|].
    edestruct (Hstep Threads) as (i3 & w3 & -> & Hn3); [done..|].
    by apply Hfail.
  - by destruct before.
Qed.

(** The defect of the paginated fetches, carried through: when the reply
    to the request for the users is a response whose body is not an
    object, and the other three fetches are answered,
    [generateApplicationAnalytics] returns a row, computed from no user at
    all. *)
Lemma generateApplicationAnalytics_unexamined (debugName : string) (app : val)
    (w : World) (first : Reply) (groups threads messages rest : list Reply) :
  is_application app = Ok true →
  unexamined first →
  answered Groups groups → answered Threads threads →
  answered Messages messages →
  net w = first :: groups ++ threads ++ messages ++ rest →
  ∃ gs ts ms w',
    generateApplicationAnalytics debugName app w
      = (Ok [metrics_row [] gs ts ms], w').
Proof.
  intros Hvalid (resp & -> & Hst & Hobj) Hg Ht Hm Hnet.
  rewrite generateApplicationAnalytics_eq by done. cbv zeta.
  set (token := makeServerToken _ _).
  destruct (non_object_body_accepted users_resource debugName token w resp _
              Hnet Hst Hobj) as (w1 & Hrun1 & Hn1).
  change (run_fetch Users) with (getPaginated users_resource).
  erewrite M_bind_Ok by exact Hrun1.
  destruct (run_fetch_answered Groups debugName token w1 _ _ Hg Hn1)
    as (gs & w2 & Hrun2 & Hn2).
  erewrite M_bind_Ok by exact Hrun2.
  destruct (run_fetch_answered Threads debugName token w2 _ _ Ht Hn2)
    as (ts & w3 & Hrun3 & Hn3).
  erewrite M_bind_Ok by exact Hrun3.
  destruct (run_fetch_answered Messages debugName token w3 _ _ Hm Hn3)
    as (ms & w4 & Hrun4 & Hn4).
  erewrite M_bind_Ok by exact Hrun4.
  by eexists _, _, _, _.
Qed.

(** The loop on an application for which [generateApplicationAnalytics]
    throws: the process exits with code 1. *)
Lemma main_loop_failure (pre post : list val) (a : val)
    (acc : list (list val)) (w1 w2 : World) (e : exn) (w3 : World) :
  main_loop pre [] w1 = (Ok acc, w2) →
  is_object a = true → excluded (field a "id") = false →
  printable (field a "name") && printable (field a "id") = true →
  generateApplicationAnalytics (debugName_of a) a (announced a w2) = (Throw e, w3) →
  (main_loop (pre ++ a :: post) [] w1).1 = Exit 1.
Proof.
  intros Hpre Hobj Hex Hp Hgen. rewrite main_loop_app.
  unfold mbind, M_mbind, M_bind. rewrite Hpre.
  rewrite main_loop_cons_run by done. by rewrite Hgen.
Qed.

(** A record that passes the check can be logged under its name. *)
Lemma is_application_printable (app : val) :
  is_application app = Ok true →
  printable (field app "name") && printable (field app "id") = true.
Proof.
  intros H. apply is_application_strings in H as (id & name & -> & ->). done.
Qed.

(** C9.  A failure to write the output file is reported on the console
    and the process still completes, with exit code 0.  The other fatal
    conditions end the process with code 1: a missing secret (an uncaught
    exception at start-up), a missing output path, a list of applications
    that could not be fetched or is not an array, an entry of the list that
    is not an object, any exception in [generateApplicationAnalytics], the
    one for an invalid application record among them, and, for any of the
    four fetches, a response whose body the fetch rejects as malformed or
    two failed attempts of a request.  One malformed response is not fatal:
    when the body of the first response for the users is not an object, the
    fetch does not examine it, and the run completes with exit code 0. *)
Theorem write_failure_is_not_fatal :
  (∀ (w w1 w2 : World) (applications : val)
     (applicationData : list (list val)) (e : exn),
     startup w = (Ok tt, w) →
     listApplications w = (Ok applications, w1) →
     truthy applications && Array_isArray applications = true →
     main_loop (elements applications) [] (loop_start applications w1)
       = (Ok applicationData, w2) →
     applicationData ≠ [] →
     fs_error w = Some e →
     ∃ w3, program w = (Completed, w3) ∧
           exit_code (program w).1 = Some 0 ∧
           files w3 = files w ∧
           console w3 = console w2 ++
             [ ConsoleErrorExn e;
               ConsoleError "⛔️ Failed to write output file. See error above.";
               ConsoleLog "✅ CSV file written" ]) ∧
  (∀ w, truthy (field env "CUSTOMER_ID") = false ∨
        truthy (field env "CUSTOMER_SECRET") = false →
        (∃ e, (program w).1 = UncaughtException e) ∧
        exit_code (program w).1 = Some 1) ∧
  (∀ w, truthy (field env "CUSTOMER_ID") = true →
        truthy (field env "CUSTOMER_SECRET") = true →
        truthy argv_outputFile = false →
        (program w).1 = Exited 1 ∧ exit_code (program w).1 = Some 1) ∧
  (∀ w, startup w = (Ok tt, w) →
        (∀ l, (listApplications w).1 ≠ Ok (VArr l)) →
        (program w).1 = Exited 1 ∧ exit_code (program w).1 = Some 1) ∧
  (∀ (w w1 : World) (l : list val),
        startup w = (Ok tt, w) →
        listApplications w = (Ok (VArr l), w1) →
        (main_loop l [] (loop_start (VArr l) w1)).1 = Exit 1 →
        (program w).1 = Exited 1 ∧ exit_code (program w).1 = Some 1) ∧
  (∀ (pre post : list val) (a : val) (acc : list (list val)) (w1 w2 : World),
        main_loop pre [] w1 = (Ok acc, w2) →
        is_object a = false ∨
        (is_object a = true ∧ excluded (field a "id") = false ∧
         printable (field a "name") && printable (field a "id") = true ∧
         ∃ e, (generateApplicationAnalytics (debugName_of a) a (announced a w2)).1
              = Throw e) →
        (main_loop (pre ++ a :: post) [] w1).1 = Exit 1) ∧
  (∀ (debugName : string) (a : val) (w : World),
        is_application a = Ok false →
        (generateApplicationAnalytics debugName a w).1 =
        Throw (Error "Application is missing required fields: name, id, and secret")) ∧
  (∀ (pre post : list val) (a : val) (acc : list (list val)) (w1 w2 : World)
     (before later : list Fetch) (failing : Fetch)
     (answers : list (list Reply)) (bad rest : list Reply),
        main_loop pre [] w1 = (Ok acc, w2) →
        is_application a = Ok true →
        excluded (field a "id") = false →
        fetch_order = before ++ failing :: later →
        Forall2 answered before answers →
        refused failing bad →
        net w2 = concat answers ++ bad ++ rest →
        (main_loop (pre ++ a :: post) [] w1).1 = Exit 1) ∧
  (∀ (w w1 : World) (a : val) (first : Reply)
     (groups threads messages rest : list Reply),
        startup w = (Ok tt, w) →
        listApplications w = (Ok (VArr [a]), w1) →
        is_application a = Ok true →
        excluded (field a "id") = false →
        unexamined first →
        answered Groups groups → answered Threads threads →
        answered Messages messages →
        net w1 = first :: groups ++ threads ++ messages ++ rest →
        (program w).1 = Completed ∧ exit_code (program w).1 = Some 0).
Proof.
  split; [|split; [|split; [|split; [|split; [|split; [|split; [|split]]]]]]].
  - intros w w1 w2 applications applicationData e
      Hstart Hlist Harr Hloop Hne Hfs.
    destruct (main_loop_entries _ _ _ _ _ Hloop (Forall_nil_2 _)) as [Hentries _].
    destruct (files_before_output _ _ _ _ _ Hlist Hloop) as [Hfs2 Hfiles2].
    rewrite <- Hfs2 in Hfs. rewrite <- Hfiles2.
    destruct applicationData as [|first more]; [done|].
    rewrite (program_started w Hstart), (main_eq w w1 applications Hlist),
      Harr, Hloop.
    rewrite main_output_eq by done. cbv zeta. rewrite Hfs.
    eexists. split; [reflexivity|]. split; [done|]. split; [done|].
    simpl. by rewrite <- !app_assoc.
  - intros w Hmissing.
    destruct (startup_missing_secret w Hmissing) as [e He].
    unfold program. rewrite He. simpl. eauto.
  - intros w Hid Hsecret Hout.
    destruct (startup_missing_outputFile w Hid Hsecret Hout) as [w' Hw'].
    unfold program. by rewrite Hw'.
  - intros w Hstart Hlist. rewrite (program_started w Hstart).
    pose proof (listApplications_outcome w) as Hout.
    destruct (listApplications w) as [[v|e|c|] w1] eqn:Hrun; simpl in *; try done.
    + rewrite (main_eq w w1 v Hrun).
      destruct v as [| |b|x|s|elems|]; try done; simpl.
      * by destruct b.
      * by destruct (negb (is_zero x || is_NaN x)).
      * by destruct (negb (String.eqb s "")).
      * by destruct (Hlist elems).
    + destruct c as [|[]|]; try done.
      unfold main. by erewrite M_bind_Exit by exact Hrun.
  - intros w w1 l Hstart Hlist Hloop. rewrite (program_started w Hstart).
    rewrite (main_eq w w1 (VArr l) Hlist). simpl.
    destruct (main_loop l [] _) as [[data|e|c|] w2]; simpl in *; by simplify_eq.
  - intros pre post a acc w1 w2 Hpre Ha.
    destruct Ha as [Hobj | (Hobj & Hex & Hp & e & He)].
    + rewrite main_loop_app. unfold mbind, M_mbind, M_bind. rewrite Hpre.
      by rewrite main_loop_cons_malformed.
    + destruct (generateApplicationAnalytics _ a _) as [r w3] eqn:Hgen.
      simpl in He. subst r. by eapply main_loop_failure.
  - intros debugName a w Ha.
    by rewrite generateApplicationAnalytics_invalid.
  - intros pre post a acc w1 w2 before later failing answers bad rest
      Hpre Hvalid Hex Horder Hanswers Hbad Hnet.
    destruct (generateApplicationAnalytics_refused (debugName_of a) a
                (announced a w2) before later failing answers bad rest)
      as (e & w3 & Hgen); try done.
    eapply main_loop_failure; try done.
    + by apply is_application_object.
    + by apply is_application_printable.
  - intros w w1 a first groups threads messages rest
      Hstart Hlist Hvalid Hex Hfirst Hg Ht Hm Hnet.
    destruct (generateApplicationAnalytics_unexamined (debugName_of a) a
                (announced a (loop_start (VArr [a]) w1))
                first groups threads messages rest)
      as (gs & ts & ms & w2 & Hgen); try done.
    apply is_application_strings in Hvalid as Hstrings.
    destruct Hstrings as (id & name & Hid & Hname).
    rewrite (program_started w Hstart), (main_eq w w1 (VArr [a]) Hlist).
    cbn [truthy Array_isArray andb elements].
    rewrite main_loop_cons_run, Hgen;
      [|by apply is_application_object|done|by apply is_application_printable].
    cbn [main_loop mret M_mret app]. rewrite Hid, Hname.
    rewrite main_output_eq
      by (apply Forall_singleton, metrics_row_entry).
    cbv zeta. by destruct (fs_error w2).
Qed.

(** C10.  When the list of applications is an array that yields no row,
    because it is empty or because every application in it is excluded,
    [main] reads [applicationData[0][2]] on an empty array: the run ends on
    a [TypeError] and nothing has been written. *)
Theorem no_rows_crashes_before_writing
    (w : World) (resp : Response) (rest : list Reply) (applications : list val) :
  startup w = (Ok tt, w) →
  net w = HttpReply resp :: rest →
  status resp = 200 →
  data resp = VArr applications →
  Forall is_skipped applications →
  ∃ w', program w =
          (UnhandledRejection
             (TypeError "Cannot read properties of undefined (reading '2')"), w') ∧
        main w =
          (Throw (TypeError "Cannot read properties of undefined (reading '2')"), w') ∧
        files w' = files w.
Proof.
  intros Hstart Hnet Hst Hdata Hskip.
  destruct (startup_Ok w w Hstart) as (_ & Henv & _).
  destruct (listApplications_Ok w resp rest Henv Hnet Hst)
    as (w1 & Hlist & _ & _ & _ & Hfiles & _).
  rewrite (program_started w Hstart), (main_eq w w1 _ Hlist), Hdata. simpl.
  destruct (main_loop_skipped applications Hskip [] (loop_start (VArr applications) w1))
    as (w2 & Hloop & Hfiles2 & _).
  rewrite Hloop, main_output_empty.
  exists w2. split; [done|]. split; [done|]. by rewrite Hfiles2.
Qed.

(** * Further properties of the script *)

(** ** The fetches *)

Lemma retry_get_success (u : string) (cfg : AxiosConfig) (w : World)
    (resp : Response) (rest : list Reply) :
  net w = HttpReply resp :: rest →
  200 ≤ status resp < 300 →
  autoRetry (axios_get u cfg) w =
  (Ok resp, set_net rest (push_request {| url := u; config := cfg |} w)).
Proof.
  intros Hnet Hst. rewrite autoRetry_eq, axios_get_eq, Hnet. simpl.
  assert ((200 <=? status resp) && (status resp <? 300) = true) as ->; [|done].
  apply andb_true_intro. split; [apply Z.leb_le|apply Z.ltb_lt]; lia.
Qed.

(** X1.  [getGroups] takes a 200 response for the groups exactly when its
    body is an array, whose elements it returns in order; any other body,
    [null], an object or a text alike, ends it with the malformed-response
    error.  Either way one request was issued and one reply consumed. *)
Theorem getGroups_accepts_arrays_only (debugName token : string) (w : World)
    (resp : Response) (rest : list Reply) :
  net w = HttpReply resp :: rest →
  status resp = 200 →
  let result := getGroups debugName token w in
  result.1 = match data resp with
             | VArr groups => Ok groups
             | _ => Throw (Error "Response for groups was malformed -- no groups")
             end ∧
  requests result.2 = requests w ++ [groups_request token] ∧
  net result.2 = rest.
Proof.
  intros Hnet Hst result. subst result. unfold getGroups.
  erewrite M_bind_Ok by reflexivity.
  erewrite M_bind_Ok by (apply retry_get_success; [exact Hnet|lia]).
  rewrite Hst. cbn beta iota.
  destruct (data resp) as [| |b|n|s|l|ps]; cbn [truthy Array_isArray];
    rewrite ?andb_false_r; done.
Qed.

(** X2.  A response whose status is a success other than 200 (204, say) is
    handed over by axios, so [autoRetry] sees no failure: the fetch logs the
    response and throws its status error after that single request, without
    a retry.  This holds for the three paginated fetches and for
    [getGroups]. *)
Theorem other_success_status_is_fatal :
  (∀ (r : Resource) (token : string) (fuel : nat) (items : list val)
     (cursor : val) (w : World) (resp : Response) (rest : list Reply),
     net w = HttpReply resp :: rest →
     200 < status resp < 300 →
     let result := fetch_loop r token (S fuel) items cursor w in
     result.1 = Throw (Error (bad_status_message r +:+ pretty (status resp)
                              +:+ ": " +:+ statusText resp)) ∧
     requests result.2 = requests w ++ [page_request r token cursor] ∧
     net result.2 = rest ∧
     console result.2 = console w ++ [ConsoleErrorResp resp]) ∧
  (∀ (debugName token : string) (w : World) (resp : Response)
     (rest : list Reply),
     net w = HttpReply resp :: rest →
     200 < status resp < 300 →
     let result := getGroups debugName token w in
     result.1 = Throw (Error ("Failed to fetch groups: " +:+ pretty (status resp)
                              +:+ ": " +:+ statusText resp)) ∧
     requests result.2 = requests w ++ [groups_request token] ∧
     net result.2 = rest).
Proof.
  split.
  - intros r token fuel items cursor w resp rest Hnet Hst result. subst result.
    assert (Hne : (status resp =? 200) = false) by (apply Z.eqb_neq; lia).
    assert (Hpage : fetch_page r token items cursor w =
              (Throw (Error (bad_status_message r +:+ pretty (status resp)
                             +:+ ": " +:+ statusText resp)),
               push_console (ConsoleErrorResp resp)
                 (set_net rest (push_request (page_request r token cursor) w)))).
    { unfold fetch_page.
      erewrite M_bind_Ok by (apply retry_get_success; [exact Hnet|lia]).
      by rewrite Hne. }
    cbn [fetch_loop]. by rewrite (M_bind_Throw _ _ _ _ _ Hpage).
  - intros debugName token w resp rest Hnet Hst result. subst result.
    assert (Hne : (status resp =? 200) = false) by (apply Z.eqb_neq; lia).
    unfold getGroups. erewrite M_bind_Ok by reflexivity.
    erewrite M_bind_Ok by (apply retry_get_success; [exact Hnet|lia]).
    by rewrite Hne.
Qed.

(** X14.  A 200 response whose body is an object or an array but not a
    well-formed page ends a paginated fetch at once, after the single
    request that was answered and without a retry.  The items are looked at
    first: without an array under the resource's name the error is the one
    about the missing items, whatever the pagination; with it, the one about
    the pagination. *)
Theorem malformed_page_is_fatal
    (r : Resource) (debugName token : string) (w : World)
    (resp : Response) (rest : list Reply) :
  net w = HttpReply resp :: rest →
  status resp = 200 →
  is_object (data resp) = true →
  page_of r (data resp) = None →
  let result := getPaginated r debugName token w in
  result.1 = Throw (Error (if Array_isArray (field (data resp) (plural r))
                           then bad_pagination_message r
                           else no_items_message r)) ∧
  requests result.2 = requests w ++ [page_request r token VNull] ∧
  net result.2 = rest.
Proof.
  intros Hnet Hst Hobj Hpage result. subst result.
  assert (Hturn : ∀ w1, net w1 = HttpReply resp :: rest →
    fetch_page r token [] VNull w1 =
    (Throw (Error (if Array_isArray (field (data resp) (plural r))
                   then bad_pagination_message r else no_items_message r)),
     set_net rest (push_request (page_request r token VNull) w1))).
  { intros w1 Hnet1. unfold fetch_page.
    erewrite M_bind_Ok by (by apply retry_get_Ok).
    rewrite Hst. simpl. rewrite Hobj. rewrite is_object_spec in Hobj.
    destruct (data resp) as [| | | | |arr|ps]; try done.
    simpl in Hpage. unfold field. run.
    destruct (lookup_prop (plural r) ps) as [[]|] eqn:Hitems; run; try done.
    destruct (lookup_prop "pagination" ps) as [[| | | | | |pg]|] eqn:Hpg; run;
      try done.
    destruct (lookup_prop "token" pg) as [t'|] eqn:Htok; run; try done.
    by destruct (lookup_prop "total" pg) as [n'|] eqn:Htot. }
  unfold getPaginated, log, replies_left, mbind, M_mbind, M_bind.
  cbn -[fetch_loop]. cbn [fetch_loop].
  by erewrite M_bind_Throw by (by apply Hturn).
Qed.

(** ** The application loop *)

Lemma main_loop_ids (applications : list val) :
  ∀ (acc data : list (list val)) (w w' : World),
    main_loop applications acc w = (Ok data, w') →
    Forall (λ entry, excluded (index entry 0) = false) acc →
    Forall (λ entry, excluded (index entry 0) = false) data ∧
    length data = (length acc + length (processed applications))%nat.
Proof.
  induction applications as [|a rest IH]; intros acc data w w' Hrun Hacc.
  - injection Hrun as <- <-. split; [done|]. simpl. lia.
  - destruct (is_object a) eqn:Hobj;
      [|by rewrite main_loop_cons_malformed in Hrun].
    unfold processed. rewrite filter_cons.
    destruct (excluded (field a "id")) eqn:Hex.
    + rewrite main_loop_cons_excluded in Hrun by done.
      rewrite decide_False by done. by apply (IH _ _ _ _ Hrun).
    + destruct (printable (field a "name") && printable (field a "id")) eqn:Hp;
        [|by rewrite main_loop_cons_unprintable in Hrun].
      rewrite main_loop_cons_run in Hrun by done.
      rewrite decide_True by done.
      destruct (generateApplicationAnalytics _ a _) as [[metrics|e|c|] w2];
        try done.
      apply IH in Hrun as [Hdata Hlen].
      * split; [done|]. rewrite Hlen, length_app. simpl.
        fold (processed rest). lia.
      * apply Forall_app. split; [done|]. by apply Forall_singleton.
Qed.

(** X3.  An application whose [id] is one of the two excluded identifiers
    is passed over before anything is done for it: no validation of the
    record, no log line, no request; only the progress counter is stepped.
    So no entry of [applicationData] ever has an excluded identifier, and
    there are as many entries as applications not excluded. *)
Theorem excluded_applications_are_skipped :
  (∀ (a : val) (rest : list val) (acc : list (list val)) (w : World),
     is_skipped a →
     main_loop (a :: rest) acc w =
     main_loop rest acc (set_state (state_idx w + 1) (state_total w) w)) ∧
  (∀ (applications : list val) (data : list (list val)) (w w' : World),
     main_loop applications [] w = (Ok data, w') →
     Forall (λ entry, excluded (index entry 0) = false) data ∧
     length data = length (processed applications)).
Proof.
  split.
  - intros a rest acc w [Hobj Hex]. by apply main_loop_cons_excluded.
  - intros applications data w w' Hrun.
    by destruct (main_loop_ids applications [] data w w' Hrun (Forall_nil_2 _)).
Qed.

(** X6.  The check in front of [generateApplicationAnalytics] accepts
    exactly the objects whose [id], [secret] and [name] are strings, the
    empty string included, and it throws on no value at all; a record it
    turns down ends the function with its error before anything is logged
    or requested. *)
Theorem is_application_spec :
  (∀ app, is_application app =
          Ok (is_object app && is_string (field app "id")
              && is_string (field app "secret")
              && is_string (field app "name"))) ∧
  (∀ (debugName : string) (app : val) (w : World),
     is_application app = Ok false →
     generateApplicationAnalytics debugName app w =
     (Throw (Error "Application is missing required fields: name, id, and secret"),
      w)).
Proof.
  split; [apply is_application_eq|].
  intros; by apply generateApplicationAnalytics_invalid.
Qed.

(** X5.  [listApplications] lets no exception out: it returns the body of
    a 200 response or ends the process with code 1.  A success status other
    than 200 ends it after the single request; two failed attempts end it
    after exactly two requests, both failures and both notices on the
    console. *)
Theorem listApplications_exits_on_failure :
  (∀ w, rows_or_exit (listApplications w).1) ∧
  (∀ (w : World) (resp : Response) (rest : list Reply),
     is_object env = true →
     net w = HttpReply resp :: rest →
     200 < status resp < 300 →
     let result := listApplications w in
     result.1 = Exit 1 ∧
     length (requests result.2) = S (length (requests w)) ∧
     net result.2 = rest) ∧
  (∀ (w : World) (e1 e2 : exn),
     is_object env = true →
     settle (head (net w)) = Throw e1 →
     settle (head (tail (net w))) = Throw e2 →
     let result := listApplications w in
     result.1 = Exit 1 ∧
     length (requests result.2) = S (S (length (requests w))) ∧
     net result.2 = tail (tail (net w)) ∧
     console result.2 = console w ++
       [ ConsoleErrorExn e1; ConsoleError "Retrying once...";
         ConsoleErrorExn e2;
         ConsoleError "⛔️ Failed to list appications. See the error above." ]).
Proof.
  split; [apply listApplications_outcome|]. split.
  - intros w resp rest Henv Hnet Hst result.
    assert (Hne : (status resp =? 200) = false) by (apply Z.eqb_neq; lia).
    remember (listApplications w) as run eqn:Hrun. subst result.
    unfold listApplications, try_catch, makeCustomerToken in Hrun.
    rewrite !js_get_field in Hrun by done.
    cbn [mbind res_mbind res_bind mret res_mret] in Hrun.
    unfold mbind at 1, M_mbind, M_bind in Hrun.
    rewrite autoRetry_eq in Hrun. erewrite lift_bind_Ok in Hrun by reflexivity.
    rewrite axios_get_eq, Hnet in Hrun. cbn [head settle] in Hrun.
    assert ((200 <=? status resp) && (status resp <? 300) = true) as Hok.
    { apply andb_true_intro. split; [apply Z.leb_le|apply Z.ltb_lt]; lia. }
    rewrite Hok, Hne in Hrun. subst run. run. rewrite length_app. simpl.
    split; [done|]. split; [lia|done].
  - intros w e1 e2 Henv H1 H2 result.
    remember (listApplications w) as run eqn:Hrun. subst result.
    unfold listApplications, try_catch, makeCustomerToken in Hrun.
    rewrite !js_get_field in Hrun by done.
    cbn [mbind res_mbind res_bind mret res_mret] in Hrun.
    unfold mbind at 1, M_mbind, M_bind in Hrun.
    rewrite autoRetry_eq in Hrun. erewrite lift_bind_Ok in Hrun by reflexivity.
    rewrite axios_get_eq, H1 in Hrun. erewrite lift_bind_Ok in Hrun by reflexivity.
    rewrite axios_get_eq in Hrun.
    cbn [net set_net push_request push_console] in Hrun.
    rewrite H2 in Hrun. subst run. run. rewrite !length_app. simpl.
    split; [done|]. split; [lia|]. split; [done|]. by rewrite <- !app_assoc.
Qed.

(** ** What the fetches leave alone, and what they ask for *)

Lemma keeps_progress_bind {A B} (m : M A) (f : A → M B) :
  keeps_progress m → (∀ a, keeps_progress (f a)) → keeps_progress (m ≫= f).
Proof.
  intros Hm Hf w. specialize (Hm w). unfold mbind, M_mbind, M_bind.
  destruct (m w) as [[a| | |] w1]; simpl in *; try done.
  destruct (Hf a w1) as [H1 H2]. destruct Hm as [H3 H4].
  split; congruence.
Qed.

Lemma keeps_progress_pure {A} (r : res A) : keeps_progress (λ w, (r, w)).
Proof. by intros w. Qed.

Lemma keeps_progress_console {A} (r : res A) (line : World → ConsoleLine) :
  keeps_progress (λ w, (r, push_console (line w) w)).
Proof. by intros w. Qed.

Lemma keeps_progress_axios_get (u : string) (cfg : AxiosConfig) :
  keeps_progress (axios_get u cfg).
Proof. intros w. by rewrite axios_get_eq. Qed.

Lemma keeps_progress_try_catch {A} (m : M A) (handler : exn → M A) :
  keeps_progress m → (∀ e, keeps_progress (handler e)) →
  keeps_progress (try_catch m handler).
Proof.
  intros Hm Hh w. specialize (Hm w). unfold try_catch.
  destruct (m w) as [[a|e| |] w1]; simpl in *; try done.
  destruct (Hh e w1) as [H1 H2]. destruct Hm as [H3 H4].
  split; congruence.
Qed.

Ltac keeps_progress :=
  repeat first
    [ assumption
    | apply keeps_progress_bind; [|intros ?]
    | apply keeps_progress_try_catch; [|intros ?]
    | apply keeps_progress_axios_get
    | apply keeps_progress_pure
    | apply (keeps_progress_console (Ok tt))
    | match goal with
      | |- keeps_progress (if ?b then _ else _) => destruct b
      | |- keeps_progress (match ?x with _ => _ end) => destruct x
      | |- keeps_progress (let _ := _ in _) => cbv zeta
      end ].

Lemma keeps_progress_autoRetry {A} (func : M A) :
  keeps_progress func → keeps_progress (autoRetry func).
Proof.
  intros H. unfold autoRetry, console_error_exn, console_error. keeps_progress.
Qed.

Lemma keeps_progress_fetch_loop (r : Resource) (token : string) (fuel : nat) :
  ∀ items cursor, keeps_progress (fetch_loop r token fuel items cursor).
Proof.
  induction fuel as [|fuel IH]; intros items cursor; [by intros w|].
  cbn [fetch_loop]. apply keeps_progress_bind.
  - unfold fetch_page, lift, throw, log, console_error_resp.
    apply keeps_progress_bind;
      [apply keeps_progress_autoRetry, keeps_progress_axios_get|intros resp].
    keeps_progress.
  - intros [items' cursor']. destruct (negb _); [apply IH|by intros w].
Qed.

Lemma keeps_progress_getPaginated (r : Resource) (debugName token : string) :
  keeps_progress (getPaginated r debugName token).
Proof.
  unfold getPaginated, log, replies_left.
  apply keeps_progress_bind; [keeps_progress|intros _].
  apply keeps_progress_bind; [by intros w|intros n].
  apply keeps_progress_fetch_loop.
Qed.

Lemma keeps_progress_getGroups (debugName token : string) :
  keeps_progress (getGroups debugName token).
Proof.
  unfold getGroups, log, throw, console_error_resp.
  apply keeps_progress_bind; [keeps_progress|intros _].
  apply keeps_progress_bind;
    [apply keeps_progress_autoRetry, keeps_progress_axios_get|intros resp].
  keeps_progress.
Qed.

Lemma keeps_progress_generateApplicationAnalytics (debugName : string) (app : val) :
  keeps_progress (generateApplicationAnalytics debugName app).
Proof.
  unfold generateApplicationAnalytics, lift, throw.
  apply keeps_progress_bind; [keeps_progress|intros []]; [|keeps_progress].
  apply keeps_progress_bind; [keeps_progress|intros id].
  apply keeps_progress_bind; [keeps_progress|intros secret].
  apply keeps_progress_bind; [apply keeps_progress_getPaginated|intros users].
  apply keeps_progress_bind; [apply keeps_progress_getGroups|intros groups].
  apply keeps_progress_bind; [apply keeps_progress_getPaginated|intros threads].
  apply keeps_progress_bind; [apply keeps_progress_getPaginated|intros messages].
  keeps_progress.
Qed.

Lemma keeps_progress_listApplications : keeps_progress listApplications.
Proof.
  unfold listApplications, lift, throw, console_error, console_error_exn,
    process_exit.
  apply keeps_progress_try_catch; [|intros e; keeps_progress].
  apply keeps_progress_bind; [|intros resp; keeps_progress].
  apply keeps_progress_autoRetry. keeps_progress.
Qed.

Lemma main_loop_progress (applications : list val) :
  ∀ (acc data : list (list val)) (w w' : World),
    main_loop applications acc w = (Ok data, w') →
    state_idx w' = state_idx w + Z.of_nat (length applications) ∧
    state_total w' = state_total w.
Proof.
  induction applications as [|a rest IH]; intros acc data w w' Hrun.
  - injection Hrun as <- <-. simpl. split; [lia|done].
  - destruct (is_object a) eqn:Hobj;
      [|by rewrite main_loop_cons_malformed in Hrun].
    destruct (excluded (field a "id")) eqn:Hex.
    + rewrite main_loop_cons_excluded in Hrun by done.
      apply IH in Hrun as [Hi Ht]. simpl in *. split; [lia|done].
    + destruct (printable (field a "name") && printable (field a "id")) eqn:Hp;
        [|by rewrite main_loop_cons_unprintable in Hrun].
      rewrite main_loop_cons_run in Hrun by done.
      destruct (keeps_progress_generateApplicationAnalytics
                  (debugName_of a) a (announced a w)) as [Hi0 Ht0].
      destruct (generateApplicationAnalytics _ a _) as [[metrics|e|c|] w2];
        try done.
      apply IH in Hrun as [Hi Ht]. simpl in *. split; [lia|congruence].
Qed.

(** X4.  The progress counter is stepped once for every application of the
    list, the excluded ones included, and by nothing else: the fetches leave
    the counters alone.  So when the loop has gone through the whole list,
    [state.idx] has grown by the length of the list, which is what
    [state.total] was set to. *)
Theorem progress_reaches_total :
  (∀ (debugName : string) (app : val) (w : World),
     let w' := (generateApplicationAnalytics debugName app w).2 in
     state_idx w' = state_idx w ∧ state_total w' = state_total w) ∧
  (∀ (w w1 w2 : World) (applications : val) (data : list (list val)),
     listApplications w = (Ok applications, w1) →
     main_loop (elements applications) [] (loop_start applications w1)
       = (Ok data, w2) →
     state_idx w2 = state_idx w + Z.of_nat (length (elements applications)) ∧
     state_total w2 = Z.of_nat (length (elements applications))).
Proof.
  split.
  - intros debugName app w. apply keeps_progress_generateApplicationAnalytics.
  - intros w w1 w2 applications data Hlist Hloop.
    destruct (keeps_progress_listApplications w) as [Hi _].
    rewrite Hlist in Hi. simpl in Hi.
    apply main_loop_progress in Hloop as [Hi2 Ht2]. simpl in *.
    split; [lia|done].
Qed.

Lemma only_requests_bind {A B} (P : Request → Prop) (m : M A) (f : A → M B) :
  only_requests P m → (∀ a, only_requests P (f a)) → only_requests P (m ≫= f).
Proof.
  intros Hm Hf w. destruct (Hm w) as (new1 & Hr1 & HP1).
  unfold mbind, M_mbind, M_bind.
  destruct (m w) as [[a| | |] w1]; simpl in *; eauto.
  destruct (Hf a w1) as (new2 & Hr2 & HP2).
  exists (new1 ++ new2). rewrite Hr2, Hr1, <- app_assoc.
  split; [done|]. by apply Forall_app.
Qed.

Lemma only_requests_pure {A} (P : Request → Prop) (r : res A) :
  only_requests P (λ w, (r, w)).
Proof. intros w. exists []. by rewrite app_nil_r. Qed.

Lemma only_requests_console {A} (P : Request → Prop) (r : res A)
    (line : World → ConsoleLine) :
  only_requests P (λ w, (r, push_console (line w) w)).
Proof. intros w. exists []. simpl. by rewrite app_nil_r. Qed.

Lemma only_requests_axios_get (P : Request → Prop) (u : string) (cfg : AxiosConfig) :
  P {| url := u; config := cfg |} → only_requests P (axios_get u cfg).
Proof.
  intros HP w. rewrite axios_get_eq. simpl.
  eexists. split; [done|]. by apply Forall_singleton.
Qed.

Lemma only_requests_try_catch {A} (P : Request → Prop) (m : M A)
    (handler : exn → M A) :
  only_requests P m → (∀ e, only_requests P (handler e)) →
  only_requests P (try_catch m handler).
Proof.
  intros Hm Hh w. destruct (Hm w) as (new1 & Hr1 & HP1). unfold try_catch.
  destruct (m w) as [[a|e| |] w1]; simpl in *; eauto.
  destruct (Hh e w1) as (new2 & Hr2 & HP2).
  exists (new1 ++ new2). rewrite Hr2, Hr1, <- app_assoc.
  split; [done|]. by apply Forall_app.
Qed.

Ltac only_requests :=
  repeat first
    [ assumption
    | apply only_requests_bind; [|intros ?]
    | apply only_requests_try_catch; [|intros ?]
    | apply only_requests_pure
    | apply (only_requests_console _ (Ok tt))
    | match goal with
      | |- only_requests _ (if ?b then _ else _) => destruct b
      | |- only_requests _ (match ?x with _ => _ end) => destruct x
      | |- only_requests _ (let _ := _ in _) => cbv zeta
      end ].

Lemma only_requests_retry_get (P : Request → Prop) (u : string) (cfg : AxiosConfig) :
  P {| url := u; config := cfg |} → only_requests P (autoRetry (axios_get u cfg)).
Proof.
  intros HP. pose proof (only_requests_axios_get P u cfg HP).
  unfold autoRetry, console_error_exn, console_error. only_requests.
Qed.

Lemma only_requests_fetch_loop (P : Request → Prop) (r : Resource)
    (token : string) (fuel : nat) :
  (∀ cursor, P (page_request r token cursor)) →
  ∀ items cursor, only_requests P (fetch_loop r token fuel items cursor).
Proof.
  intros HP. induction fuel as [|fuel IH]; intros items cursor;
    [apply only_requests_pure|].
  cbn [fetch_loop]. apply only_requests_bind.
  - unfold fetch_page, lift, throw, log, console_error_resp.
    apply only_requests_bind;
      [apply only_requests_retry_get, HP|intros resp].
    only_requests.
  - intros [items' cursor']. destruct (negb _); [apply IH|].
    apply only_requests_pure.
Qed.

Lemma only_requests_getPaginated (P : Request → Prop) (r : Resource)
    (debugName token : string) :
  (∀ cursor, P (page_request r token cursor)) →
  only_requests P (getPaginated r debugName token).
Proof.
  intros HP. unfold getPaginated, log, replies_left.
  apply only_requests_bind; [only_requests|intros _].
  apply only_requests_bind.
  - intros w. exists []. by rewrite app_nil_r.
  - intros n. by apply only_requests_fetch_loop.
Qed.

Lemma only_requests_getGroups (P : Request → Prop) (debugName token : string) :
  P (groups_request token) → only_requests P (getGroups debugName token).
Proof.
  intros HP. unfold getGroups, log, throw, console_error_resp.
  apply only_requests_bind; [only_requests|intros _].
  apply only_requests_bind; [by apply only_requests_retry_get|intros resp].
  only_requests.
Qed.

(** X7.  Whatever the replies, every request [generateApplicationAnalytics]
    issues goes to one of the four resource addresses of the API and carries
    the bearer token signed for the application with the application's own
    secret; and the log of requests only grows. *)
Theorem requests_carry_the_application_token
    (debugName : string) (app : val) (w : World) :
  ∃ new,
    requests (generateApplicationAnalytics debugName app w).2
      = requests w ++ new ∧
    Forall (λ q,
      Authorization (config q) =
        "Bearer " +:+ makeServerToken (field app "id") (field app "secret") ∧
      ∃ name rest,
        name ∈ ["users"; "groups"; "threads"; "messages"] ∧
        url q = "https://api.cord.com/v1/" +:+ name +:+ rest) new.
Proof.
  set (P := λ q : Request,
      Authorization (config q) =
        "Bearer " +:+ makeServerToken (field app "id") (field app "secret") ∧
      ∃ name rest,
        name ∈ ["users"; "groups"; "threads"; "messages"] ∧
        url q = "https://api.cord.com/v1/" +:+ name +:+ rest).
  pose proof (is_application_eq app) as Hvalid.
  destruct (is_object app && is_string (field app "id")
            && is_string (field app "secret") && is_string (field app "name"))
    eqn:Hb.
  2:{ rewrite generateApplicationAnalytics_invalid by done.
      exists []. by rewrite app_nil_r. }
  assert (Hobj : is_object app = true) by (by destruct (is_object app)).
  unfold generateApplicationAnalytics.
  erewrite lift_bind_Ok by exact Hvalid.
  rewrite !js_get_field by done.
  do 2 (erewrite lift_bind_Ok by reflexivity).
  assert (Hpage : ∀ r, plural r ∈ ["users"; "groups"; "threads"; "messages"] →
            ∀ cursor, P (page_request r
              (makeServerToken (field app "id") (field app "secret")) cursor)).
  { intros r Hr cursor. split; [done|]. by eexists (plural r), _. }
  refine (only_requests_bind P _ _ _ _ w).
  { apply only_requests_getPaginated, Hpage. set_solver. }
  intros users. apply only_requests_bind.
  { apply only_requests_getGroups. split; [done|].
    exists "groups", "". split; [set_solver|done]. }
  intros groups. apply only_requests_bind.
  { apply only_requests_getPaginated, Hpage. set_solver. }
  intros threads. apply only_requests_bind.
  { apply only_requests_getPaginated, Hpage. set_solver. }
  intros messages. unfold lift. only_requests.
Qed.

(** ** A failed attempt per page does no harm *)






(** ** The counters *)

Lemma sum_of_perm {A} (f : A → Z) (l l' : list A) :
  l ≡ₚ l' → sum_of f l = sum_of f l'.
Proof.
  unfold sum_of. induction 1; simpl; lia.
Qed.

Lemma sum_of_app {A} (f : A → Z) (l l' : list A) :
  sum_of f (l ++ l') = sum_of f l + sum_of f l'.
Proof.
  unfold sum_of. induction l as [|x l IH]; simpl; lia.
Qed.

Lemma sum_of_bounds {A} (f : A → Z) (l : list A) :
  (∀ x, 0 ≤ f x ≤ 1) → 0 ≤ sum_of f l ≤ Z.of_nat (length l).
Proof.
  intros Hf. unfold sum_of.
  induction l as [|x l IH]; simpl length; simpl foldr; [lia|].
  specialize (Hf x). lia.
Qed.

Lemma sum_of_nonneg {A} (f : A → Z) (l : list A) :
  (∀ x, 0 ≤ f x) → 0 ≤ sum_of f l.
Proof.
  intros Hf. unfold sum_of.
  induction l as [|x l IH]; simpl; [lia|]. specialize (Hf x). lia.
Qed.

Lemma distinct_count_perm (ids ids' : list val) :
  ids ≡ₚ ids' → distinct_count ids = distinct_count ids'.
Proof.
  clear encodeURIComponent jwt_sign env argv_outputFile.
  intros Hp. unfold distinct_count. by rewrite Hp.
Qed.

Lemma participant_ids_perm (threads threads' : list val) :
  threads ≡ₚ threads' → participant_ids threads ≡ₚ participant_ids threads'.
Proof. intros Hp. unfold participant_ids. by rewrite Hp. Qed.

Lemma count_mention_nodes_perm (l l' : list val) :
  l ≡ₚ l' → count_mention_nodes l = count_mention_nodes l'.
Proof. intros Hp. unfold count_mention_nodes. by rewrite Hp. Qed.

Lemma count_mention_nodes_app (l l' : list val) :
  count_mention_nodes (l ++ l') = count_mention_nodes l + count_mention_nodes l'.
Proof.
  unfold count_mention_nodes.
  rewrite flat_map_app, filter_app, length_app. lia.
Qed.

(** X9.  The fourteen counts of a row do not depend on the order in
    which the records were fetched, and the whole row does not depend on the
    order of the users, the groups and the messages.  The four sums do
    depend on the order of the threads: they are added up in double
    arithmetic from the first thread on, so threads holding 2^53, 1 and 1
    messages total 2^53, and the same threads in the order 1, 1, 2^53 total
    2^53 + 2. *)
Theorem counts_order_independent :
  (∀ users users' groups groups' threads threads' messages messages',
     users ≡ₚ users' → groups ≡ₚ groups' →
     threads ≡ₚ threads' → messages ≡ₚ messages' →
     Forall (λ name,
         metric name (aggregate users groups threads messages)
         = metric name (aggregate users' groups' threads' messages'))
       count_names) ∧
  (∀ users users' groups groups' threads messages messages',
     users ≡ₚ users' → groups ≡ₚ groups' → messages ≡ₚ messages' →
     aggregate users groups threads messages
     = aggregate users' groups' threads messages') ∧
  (let big := thread_of (Number (2 ^ 53)) in
   let one := thread_of (Number 1) in
   metric "Total Message Count" (aggregate [] [] [big; one; one] [])
     = Some (VNum (Number (2 ^ 53))) ∧
   metric "Total Message Count" (aggregate [] [] [one; one; big] [])
     = Some (VNum (Number (2 ^ 53 + 2))) ∧
   Number (2 ^ 53) ≠ Number (2 ^ 53 + 2)).
Proof.
  split; [|split].
  - intros users users' groups groups' threads threads' messages messages'
      Hu Hg Ht Hm.
    rewrite !aggregate_eq. unfold metrics_row.
    rewrite (Permutation_length Hu), (Permutation_length Hg),
      (Permutation_length Ht), (Permutation_length Hm).
    rewrite (distinct_count_perm _ _ (participant_ids_perm _ _ Ht)).
    rewrite !(sum_of_perm _ _ _ Hu), !(sum_of_perm _ _ _ Hg),
      !(sum_of_perm _ _ _ Ht), !(sum_of_perm _ _ _ Hm).
    repeat constructor.
  - intros users users' groups groups' threads messages messages' Hu Hg Hm.
    rewrite !aggregate_eq. unfold metrics_row.
    rewrite (Permutation_length Hu), (Permutation_length Hg),
      (Permutation_length Hm).
    rewrite !(sum_of_perm _ _ _ Hu), !(sum_of_perm _ _ _ Hg),
      !(sum_of_perm _ _ _ Hm).
    done.
  - cbv zeta. rewrite !aggregate_eq.
    split; [by vm_compute|]. split; [by vm_compute|]. by vm_compute.
Qed.

(** X10.  The scanner is additive and symmetric: the count of an array
    put together from two is the sum of their counts, rearranging the
    entries changes nothing, and the count lies between zero and the number
    of nodes visited. *)
Theorem countMentions_additive :
  (∀ l1 l2,
     countMentionsInMessageContent (l1 ++ l2) =
     (a ← countMentionsInMessageContent l1;
      b ← countMentionsInMessageContent l2; mret (a + b))) ∧
  (∀ l l', l ≡ₚ l' →
     countMentionsInMessageContent l = countMentionsInMessageContent l') ∧
  (∀ l, ∃ n, countMentionsInMessageContent l = Ok n ∧
             0 ≤ n ≤ Z.of_nat (length (flat_map nodes_below l))).
Proof.
  split; [|split].
  - intros l1 l2. rewrite !countMentions_correct. cbn.
    by rewrite count_mention_nodes_app.
  - intros l l' Hp. rewrite !countMentions_correct.
    by rewrite (count_mention_nodes_perm _ _ Hp).
  - intros l. exists (count_mention_nodes l).
    split; [apply countMentions_correct|].
    unfold count_mention_nodes.
    pose proof (length_filter (λ n, is_mention_node n = true)
                  (flat_map nodes_below l)). lia.
Qed.

(** X11.  The counters of a row are consistent with its totals.  Each of
    them is stored as the double of an integer, and of these integers: a
    record is counted as active or as deleted, never as both, so the two
    counts together do not exceed the total of users, nor of groups; the groups
    connected to Slack are at most the groups, the resolved threads at most
    the threads, the participants at most the [userID] values met; and the
    counts of mentions, reactions and attachments are never negative. *)
Theorem counters_within_totals (users groups threads messages : list val) :
  ∃ (row : val)
    (users_total users_active users_deleted : Z)
    (groups_total groups_active groups_deleted groups_slack : Z)
    (threads_total threads_resolved participants : Z)
    (mentions reactions attachments : Z),
    aggregate users groups threads messages = Ok row ∧
    holds_count row "Total User Count" users_total ∧
    holds_count row "Active User Count" users_active ∧
    holds_count row "Deleted User Count" users_deleted ∧
    holds_count row "Total Group Count" groups_total ∧
    holds_count row "Active Group Count" groups_active ∧
    holds_count row "Deleted Group Count" groups_deleted ∧
    holds_count row "Slack Connected Group Count" groups_slack ∧
    holds_count row "Total Thread Count" threads_total ∧
    holds_count row "Total Resolved Thread Count" threads_resolved ∧
    holds_count row "Total Thread Participants Count" participants ∧
    holds_count row "Total Mention Messages Count" mentions ∧
    holds_count row "Total Reactions Count" reactions ∧
    holds_count row "Total Attachments Count" attachments ∧
    0 ≤ users_active ∧ 0 ≤ users_deleted ∧
    users_active + users_deleted ≤ users_total ∧
    0 ≤ groups_active ∧ 0 ≤ groups_deleted ∧
    groups_active + groups_deleted ≤ groups_total ∧
    0 ≤ groups_slack ≤ groups_total ∧
    0 ≤ threads_resolved ≤ threads_total ∧
    0 ≤ participants ≤ Z.of_nat (length (participant_ids threads)) ∧
    0 ≤ mentions ∧ 0 ≤ reactions ∧ 0 ≤ attachments.
Proof.
  clear Number_toString encodeURIComponent jwt_sign env argv_outputFile.
  exists (metrics_row users groups threads messages).
  eexists _, _, _, _, _, _, _, _, _, _, _, _, _.
  split; [apply aggregate_eq|].
  do 13 (split; [reflexivity|]).
  assert (Hstatus : ∀ s u, 0 ≤ has_status s u ≤ 1).
  { intros s u. unfold has_status. destruct (strict_eq _ _); lia. }
  assert (Hboth : ∀ u, 0 ≤ has_status "active" u + has_status "deleted" u ≤ 1).
  { intros u. unfold has_status.
    destruct (field u "status") as [| | | |s| |]; cbn [strict_eq]; try lia.
    destruct (String.eqb s "active") eqn:Ha;
      destruct (String.eqb s "deleted") eqn:Hd; try lia.
    apply String.eqb_eq in Ha, Hd. congruence. }
  assert (Hflag : ∀ k u, 0 ≤ flag k u ≤ 1).
  { intros k u. unfold flag. destruct (truthy _); lia. }
  assert (Hsum2 : ∀ l : list val,
    sum_of (has_status "active") l + sum_of (has_status "deleted") l
    ≤ Z.of_nat (length l)).
  { intros l. induction l as [|u l IH]; [done|].
    unfold sum_of in *. simpl length. simpl foldr.
    specialize (Hboth u). lia. }
  pose proof (sum_of_bounds (has_status "active") users (Hstatus _)).
  pose proof (sum_of_bounds (has_status "deleted") users (Hstatus _)).
  pose proof (sum_of_bounds (has_status "active") groups (Hstatus _)).
  pose proof (sum_of_bounds (has_status "deleted") groups (Hstatus _)).
  pose proof (sum_of_bounds (flag "connectToSlack") groups (Hflag _)).
  pose proof (sum_of_bounds (flag "resolved") threads (Hflag _)).
  pose proof (Hsum2 users). pose proof (Hsum2 groups).
  assert (0 ≤ sum_of mentions_in messages).
  { apply sum_of_nonneg. intros m. unfold mentions_in.
    destruct (field m "content"); try lia. unfold count_mention_nodes. lia. }
  assert (0 ≤ sum_of (array_length "reactions") messages).
  { apply sum_of_nonneg. intros m. unfold array_length.
    destruct (field m "reactions"); lia. }
  assert (0 ≤ sum_of (array_length "attachments") messages).
  { apply sum_of_nonneg. intros m. unfold array_length.
    destruct (field m "attachments"); lia. }
  assert (0 ≤ distinct_count (participant_ids threads)
          ≤ Z.of_nat (length (participant_ids threads))).
  { rewrite <- Set_size_add_all. unfold Set_size. split; [lia|].
    apply inj_le. generalize (participant_ids threads). intros ids.
    assert (Hlen : ∀ set, (length (add_all ids set) ≤ length set + length ids)%nat).
    { induction ids as [|v ids IH]; intros set; simpl; [lia|].
      change (add_all (v :: ids) set) with (add_all ids (Set_add v set)).
      specialize (IH (Set_add v set)). unfold Set_add in *.
      destruct (existsb _ set); rewrite ?length_app in IH; simpl in IH; lia. }
    specialize (Hlen []). simpl in Hlen. lia. }
  repeat split; lia.
Qed.

(** ** The run as a whole *)

Lemma startup_outcome (w : World) :
  (startup w = (Ok tt, w) ∨ (∃ e, startup w = (Throw e, w)) ∨
   (startup w).1 = Exit 1) ∧
  files (startup w).2 = files w.
Proof.
  unfold startup, mbind, M_mbind, M_bind, lift, throw, console_error,
    process_exit.
  remember env as e0 eqn:He. clear He.
  destruct e0 as [| |b|n|s|l|ps]; cbn; eauto.
  destruct (truthy (default VUndefined (lookup_prop "CUSTOMER_ID" ps))); cbn;
    [|eauto].
  destruct (truthy (default VUndefined (lookup_prop "CUSTOMER_SECRET" ps))); cbn;
    [|eauto].
  destruct (truthy argv_outputFile); cbn; eauto.
Qed.

(** What [main] does once the rows are there: it writes the file or it does
    not, and only an empty list of rows makes it throw. *)
Lemma main_output_outcome (applicationData : list (list val)) (w : World) :
  Forall is_entry applicationData →
  let result := main_output applicationData w in
  (result.1 = Ok tt ∧
   (files result.2 = files w ∨
    ∃ content, files result.2 = files w ++ [(argv_outputFile, content)])) ∨
  (applicationData = [] ∧
   result = (Throw (TypeError "Cannot read properties of undefined (reading '2')"),
             w)).
Proof.
  intros Hdata result. subst result.
  destruct applicationData as [|first more]; [by right|]. left.
  rewrite main_output_eq by done. cbv zeta.
  destruct (fs_error w); simpl; eauto.
Qed.

Lemma main_outcome (w : World) :
  let result := main w in
  (result.1 = Ok tt ∧
   (files result.2 = files w ∨
    ∃ content, files result.2 = files w ++ [(argv_outputFile, content)])) ∨
  (result.1 = Exit 1 ∧ files result.2 = files w) ∨
  ((result.1 = Throw (TypeError "Cannot read properties of undefined (reading '2')")
    ∨ result.1 = Throw no_conversion)
   ∧ files result.2 = files w).
Proof.
  cbv zeta.
  pose proof (listApplications_outcome w) as Hlist.
  destruct (keeps_files_listApplications w) as [_ Hfiles1].
  destruct (listApplications w) as [[applications|e|c|] w1] eqn:Hrun;
    simpl in Hlist, Hfiles1; try done.
  - rewrite (main_eq w w1 applications Hrun).
    destruct (truthy applications && Array_isArray applications);
      [|right; left; by simpl].
    pose proof (main_loop_outcome (elements applications) []
                  (loop_start applications w1)) as Hloop.
    destruct (keeps_files_main_loop (elements applications) []
                (loop_start applications w1)) as [_ Hfiles2].
    destruct (main_loop _ [] _) as [[data|e|c|] w2] eqn:Hrun2;
      simpl in Hloop, Hfiles2; try done.
    + destruct (main_loop_entries _ _ _ _ _ Hrun2 (Forall_nil_2 _)) as [Hentries _].
      destruct (main_output_outcome data w2 Hentries) as [[Hok Hf]|[-> Hthrow]].
      * left. split; [done|]. rewrite <- Hfiles1, <- Hfiles2. exact Hf.
      * right. right. rewrite Hthrow. simpl. split; [by left|congruence].
    + right. right. subst e. simpl. split; [by right|congruence].
    + right. left. destruct c as [|[]|]; try done. simpl. split; [done|congruence].
  - right. left. destruct c as [|[]|]; try done.
    unfold main. erewrite M_bind_Exit by exact Hrun. by simpl.
Qed.

(** X12.  The output is written whole or not at all: a run that does not
    complete leaves the file system as it found it, and a run that
    completes has written at most one file, the one named on the command
    line. *)
Theorem output_is_all_or_nothing (w : World) :
  let result := program w in
  (result.1 ≠ Completed → files result.2 = files w) ∧
  (files result.2 = files w ∨
   ∃ content, files result.2 = files w ++ [(argv_outputFile, content)]).
Proof.
  cbv zeta. unfold program.
  destruct (startup_outcome w) as [[Hs|[[e Hs]|Hs]] Hfiles].
  - rewrite Hs.
    destruct (main_outcome w) as [[Hok Hf]|[[Hex Hf]|[[Hth|Hth] Hf]]];
      cbv zeta in *;
      destruct (main w) as [[[]|e|c|] w2]; simpl in *; simplify_eq;
      (split; [done|eauto]).
  - rewrite Hs. simpl. eauto.
  - destruct (startup w) as [[[]|e|c|] w1]; simpl in *; simplify_eq; eauto.
Qed.

(** X13.  A run ends in one of these ways and no other: it completes; the
    process exits with code 1; one of the start-up checks throws; or [main]
    fails on one of two [TypeError]s, that of [applicationData[0][2]] when
    there is no row to take the column names from, and that of line 468
    when the name or the identifier of an application has no string
    conversion.  The latter is thrown in front of the [try] of the loop, so
    it is not reported and no exit code is set: an application that is not
    excluded and whose identifier is an object with a property [toString]
    ends the run that way, before anything is requested for it.  No other
    exception of the fetches, of the aggregation or of the rendering
    escapes, and no exit code other than 1 is ever passed to
    [process.exit]. *)
Theorem run_outcomes :
  (∀ w : World,
     let outcome := (program w).1 in
     outcome = Completed ∨
     outcome = Exited 1 ∨
     (∃ e, outcome = UncaughtException e ∧ startup w = (Throw e, w)) ∨
     ((outcome = UnhandledRejection
         (TypeError "Cannot read properties of undefined (reading '2')") ∨
       outcome = UnhandledRejection no_conversion) ∧
      startup w = (Ok tt, w))) ∧
  (∀ (a : val) (rest : list val) (acc : list (list val)) (w : World),
     is_object a = true → excluded (field a "id") = false →
     printable (field a "name") && printable (field a "id") = false →
     main_loop (a :: rest) acc w =
     (Throw no_conversion, set_state (state_idx w + 1) (state_total w) w)) ∧
  (∀ (w w1 : World) (a : val) (rest : list val),
     startup w = (Ok tt, w) →
     listApplications w = (Ok (VArr (a :: rest)), w1) →
     is_object a = true → excluded (field a "id") = false →
     printable (field a "name") && printable (field a "id") = false →
     (program w).1 = UnhandledRejection no_conversion ∧
     requests (program w).2 = requests w1 ∧ files (program w).2 = files w1).
Proof.
  split; [|split].
  - intros w. cbv zeta. unfold program.
    destruct (startup_outcome w) as [[Hs|[[e Hs]|Hs]] _].
    + rewrite Hs.
      destruct (main_outcome w) as [[Hok _]|[[Hex _]|[[Hth|Hth] _]]];
        cbv zeta in *;
        destruct (main w) as [[[]|e|c|] w2]; simpl in *; simplify_eq; eauto 6.
    + rewrite Hs. simpl. eauto 6.
    + destruct (startup w) as [[[]|e|c|] w1]; simpl in *; simplify_eq; eauto.
  - intros a rest acc w. apply main_loop_cons_unprintable.
  - intros w w1 a rest Hstart Hlist Hobj Hex Hp.
    rewrite (program_started w Hstart), (main_eq w w1 _ Hlist).
    cbn [truthy Array_isArray andb elements].
    by rewrite main_loop_cons_unprintable.
Qed.

(** *** The list of applications, when it arrives *)

Lemma flaky_nil_inv (noisy : list Reply) : flaky [] noisy → noisy = [].
Proof. by inversion 1. Qed.

(** X18.  When the request for the applications is answered with status
    200, at once or after one failed attempt, [listApplications] returns the
    body of that response as it is, whatever it holds: the check that it is
    an array is left to [main].  Each attempt carries a token signed for the
    customer with the customer's secret and valid for one minute. *)
Theorem listApplications_returns_the_body
    (w : World) (resp : Response) (noisy rest : list Reply) :
  is_object env = true →
  flaky [HttpReply resp] noisy →
  net w = noisy ++ rest →
  status resp = 200 →
  let result := listApplications w in
  result.1 = Ok (data resp) ∧
  net result.2 = rest ∧
  requests result.2 = requests w ++
    replicate (length noisy)
      (applications_request
         (jwt_sign [("customer_id", field env "CUSTOMER_ID")]
                   (field env "CUSTOMER_SECRET") "HS512" "1 min")).
Proof.
  intros Henv Hflaky Hnet Hst result.
  inversion Hflaky as [|x clean noisy' Hrest|bad x e clean noisy' Hbad Hrest];
    subst; apply flaky_nil_inv in Hrest as ->.
  - destruct (listApplications_Ok w resp rest Henv Hnet Hst)
      as (w' & Hrun & Hnet' & Hreq & _).
    subst result. by rewrite Hrun.
  - remember (listApplications w) as run eqn:Hrun. subst result.
    unfold listApplications, try_catch, makeCustomerToken in Hrun.
    rewrite !js_get_field in Hrun by done.
    cbn [mbind res_mbind res_bind mret res_mret] in Hrun.
    unfold mbind at 1, M_mbind, M_bind in Hrun.
    rewrite autoRetry_eq in Hrun. erewrite lift_bind_Ok in Hrun by reflexivity.
    rewrite axios_get_eq, Hnet in Hrun. cbn [head app] in Hrun.
    rewrite Hbad in Hrun. erewrite lift_bind_Ok in Hrun by reflexivity.
    rewrite axios_get_eq in Hrun.
    cbn [net set_net push_request push_console tail head settle] in Hrun.
    rewrite Hst in Hrun. cbn in Hrun. rewrite Hst in Hrun. subst run. cbn.
    by rewrite <- !app_assoc.
Qed.

(** *** Where the requests of a whole run go *)

Lemma only_requests_autoRetry {A} (P : Request → Prop) (func : M A) :
  only_requests P func → only_requests P (autoRetry func).
Proof.
  intros H. unfold autoRetry, console_error_exn, console_error. only_requests.
Qed.

Lemma only_requests_silent {A} (P : Request → Prop) (m : M A) :
  (∀ w, requests (m w).2 = requests w) → only_requests P m.
Proof. intros H w. exists []. by rewrite app_nil_r. Qed.

Lemma only_requests_generateApplicationAnalytics (P : Request → Prop)
    (debugName : string) (app : val) :
  (∀ r, plural r ∈ ["users"; "threads"; "messages"] →
        ∀ token cursor, P (page_request r token cursor)) →
  (∀ token, P (groups_request token)) →
  only_requests P (generateApplicationAnalytics debugName app).
Proof.
  intros Hpage Hgroups. unfold generateApplicationAnalytics, lift, throw.
  apply only_requests_bind; [only_requests|intros []]; [|only_requests].
  apply only_requests_bind; [only_requests|intros id].
  apply only_requests_bind; [only_requests|intros secret]. cbv zeta.
  apply only_requests_bind;
    [apply only_requests_getPaginated, Hpage; set_solver|intros users].
  apply only_requests_bind;
    [apply only_requests_getGroups, Hgroups|intros groups].
  apply only_requests_bind;
    [apply only_requests_getPaginated, Hpage; set_solver|intros threads].
  apply only_requests_bind;
    [apply only_requests_getPaginated, Hpage; set_solver|intros messages].
  only_requests.
Qed.

Lemma only_requests_main_loop (P : Request → Prop) (applications : list val) :
  (∀ r, plural r ∈ ["users"; "threads"; "messages"] →
        ∀ token cursor, P (page_request r token cursor)) →
  (∀ token, P (groups_request token)) →
  ∀ acc, only_requests P (main_loop applications acc).
Proof.
  intros Hpage Hgroups.
  induction applications as [|a rest IH]; intros acc; [apply only_requests_pure|].
  cbn [main_loop].
  unfold lift, log, console_error, console_error_exn, process_exit.
  destruct (is_object a); [|only_requests].
  apply only_requests_bind; [by apply only_requests_silent|intros _].
  apply only_requests_bind; [only_requests|intros id].
  destruct (excluded id); [apply IH|].
  apply only_requests_bind; [only_requests|intros name].
  apply only_requests_bind; [only_requests|intros nameText].
  apply only_requests_bind; [only_requests|intros idText].
  cbv zeta. apply only_requests_bind; [only_requests|intros _].
  apply only_requests_bind; [|intros entry; apply IH].
  apply only_requests_try_catch; [|intros e; only_requests].
  apply only_requests_bind;
    [by apply only_requests_generateApplicationAnalytics
    |intros metrics; only_requests].
Qed.

Lemma only_requests_listApplications (P : Request → Prop) :
  (∀ token, P {| url := "https://api.cord.com/v1/applications";
                 config := makeAxiosAuthHeaders token |}) →
  only_requests P listApplications.
Proof.
  intros HP.
  unfold listApplications, lift, throw, console_error, console_error_exn,
    process_exit.
  apply only_requests_try_catch; [|intros e; only_requests].
  apply only_requests_bind; [|intros resp; only_requests].
  apply only_requests_autoRetry.
  apply only_requests_bind; [only_requests|intros token].
  apply only_requests_axios_get, HP.
Qed.

Lemma only_requests_main_output (P : Request → Prop)
    (applicationData : list (list val)) :
  only_requests P (main_output applicationData).
Proof.
  unfold main_output, lift, console_error, console_error_exn, console_log.
  apply only_requests_bind; [only_requests|intros first].
  apply only_requests_bind; [only_requests|intros keys].
  apply only_requests_bind; [only_requests|intros header].
  apply only_requests_bind; [only_requests|intros rows]. cbv zeta.
  apply only_requests_bind; [|intros _; only_requests].
  apply only_requests_try_catch; [|intros e; only_requests].
  apply only_requests_silent. intros w. unfold writeFileSync.
  by destruct (fs_error w).
Qed.

Lemma only_requests_main (P : Request → Prop) :
  (∀ token, P {| url := "https://api.cord.com/v1/applications";
                 config := makeAxiosAuthHeaders token |}) →
  (∀ r, plural r ∈ ["users"; "threads"; "messages"] →
        ∀ token cursor, P (page_request r token cursor)) →
  (∀ token, P (groups_request token)) →
  only_requests P main.
Proof.
  intros Hlist Hpage Hgroups. unfold main, console_error, process_exit.
  apply only_requests_bind;
    [by apply only_requests_listApplications|intros applications].
  destruct (truthy applications && Array_isArray applications); [|only_requests].
  apply only_requests_bind; [by apply only_requests_silent|intros _].
  apply only_requests_bind;
    [by apply only_requests_main_loop|intros applicationData].
  apply only_requests_main_output.
Qed.

Lemma only_requests_startup (P : Request → Prop) : only_requests P startup.
Proof.
  unfold startup, lift, throw, console_error, process_exit.
  apply only_requests_bind; [only_requests|intros customer_id].
  destruct (negb (truthy customer_id)); [only_requests|].
  apply only_requests_bind; [only_requests|intros customer_secret].
  destruct (negb (truthy customer_secret)); [only_requests|].
  destruct (negb (truthy argv_outputFile)); only_requests.
Qed.

(** X15.  Every request of a whole run goes to one of the five resource
    addresses under https://api.cord.com/v1/ and carries a bearer token; and
    a run that does not pass the start-up checks sends none. *)
Theorem requests_go_to_the_api (w : World) :
  ∃ new,
    requests (program w).2 = requests w ++ new ∧
    Forall api_request new ∧
    ((startup w).1 ≠ Ok tt → new = []).
Proof.
  assert (Hmain : only_requests api_request main).
  { apply only_requests_main.
    - intros token. split; [|by eexists].
      exists "applications", "". split; [set_solver|done].
    - intros r Hr token cursor. split; [|by eexists].
      exists (plural r), ("?limit=" +:+ encodeURIComponent (VNum (Number (limit r)))
        +:+ (if negb (strict_eq cursor VNull)
             then "&token=" +:+ encodeURIComponent cursor else "")).
      split; [set_solver|done].
    - intros token. split; [|by eexists].
      exists "groups", "". split; [set_solver|done]. }
  destruct (only_requests_startup (λ _, False) w) as (none & Hstart & Hnone).
  destruct none as [|q none]; [|by apply Forall_inv in Hnone].
  rewrite app_nil_r in Hstart.
  unfold program.
  destruct (startup w) as [[[]|e|c|] w1]; simpl in *.
  - destruct (Hmain w1) as (new & Hreq & Hnew).
    exists new. rewrite <- Hstart.
    destruct (main w1) as [[[]|e|c|] w2]; simpl in *; by repeat split.
  - exists []. rewrite app_nil_r. by repeat split.
  - exists []. rewrite app_nil_r. by repeat split.
  - exists []. rewrite app_nil_r. by repeat split.
Qed.

(** *** The counters in front of the lines of [log] *)

Lemma console_frame_bind {A B} (P : Z → Z → ConsoleLine → Prop)
    (m : M A) (f : A → M B) :
  console_frame P m → (∀ a, console_frame P (f a)) → console_frame P (m ≫= f).
Proof.
  intros Hm Hf w. destruct (Hm w) as (new1 & Hc1 & HP1 & Hi1 & Ht1).
  unfold mbind, M_mbind, M_bind.
  destruct (m w) as [[a| | |] w1]; simpl in *; eauto.
  destruct (Hf a w1) as (new2 & Hc2 & HP2 & Hi2 & Ht2).
  rewrite Hi1, Ht1 in HP2.
  exists (new1 ++ new2). rewrite Hc2, Hc1, <- app_assoc.
  split; [done|]. split; [by apply Forall_app|]. split; congruence.
Qed.

Lemma console_frame_pure {A} (P : Z → Z → ConsoleLine → Prop) (r : res A) :
  console_frame P (λ w, (r, w)).
Proof. intros w. exists []. by rewrite app_nil_r. Qed.

Lemma console_frame_line {A} (P : Z → Z → ConsoleLine → Prop) (r : res A)
    (line : World → ConsoleLine) :
  (∀ w, P (state_idx w) (state_total w) (line w)) →
  console_frame P (λ w, (r, push_console (line w) w)).
Proof.
  intros HP w. exists [line w]. simpl. split; [done|].
  split; [by apply Forall_singleton|done].
Qed.

Lemma console_frame_try_catch {A} (P : Z → Z → ConsoleLine → Prop)
    (m : M A) (handler : exn → M A) :
  console_frame P m → (∀ e, console_frame P (handler e)) →
  console_frame P (try_catch m handler).
Proof.
  intros Hm Hh w. destruct (Hm w) as (new1 & Hc1 & HP1 & Hi1 & Ht1).
  unfold try_catch.
  destruct (m w) as [[a|e| |] w1]; simpl in *; eauto.
  destruct (Hh e w1) as (new2 & Hc2 & HP2 & Hi2 & Ht2).
  rewrite Hi1, Ht1 in HP2.
  exists (new1 ++ new2). rewrite Hc2, Hc1, <- app_assoc.
  split; [done|]. split; [by apply Forall_app|]. split; congruence.
Qed.

Lemma console_frame_axios_get (P : Z → Z → ConsoleLine → Prop)
    (u : string) (cfg : AxiosConfig) :
  console_frame P (axios_get u cfg).
Proof.
  intros w. rewrite axios_get_eq. exists []. simpl. by rewrite app_nil_r.
Qed.

Ltac console_frame :=
  repeat first
    [ assumption
    | apply console_frame_bind; [|intros ?]
    | apply console_frame_try_catch; [|intros ?]
    | apply console_frame_axios_get
    | apply console_frame_pure
    | apply (console_frame_line _ (Ok tt)); by intros ?
    | match goal with
      | |- console_frame _ (if ?b then _ else _) => destruct b
      | |- console_frame _ (match ?x with _ => _ end) => destruct x
      | |- console_frame _ (let _ := _ in _) => cbv zeta
      end ].

Lemma console_frame_autoRetry {A} (P : Z → Z → ConsoleLine → Prop) (func : M A) :
  (∀ i t c, unstamped i t c → P i t c) →
  console_frame P func → console_frame P (autoRetry func).
Proof.
  intros HP H. unfold autoRetry, console_error_exn, console_error.
  apply console_frame_try_catch; [done|intros e].
  apply console_frame_bind;
    [apply (console_frame_line _ (Ok tt)); by intros w; apply HP|intros _].
  apply console_frame_bind;
    [apply (console_frame_line _ (Ok tt)); by intros w; apply HP|intros _].
  done.
Qed.

Lemma stamped_unstamped (i t : Z) (c : ConsoleLine) : unstamped i t c → stamped i t c.
Proof. by destruct c. Qed.

Lemma console_frame_fetch_loop (r : Resource) (token : string) (fuel : nat) :
  ∀ items cursor, console_frame stamped (fetch_loop r token fuel items cursor).
Proof.
  induction fuel as [|fuel IH]; intros items cursor; [apply console_frame_pure|].
  cbn [fetch_loop]. apply console_frame_bind.
  - unfold fetch_page, lift, throw, log, console_error_resp.
    apply console_frame_bind;
      [apply console_frame_autoRetry;
         [apply stamped_unstamped|apply console_frame_axios_get]
      |intros resp].
    console_frame.
  - intros [items' cursor']. destruct (negb _); [apply IH|].
    apply console_frame_pure.
Qed.

Lemma console_frame_getPaginated (r : Resource) (debugName token : string) :
  console_frame stamped (getPaginated r debugName token).
Proof.
  unfold getPaginated, log, replies_left.
  apply console_frame_bind; [console_frame|intros _].
  apply console_frame_bind;
    [intros w; exists []; by rewrite app_nil_r|intros n].
  apply console_frame_fetch_loop.
Qed.

Lemma console_frame_getGroups (debugName token : string) :
  console_frame stamped (getGroups debugName token).
Proof.
  unfold getGroups, log, throw, console_error_resp.
  apply console_frame_bind; [console_frame|intros _].
  apply console_frame_bind;
    [apply console_frame_autoRetry;
       [apply stamped_unstamped|apply console_frame_axios_get]
    |intros resp].
  console_frame.
Qed.

Lemma console_frame_generateApplicationAnalytics (debugName : string) (app : val) :
  console_frame stamped (generateApplicationAnalytics debugName app).
Proof.
  unfold generateApplicationAnalytics, lift, throw.
  apply console_frame_bind; [console_frame|intros []]; [|console_frame].
  apply console_frame_bind; [console_frame|intros id].
  apply console_frame_bind; [console_frame|intros secret]. cbv zeta.
  apply console_frame_bind; [apply console_frame_getPaginated|intros users].
  apply console_frame_bind; [apply console_frame_getGroups|intros groups].
  apply console_frame_bind; [apply console_frame_getPaginated|intros threads].
  apply console_frame_bind; [apply console_frame_getPaginated|intros messages].
  console_frame.
Qed.

Lemma console_frame_listApplications : console_frame unstamped listApplications.
Proof.
  unfold listApplications, lift, throw, console_error, console_error_exn,
    process_exit.
  apply console_frame_try_catch; [|intros e; console_frame].
  apply console_frame_bind; [|intros resp; console_frame].
  apply console_frame_autoRetry; [done|]. console_frame.
Qed.

Lemma console_frame_main_output (applicationData : list (list val)) :
  console_frame unstamped (main_output applicationData).
Proof.
  unfold main_output, lift, console_error, console_error_exn, console_log.
  apply console_frame_bind; [console_frame|intros first].
  apply console_frame_bind; [console_frame|intros keys].
  apply console_frame_bind; [console_frame|intros header].
  apply console_frame_bind; [console_frame|intros rows]. cbv zeta.
  apply console_frame_bind; [|intros _; console_frame].
  apply console_frame_try_catch; [|intros e; console_frame].
  intros w. unfold writeFileSync. exists []. rewrite app_nil_r.
  by destruct (fs_error w).
Qed.

Lemma console_frame_startup : console_frame unstamped startup.
Proof.
  unfold startup, lift, throw, console_error, process_exit.
  apply console_frame_bind; [console_frame|intros customer_id].
  destruct (negb (truthy customer_id)); [console_frame|].
  apply console_frame_bind; [console_frame|intros customer_secret].
  destruct (negb (truthy customer_secret)); [console_frame|].
  destruct (negb (truthy argv_outputFile)); console_frame.
Qed.

(** The lines of [log] printed by the loop carry the counter of the
    application at hand, which runs from the one after the counter the loop
    started at up to that counter plus the length of the list. *)
Lemma main_loop_console (applications : list val) :
  ∀ (acc : list (list val)) (w : World),
    ∃ new,
      console (main_loop applications acc w).2 = console w ++ new ∧
      Forall (λ c, match c with
                   | Log i t _ =>
                       state_idx w < i ≤ state_idx w + Z.of_nat (length applications)
                       ∧ t = state_total w
                   | _ => True
                   end) new.
Proof.
  induction applications as [|a rest IH]; intros acc w.
  { exists []. simpl. by rewrite app_nil_r. }
  destruct (is_object a) eqn:Hobj.
  2:{ rewrite main_loop_cons_malformed by done. simpl.
      eexists. split; [done|]. by apply Forall_singleton. }
  destruct (excluded (field a "id")) eqn:Hex.
  - rewrite main_loop_cons_excluded by done.
    destruct (IH acc (set_state (state_idx w + 1) (state_total w) w))
      as (new & Hc & Hnew).
    exists new. split; [done|].
    eapply Forall_impl; [exact Hnew|]. intros [i t s| | | |]; try done.
    simpl. rewrite Nat2Z.inj_succ. lia.
  - destruct (printable (field a "name") && printable (field a "id")) eqn:Hp.
    2:{ rewrite main_loop_cons_unprintable by done. exists [].
        simpl. by rewrite app_nil_r. }
    rewrite main_loop_cons_run by done.
    destruct (console_frame_generateApplicationAnalytics (debugName_of a) a
                (announced a w)) as (new1 & Hc1 & Hnew1 & Hi1 & Ht1).
    assert (Hin : Forall (λ c, match c with
                   | Log i t _ =>
                       state_idx w < i ≤ state_idx w + Z.of_nat (length (a :: rest))
                       ∧ t = state_total w
                   | _ => True
                   end) (Log (state_idx w + 1) (state_total w)
                           ("Generating analytics for app " +:+ debugName_of a)
                         :: new1)).
    { constructor; [cbn [length]; rewrite Nat2Z.inj_succ; lia|].
      eapply Forall_impl; [exact Hnew1|]. intros [i t s| | | |]; try done.
      cbn [length]. rewrite Nat2Z.inj_succ. simpl. lia. }
    destruct (generateApplicationAnalytics _ a _) as [[metrics|e|c|] w2];
      simpl in Hc1, Hi1, Ht1.
    + destruct (IH (acc ++ [[field a "id"; field a "name"] ++ metrics]) w2)
        as (new2 & Hc2 & Hnew2).
      eexists (_ :: new1 ++ new2).
      rewrite Hc2, Hc1. simpl. rewrite <- !app_assoc. split; [done|].
      rewrite app_comm_cons. apply Forall_app. split; [exact Hin|].
      eapply Forall_impl; [exact Hnew2|]. intros [i t s| | | |]; try done.
      rewrite Hi1, Ht1. cbn [length]. rewrite Nat2Z.inj_succ. lia.
    + eexists (_ :: new1 ++ [_; _]). simpl. rewrite Hc1. simpl.
      rewrite <- !app_assoc. split; [done|].
      rewrite app_comm_cons. apply Forall_app. split; [exact Hin|].
      by repeat constructor.
    + eexists (_ :: new1). simpl. rewrite Hc1. simpl.
      rewrite <- !app_assoc. by split.
    + eexists (_ :: new1). simpl. rewrite Hc1. simpl.
      rewrite <- !app_assoc. by split.
Qed.

Lemma within_total_unstamped (i t : Z) (new : list ConsoleLine) :
  Forall (unstamped i t) new → Forall within_total new.
Proof. intros H. eapply Forall_impl; [exact H|]. by intros []. Qed.

Lemma main_console (w : World) :
  state_idx w = 0 →
  ∃ new, console (main w).2 = console w ++ new ∧ Forall within_total new.
Proof.
  intros Hidx.
  destruct (console_frame_listApplications w) as (new1 & Hc1 & Hnew1 & Hi1 & Ht1).
  apply within_total_unstamped in Hnew1.
  destruct (listApplications w) as [[applications|e|c|] w1] eqn:Hlist;
    simpl in Hc1, Hi1, Ht1.
  2-4: unfold main, mbind, M_mbind, M_bind; rewrite Hlist; simpl; eauto.
  rewrite (main_eq w w1 applications Hlist).
  destruct (truthy applications && Array_isArray applications).
  2:{ simpl. rewrite Hc1. eexists (new1 ++ [_]). rewrite <- app_assoc.
      split; [done|]. apply Forall_app. split; [done|]. by repeat constructor. }
  destruct (main_loop_console (elements applications) []
              (loop_start applications w1)) as (new2 & Hc2 & Hnew2).
  assert (Hnew2' : Forall within_total new2).
  { eapply Forall_impl; [exact Hnew2|]. intros [i t s| | | |]; try done.
    simpl. lia. }
  destruct (main_loop _ [] _) as [[data|e|c|] w2]; simpl in Hc2.
  2-4: exists (new1 ++ new2); simpl; rewrite Hc2, Hc1, <- app_assoc;
       split; [done|by apply Forall_app].
  destruct (console_frame_main_output data w2) as (new3 & Hc3 & Hnew3 & _).
  apply within_total_unstamped in Hnew3.
  exists (new1 ++ new2 ++ new3). rewrite Hc3, Hc2. simpl.
  rewrite Hc1, <- !app_assoc. split; [done|].
  apply Forall_app. split; [done|]. by apply Forall_app.
Qed.

(** X16.  In a run that starts with the counter at zero, as the script sets
    it, every line printed by [log] has a counter between 1 and the total:
    nothing is logged before the total is set, so the percentage in front of
    a line is never computed from a total of zero and never exceeds 100. *)
Theorem progress_lines_within_total (w : World) :
  state_idx w = 0 →
  ∃ new, console (program w).2 = console w ++ new ∧ Forall within_total new.
Proof.
  intros Hidx.
  destruct (console_frame_startup w) as (new0 & Hc0 & Hnew0 & Hi0 & Ht0).
  apply within_total_unstamped in Hnew0.
  unfold program.
  destruct (startup w) as [[[]|e|c|] w1]; simpl in Hc0, Hi0, Ht0; simpl; eauto.
  destruct (main_console w1) as (new & Hc & Hnew); [congruence|].
  exists (new0 ++ new). rewrite Hc0, <- app_assoc in Hc.
  destruct (main w1) as [[[]|e|c|] w2]; simpl in *;
    (split; [done|by apply Forall_app]).
Qed.

(** *** The lines of the output *)

Lemma plain_row_metrics (id name : string) (users groups threads messages : list val) :
  plain_row [VStr id; VStr name; metrics_row users groups threads messages].
Proof.
  exists id, name,
    [ Number (Z.of_nat (length users));
      Number (sum_of (has_status "active") users);
      Number (sum_of (has_status "deleted") users);
      Number (Z.of_nat (length groups));
      Number (sum_of (has_status "active") groups);
      Number (sum_of (has_status "deleted") groups);
      Number (sum_of (flag "connectToSlack") groups);
      Number (Z.of_nat (length threads));
      Number (sum_of (flag "resolved") threads);
      number_sum (numbers_in "total" threads);
      number_sum (numbers_in "deletedMessages" threads);
      number_sum (numbers_in "userMessages" threads);
      number_sum (numbers_in "actionMessages" threads);
      Number (distinct_count (participant_ids threads));
      Number (Z.of_nat (length messages));
      Number (sum_of mentions_in messages);
      Number (sum_of (array_length "reactions") messages);
      Number (sum_of (array_length "attachments") messages) ].
  repeat split.
Qed.

Lemma main_loop_plain (applications : list val) :
  ∀ (acc data : list (list val)) (w w' : World),
    main_loop applications acc w = (Ok data, w') →
    Forall plain_row acc → Forall plain_row data.
Proof.
  induction applications as [|a rest IH]; intros acc data w w' Hrun Hacc.
  - by injection Hrun as <- <-.
  - revert Hrun. main_loop_cases a Hobj Hex Hp; try done; intros Hrun.
    + by apply (IH _ _ _ _ Hrun).
    + destruct (generateApplicationAnalytics _ a _) as [[metrics|e|c|] w2] eqn:Hgen;
        try done.
      pose proof (generateApplicationAnalytics_valid _ _ _ _ _ Hgen) as Hvalid.
      apply is_application_strings in Hvalid as (id & name & Hid & Hname).
      apply generateApplicationAnalytics_Ok in Hgen as (u & g & t & m & ->).
      apply IH in Hrun; [done|].
      apply Forall_app. split; [done|]. apply Forall_singleton.
      rewrite Hid, Hname. apply plain_row_metrics.
Qed.

(** X17.  The line written for an application is its identifier and its
    name exactly as the API gave them, both strings, followed by the texts
    the engine gives the eighteen numbers of the row, with commas in
    between: nothing is quoted or escaped, so a comma or a line feed in a
    name goes into the file as it is. *)
Theorem rows_are_written_verbatim
    (applications : list val) (data : list (list val)) (w w' : World) :
  main_loop applications [] w = (Ok data, w') →
  Forall plain_row data.
Proof. intros Hrun. by apply (main_loop_plain _ _ _ _ _ Hrun). Qed.

End Script.

(** * The statements at work on sample inputs *)

Lemma countMentionsInMessageContent_spec_witness :
  countMentionsInMessageContent [mention_chain 0; mention_chain 0] = Ok 2 ∧
  countMentionsInMessageContent [VNum (Number 7); mention_chain 2] =
    countMentionsInMessageContent [mention_chain 2] ∧
  countMentionsInMessageContent [VObj [("type", VStr "p")]; mention_chain 0] =
    (n ← countMentionsInMessageContent [mention_chain 0]; mret (0 + n)) ∧
  countMentionsInMessageContent
    [VObj [("type", VStr "p"); ("children", VArr [mention_chain 1])]] =
    (below ← countMentionsInMessageContent [mention_chain 1];
     n ← countMentionsInMessageContent []; mret (below + n)).
Proof.
  destruct countMentionsInMessageContent_spec as (_ & _ & Hflat & _ & Hprim & Hleaf & Hdesc).
  split; [|split; [|split]].
  - apply (Hflat [mention_chain 0; mention_chain 0]).
    repeat (constructor; [split; reflexivity|]). constructor.
  - apply (Hprim (VNum (Number 7)) [mention_chain 2]). reflexivity.
  - apply (Hleaf (VObj [("type", VStr "p")]) [mention_chain 0]). reflexivity.
  - apply (Hdesc (VObj [("type", VStr "p"); ("children", VArr [mention_chain 1])])
                 [mention_chain 1] []); reflexivity.
Defined.

Lemma autoRetry_retries_once_witness :
  let down := [NetworkError "ECONNRESET"; NetworkError "ETIMEDOUT";
               ok_reply (page_body users_resource [] VNull (VNum (Number 0)))] in
  let result := fetch_loop example_Number_toString example_encodeURIComponent users_resource "token" 1 [] VNull
                  (fresh_world down None) in
  result.1 = Throw (AxiosError "ETIMEDOUT") ∧
  requests result.2 =
    [ page_request example_encodeURIComponent users_resource "token" VNull;
      page_request example_encodeURIComponent users_resource "token" VNull ] ∧
  net result.2 = [ok_reply (page_body users_resource [] VNull (VNum (Number 0)))].
Proof.
  destruct (autoRetry_retries_once example_Number_toString example_encodeURIComponent) as (_ & _ & H).
  apply (H users_resource "token" 0%nat [] VNull
           (fresh_world [NetworkError "ECONNRESET"; NetworkError "ETIMEDOUT";
                         ok_reply (page_body users_resource [] VNull (VNum (Number 0)))]
                        None)
           (AxiosError "ECONNRESET") (AxiosError "ETIMEDOUT")); reflexivity.
Defined.




Lemma participants_counted_once_witness :
  metric "Total Thread Participants Count"
         (aggregate [] [] ([thread_with ["u1"; "u2"]] ++ [thread_with ["u2"; "u1"]]) [])
  = metric "Total Thread Participants Count"
         (aggregate [] [] [thread_with ["u1"; "u2"]] []).
Proof.
  destruct (participants_counted_once [] [] [thread_with ["u1"; "u2"]] [])
    as (_ & H & _).
  apply (H (thread_with ["u2"; "u1"])).
  repeat (constructor; [split; [reflexivity|]|]).
  - apply list_elem_of_In. simpl. tauto.
  - apply list_elem_of_In. simpl. tauto.
  - constructor.
Defined.

Lemma tolerant_reduction_witness :
  numeric "total" (VObj [("total", VStr "not-a-number")]) = None ∧
  metric "Total Message Count"
    (aggregate [] []
       ([thread_of (Number 5)] ++ VObj [("total", VStr "not-a-number")]
        :: [thread_of (Number 2)]) [])
  = metric "Total Message Count"
      (aggregate [] [] ([thread_of (Number 5)] ++ [thread_of (Number 2)]) []) ∧
  array_length "reactions" (VObj [("reactions", VNum (Number 3))]) = 0 ∧
  mentions_in (VObj [("content", VStr "hello")]) = 0 ∧
  participant_ids [VObj [("participants", VBool true)]] = [] ∧
  has_status "active" (VObj [("status", VNum (Number 1))]) = 0 ∧
  flag "resolved" (VObj []) = 0.
Proof.
  destruct (tolerant_reduction [] [] [] [])
    as (_ & Hnum & Hsums & Harr & Hcontent & Hpart & Hstatus & _ & Hflag & _).
  split; [|split; [|split; [|split; [|split; [|split]]]]].
  - apply Hnum. reflexivity.
  - apply (Forall_inv Hsums [thread_of (Number 5)] [thread_of (Number 2)]
             (VObj [("total", VStr "not-a-number")])).
    reflexivity.
  - apply Harr. reflexivity.
  - apply Hcontent. reflexivity.
  - apply Hpart. reflexivity.
  - apply Hstatus. simpl. discriminate.
  - apply Hflag. reflexivity.
Defined.

(** C7, as stated, fails for the flags: a [connectToSlack] that holds a
    string, not a boolean, counts the group as connected. *)
Lemma wrong_typed_flag_is_counted :
  let g := VObj [("connectToSlack", VStr "no")] in
  typeof (field g "connectToSlack") = "string" ∧
  metric "Slack Connected Group Count" (aggregate [] [g] [] [])
    = Some (VNum (Number 1)) ∧
  metric "Slack Connected Group Count" (aggregate [] [g] [] [])
    ≠ Some (VNum (Number 0)).
Proof.
  cbv zeta. split; [reflexivity|]. split; [reflexivity|].
  vm_compute. discriminate.
Qed.

Lemma columns_follow_first_row_witness :
  ∃ w3,
    program example_Number_toString example_encodeURIComponent example_jwt_sign example_env example_outputFile
            (fresh_world example_script None) = (Completed, w3) ∧
    files w3 =
      [(example_outputFile,
        String.concat newline
          [ String.concat "," ("ID" :: "Name" :: metric_names);
            "app1,App One,3,2,1,1,0,0,1,1,1,5,0,0,0,0,3,1,2,0" ]
        +:+ newline)].
Proof.
  edestruct (columns_follow_first_row example_Number_toString example_encodeURIComponent example_jwt_sign example_env
               example_outputFile (fresh_world example_script None))
    as (first & keys & w3 & Hhead & Hkeys & -> & Hprog & Hfiles & Horder).
  - vm_compute. reflexivity.
  - vm_compute. reflexivity.
  - vm_compute. reflexivity.
  - vm_compute. reflexivity.
  - discriminate.
  - vm_compute. reflexivity.
  - exists w3. split; [exact Hprog|]. rewrite Hfiles. vm_compute. reflexivity.
Defined.

Lemma write_failure_is_not_fatal_witness :
  let run env outputFile script write_error :=
    (program example_Number_toString example_encodeURIComponent example_jwt_sign
             env outputFile (fresh_world script write_error)).1 in
  let loop applications script :=
    (main_loop example_Number_toString example_encodeURIComponent example_jwt_sign
               applications [] (fresh_world script None)).1 in
  let users_page :=
    ok_reply (page_body users_resource example_users VNull (VNum (Number 3))) in
  exit_code (run example_env example_outputFile example_script
                 (Some (Error "EACCES"))) = Some 0 ∧
  exit_code (run (VObj []) example_outputFile example_script None) = Some 1 ∧
  exit_code (run example_env VUndefined example_script None) = Some 1 ∧
  exit_code (run example_env example_outputFile
                 [ok_reply (VStr "maintenance")] None) = Some 1 ∧
  exit_code (run example_env example_outputFile
                 [ok_reply (VArr [VNum (Number 5)])] None) = Some 1 ∧
  loop ([] ++ [VObj []]) [] = Exit 1 ∧
  (generateApplicationAnalytics example_Number_toString example_encodeURIComponent
     example_jwt_sign "app" (VObj []) (fresh_world [] None)).1 =
    Throw (Error "Application is missing required fields: name, id, and secret") ∧
  loop ([] ++ [example_application]) [ok_reply (VObj [("users", VNull)])] = Exit 1 ∧
  loop ([] ++ [example_application]) [users_page; ok_reply (VObj [])] = Exit 1 ∧
  loop ([] ++ [example_application])
       [users_page; ok_reply (VArr []);
        NetworkError "ECONNRESET"; NetworkError "ETIMEDOUT"] = Exit 1 ∧
  run example_env example_outputFile
      [ ok_reply (VArr [example_application]);
        ok_reply (VStr "Bad Gateway");
        ok_reply (VArr []);
        ok_reply (page_body threads_resource [] VNull (VNum (Number 0)));
        ok_reply (page_body messages_resource [] VNull (VNum (Number 0))) ] None
    = Completed.
Proof.
  cbv zeta.
  pose proof (write_failure_is_not_fatal example_Number_toString
                example_encodeURIComponent example_jwt_sign)
    as H.
  split; [|split; [|split; [|split; [|split; [|split; [|split;
    [|split; [|split; [|split]]]]]]]]].
  - destruct (H example_env example_outputFile) as (H1 & _).
    edestruct (H1 (fresh_world example_script (Some (Error "EACCES"))))
      as (w3 & _ & Hcode & _).
    + vm_compute. reflexivity.
    + vm_compute. reflexivity.
    + vm_compute. reflexivity.
    + vm_compute. reflexivity.
    + discriminate.
    + vm_compute. reflexivity.
    + exact Hcode.
  - destruct (H (VObj []) example_outputFile) as (_ & H2 & _).
    apply (H2 (fresh_world example_script None)). left. reflexivity.
  - destruct (H example_env VUndefined) as (_ & _ & H3 & _).
    apply (H3 (fresh_world example_script None)); reflexivity.
  - destruct (H example_env example_outputFile) as (_ & _ & _ & H4 & _).
    apply (H4 (fresh_world [ok_reply (VStr "maintenance")] None)).
    + vm_compute. reflexivity.
    + intros l. vm_compute. discriminate.
  - destruct (H example_env example_outputFile) as (_ & _ & _ & _ & H5 & _).
    eapply (H5 (fresh_world [ok_reply (VArr [VNum (Number 5)])] None)).
    + vm_compute. reflexivity.
    + vm_compute. reflexivity.
    + vm_compute. reflexivity.
  - destruct (H example_env example_outputFile)
      as (_ & _ & _ & _ & _ & H6 & _).
    eapply (H6 [] [] (VObj []) [] (fresh_world [] None)).
    + reflexivity.
    + right. split; [reflexivity|]. split; [reflexivity|].
      split; [reflexivity|]. eexists. vm_compute. reflexivity.
  - destruct (H example_env example_outputFile)
      as (_ & _ & _ & _ & _ & _ & H7 & _).
    apply H7. reflexivity.
  - destruct (H example_env example_outputFile)
      as (_ & _ & _ & _ & _ & _ & _ & H8 & _).
    eapply (H8 [] [] example_application []
              (fresh_world [ok_reply (VObj [("users", VNull)])] None)
              (fresh_world [ok_reply (VObj [("users", VNull)])] None)
              [] [Groups; Threads; Messages] Users []
              [ok_reply (VObj [("users", VNull)])] []).
    + reflexivity.
    + reflexivity.
    + reflexivity.
    + reflexivity.
    + constructor.
    + exists [], [ok_reply (VObj [("users", VNull)])].
      split; [reflexivity|]. split; [by exists []|].
      left. eexists. split; [reflexivity|]. eexists. by repeat split.
    + reflexivity.
  - destruct (H example_env example_outputFile)
      as (_ & _ & _ & _ & _ & _ & _ & H8 & _).
    eapply (H8 [] [] example_application []
              (fresh_world [_; ok_reply (VObj [])] None)
              (fresh_world [_; ok_reply (VObj [])] None)
              [Users] [Threads; Messages] Groups
              [[ok_reply (page_body users_resource example_users VNull
                                    (VNum (Number 3)))]]
              [ok_reply (VObj [])] []).
    + reflexivity.
    + reflexivity.
    + reflexivity.
    + reflexivity.
    + constructor; [|constructor].
      exists [], (ok_reply (page_body users_resource example_users VNull
                                      (VNum (Number 3)))).
      split; [reflexivity|]. split; [by exists []|]. by eexists _, _.
    + exists [], [ok_reply (VObj [])].
      split; [reflexivity|]. split; [reflexivity|].
      left. eexists. split; [reflexivity|]. eexists. by repeat split.
    + reflexivity.
  - destruct (H example_env example_outputFile)
      as (_ & _ & _ & _ & _ & _ & _ & H8 & _).
    eapply (H8 [] [] example_application []
              (fresh_world [_; ok_reply (VArr []); NetworkError "ECONNRESET";
                            NetworkError "ETIMEDOUT"] None)
              (fresh_world [_; ok_reply (VArr []); NetworkError "ECONNRESET";
                            NetworkError "ETIMEDOUT"] None)
              [Users; Groups] [Messages] Threads
              [[ok_reply (page_body users_resource example_users VNull
                                    (VNum (Number 3)))];
               [ok_reply (VArr [])]]
              [NetworkError "ECONNRESET"; NetworkError "ETIMEDOUT"] []).
    + reflexivity.
    + reflexivity.
    + reflexivity.
    + reflexivity.
    + constructor; [|constructor; [|constructor]].
      * exists [], (ok_reply (page_body users_resource example_users VNull
                                        (VNum (Number 3)))).
        split; [reflexivity|]. split; [by exists []|]. by eexists _, _.
      * eexists. split; [reflexivity|]. eexists. by repeat split.
    + exists [], [NetworkError "ECONNRESET"; NetworkError "ETIMEDOUT"].
      split; [reflexivity|]. split; [by exists []|].
      right. by eexists _, _, _, _.
    + reflexivity.
  - destruct (H example_env example_outputFile)
      as (_ & _ & _ & _ & _ & _ & _ & _ & H9).
    eapply (H9 (fresh_world
                  [ ok_reply (VArr [example_application]);
                    ok_reply (VStr "Bad Gateway");
                    ok_reply (VArr []);
                    ok_reply (page_body threads_resource [] VNull (VNum (Number 0)));
                    ok_reply (page_body messages_resource [] VNull
                                        (VNum (Number 0))) ] None)
              _ example_application (ok_reply (VStr "Bad Gateway"))
              [ok_reply (VArr [])]
              [ok_reply (page_body threads_resource [] VNull (VNum (Number 0)))]
              [ok_reply (page_body messages_resource [] VNull (VNum (Number 0)))]
              []).
    + vm_compute. reflexivity.
    + vm_compute. reflexivity.
    + reflexivity.
    + reflexivity.
    + eexists. by repeat split.
    + eexists. split; [reflexivity|]. eexists. by repeat split.
    + eexists [], _. split; [reflexivity|]. split; [by exists []|].
      by eexists _, _.
    + eexists [], _. split; [reflexivity|]. split; [by exists []|].
      by eexists _, _.
    + reflexivity.
Defined.

Lemma no_rows_crashes_before_writing_witness :
  let excluded_app :=
    VObj [("id", VStr "923ecd44-198f-49a2-a4f5-96f69c3d148b");
          ("name", VStr "internal")] in
  let w := fresh_world [ok_reply (VArr [excluded_app])] None in
  ∃ w',
    main example_Number_toString example_encodeURIComponent example_jwt_sign example_env example_outputFile w =
      (Throw (TypeError "Cannot read properties of undefined (reading '2')"), w') ∧
    files w' = files w.
Proof.
  cbv zeta.
  edestruct (no_rows_crashes_before_writing example_Number_toString example_encodeURIComponent example_jwt_sign example_env
               example_outputFile
               (fresh_world
                  [ok_reply (VArr [VObj [("id", VStr "923ecd44-198f-49a2-a4f5-96f69c3d148b");
                                         ("name", VStr "internal")]])] None))
    as (w' & _ & Hmain & Hfiles).
  - vm_compute. reflexivity.
  - reflexivity.
  - reflexivity.
  - reflexivity.
  - constructor; [split; reflexivity|constructor].
  - exists w'. split; [exact Hmain|exact Hfiles].
Defined.

(** * The further properties on sample inputs *)

Lemma getGroups_accepts_arrays_only_witness :
  (getGroups "app" "token"
     (fresh_world [ok_reply (VArr [VObj []; VNull])] None)).1
    = Ok [VObj []; VNull] ∧
  (getGroups "app" "token"
     (fresh_world [ok_reply (VObj [("groups", VArr [])])] None)).1
    = Throw (Error "Response for groups was malformed -- no groups").
Proof.
  split.
  - exact (proj1 (getGroups_accepts_arrays_only "app" "token"
             (fresh_world [ok_reply (VArr [VObj []; VNull])] None)
             {| status := 200; statusText := "OK"; data := VArr [VObj []; VNull] |}
             [] eq_refl eq_refl)).
  - exact (proj1 (getGroups_accepts_arrays_only "app" "token"
             (fresh_world [ok_reply (VObj [("groups", VArr [])])] None)
             {| status := 200; statusText := "OK";
                data := VObj [("groups", VArr [])] |}
             [] eq_refl eq_refl)).
Defined.

Lemma other_success_status_is_fatal_witness :
  let no_content :=
    {| status := 204; statusText := "No Content"; data := VStr "" |} in
  let w := fresh_world [HttpReply no_content; ok_reply VNull] None in
  requests (fetch_loop example_Number_toString example_encodeURIComponent users_resource "token" 1 [] VNull w).2
    = [page_request example_encodeURIComponent users_resource "token" VNull] ∧
  net (getGroups "app" "token" w).2 = [ok_reply VNull].
Proof.
  cbv zeta.
  destruct (other_success_status_is_fatal example_Number_toString example_encodeURIComponent) as [Hpage Hgroups].
  split.
  - apply (Hpage users_resource "token" 0%nat [] VNull
             (fresh_world
                [HttpReply {| status := 204; statusText := "No Content";
                              data := VStr "" |}; ok_reply VNull] None)
             {| status := 204; statusText := "No Content"; data := VStr "" |}
             [ok_reply VNull]); [reflexivity|simpl; lia].
  - apply (Hgroups "app" "token"
             (fresh_world
                [HttpReply {| status := 204; statusText := "No Content";
                              data := VStr "" |}; ok_reply VNull] None)
             {| status := 204; statusText := "No Content"; data := VStr "" |}
             [ok_reply VNull]); [reflexivity|simpl; lia].
Defined.

Lemma malformed_page_is_fatal_witness :
  (getUsers example_Number_toString example_encodeURIComponent "app" "token"
     (fresh_world
        [ok_reply (VObj [("pagination",
                          VObj [("token", VNull); ("total", VNum (Number 0))])])] None)).1
    = Throw (Error "Request for users was malformed -- no users") ∧
  (getUsers example_Number_toString example_encodeURIComponent "app" "token"
     (fresh_world [ok_reply (VObj [("users", VArr [])])] None)).1
    = Throw (Error "Malformed pagination data on response for listing users").
Proof.
  split.
  - exact (proj1 (malformed_page_is_fatal example_Number_toString example_encodeURIComponent users_resource "app" "token"
             (fresh_world
                [ok_reply (VObj [("pagination",
                                  VObj [("token", VNull); ("total", VNum (Number 0))])])]
                None)
             {| status := 200; statusText := "OK";
                data := VObj [("pagination",
                               VObj [("token", VNull); ("total", VNum (Number 0))])] |}
             [] eq_refl eq_refl eq_refl eq_refl)).
  - exact (proj1 (malformed_page_is_fatal example_Number_toString example_encodeURIComponent users_resource "app" "token"
             (fresh_world [ok_reply (VObj [("users", VArr [])])] None)
             {| status := 200; statusText := "OK";
                data := VObj [("users", VArr [])] |}
             [] eq_refl eq_refl eq_refl eq_refl)).
Defined.

Lemma excluded_applications_are_skipped_witness :
  let internal := VObj [("id", VStr "aeb2797f-f0a3-485c-a317-4986e2c8343b")] in
  main_loop example_Number_toString example_encodeURIComponent example_jwt_sign [internal; internal] []
            (fresh_world [] None)
  = main_loop example_Number_toString example_encodeURIComponent example_jwt_sign [internal] []
            (set_state 1 0 (fresh_world [] None)) ∧
  ∃ data w',
    main_loop example_Number_toString example_encodeURIComponent example_jwt_sign [internal; example_application] []
              (fresh_world (tail example_script) None) = (Ok data, w') ∧
    Forall (λ entry, excluded (index entry 0) = false) data ∧
    length data = length (processed [internal; example_application]).
Proof.
  cbv zeta.
  destruct (excluded_applications_are_skipped example_Number_toString example_encodeURIComponent example_jwt_sign)
    as [Hskip Hdata].
  split.
  - apply (Hskip (VObj [("id", VStr "aeb2797f-f0a3-485c-a317-4986e2c8343b")])).
    split; reflexivity.
  - eexists _, _. split; [vm_compute; reflexivity|].
    eapply (Hdata _ _ (fresh_world (tail example_script) None)).
    vm_compute. reflexivity.
Defined.

Lemma progress_reaches_total_witness :
  let w := fresh_world example_script None in
  let w1 := (listApplications example_jwt_sign example_env w).2 in
  let w2 := (main_loop example_Number_toString example_encodeURIComponent example_jwt_sign [example_application] []
               (loop_start (VArr [example_application]) w1)).2 in
  state_idx w2 = 0 + 1 ∧ state_total w2 = 1.
Proof.
  cbv zeta.
  destruct (progress_reaches_total example_Number_toString example_encodeURIComponent example_jwt_sign example_env)
    as [_ H].
  eapply (H (fresh_world example_script None) _ _ (VArr [example_application])).
  - vm_compute. reflexivity.
  - vm_compute. reflexivity.
Defined.

Lemma listApplications_exits_on_failure_witness :
  (listApplications example_jwt_sign example_env
     (fresh_world
        [HttpReply {| status := 204; statusText := "No Content";
                      data := VNull |}] None)).1 = Exit 1 ∧
  (listApplications example_jwt_sign example_env
     (fresh_world [NetworkError "ECONNRESET"] None)).1 = Exit 1.
Proof.
  destruct (listApplications_exits_on_failure example_jwt_sign example_env)
    as (_ & Hstatus & Hdown).
  split.
  - apply (Hstatus _ {| status := 204; statusText := "No Content";
                        data := VNull |} []); [reflexivity|reflexivity|simpl; lia].
  - apply (Hdown _ (AxiosError "ECONNRESET") (AxiosError "Network Error"));
      reflexivity.
Defined.

Lemma is_application_spec_witness :
  generateApplicationAnalytics example_Number_toString example_encodeURIComponent example_jwt_sign "app"
    (VObj [("id", VNum (Number 1)); ("secret", VStr "s"); ("name", VStr "n")])
    (fresh_world example_script None)
  = (Throw (Error "Application is missing required fields: name, id, and secret"),
     fresh_world example_script None).
Proof.
  apply (proj2 (is_application_spec example_Number_toString example_encodeURIComponent example_jwt_sign)). reflexivity.
Defined.


Lemma counts_order_independent_witness :
  metric "Total Thread Participants Count"
    (aggregate example_users [] [thread_with ["u1"]; thread_with ["u2"; "u1"]] [])
  = metric "Total Thread Participants Count"
      (aggregate (rev example_users) []
                 [thread_with ["u2"; "u1"]; thread_with ["u1"]] []) ∧
  aggregate example_users [] [thread_with ["u1"]; thread_with ["u2"; "u1"]] []
  = aggregate (rev example_users) []
              [thread_with ["u1"]; thread_with ["u2"; "u1"]] [].
Proof.
  destruct counts_order_independent as (Hcounts & Hrow & _).
  split.
  - apply (proj1 (Forall_forall _ _)
              (Hcounts example_users (rev example_users) [] []
                 [thread_with ["u1"]; thread_with ["u2"; "u1"]]
                 [thread_with ["u2"; "u1"]; thread_with ["u1"]] [] []
                 (Permutation_rev _) (reflexivity _) (perm_swap _ _ _)
                 (reflexivity _)) "Total Thread Participants Count").
    unfold count_names. do 9 apply list_elem_of_further. apply list_elem_of_here.
  - apply Hrow.
    + apply Permutation_rev.
    + reflexivity.
    + reflexivity.
Defined.

Lemma countMentions_additive_witness :
  countMentionsInMessageContent [mention_chain 1; VNull; mention_chain 0]
  = countMentionsInMessageContent [VNull; mention_chain 0; mention_chain 1].
Proof.
  apply (proj1 (proj2 countMentions_additive)).
  etransitivity; [apply perm_swap|]. apply perm_skip. apply perm_swap.
Defined.

Lemma output_is_all_or_nothing_witness :
  let w := fresh_world [NetworkError "ECONNRESET"; NetworkError "ECONNRESET"]
                       None in
  files (program example_Number_toString example_encodeURIComponent example_jwt_sign example_env example_outputFile w).2
  = files w.
Proof.
  cbv zeta.
  apply (proj1 (output_is_all_or_nothing example_Number_toString example_encodeURIComponent example_jwt_sign example_env
                  example_outputFile _)).
  vm_compute. discriminate.
Defined.

Lemma run_outcomes_witness :
  let a := VObj [("id", VObj [("toString", VNum (Number 1))]);
                 ("secret", VStr "s"); ("name", VStr "Acme")] in
  let w := fresh_world [ok_reply (VArr [a])] None in
  let result :=
    program example_Number_toString example_encodeURIComponent example_jwt_sign
            example_env example_outputFile w in
  result.1 = UnhandledRejection (TypeError "Cannot convert object to primitive value") ∧
  exit_code result.1 = None ∧
  length (requests result.2) = 1%nat ∧
  files result.2 = [].
Proof.
  cbv zeta.
  destruct (run_outcomes example_Number_toString example_encodeURIComponent
              example_jwt_sign example_env example_outputFile)
    as (_ & _ & H).
  edestruct (H (fresh_world
                  [ok_reply (VArr [VObj [("id", VObj [("toString", VNum (Number 1))]);
                                         ("secret", VStr "s"); ("name", VStr "Acme")]])]
                  None))
    as (Hout & Hreq & Hfiles).
  - vm_compute. reflexivity.
  - vm_compute. reflexivity.
  - reflexivity.
  - reflexivity.
  - reflexivity.
  - rewrite Hout, Hreq, Hfiles. by vm_compute.
Defined.

Lemma requests_go_to_the_api_witness :
  let w := fresh_world example_script None in
  ∃ new,
    requests (program example_Number_toString example_encodeURIComponent example_jwt_sign (VObj []) example_outputFile w).2
      = requests w ++ new ∧ new = [].
Proof.
  cbv zeta.
  destruct (requests_go_to_the_api example_Number_toString example_encodeURIComponent example_jwt_sign (VObj [])
              example_outputFile (fresh_world example_script None))
    as (new & Hreq & _ & Hnone).
  exists new. split; [exact Hreq|]. apply Hnone. vm_compute. discriminate.
Defined.

Lemma progress_lines_within_total_witness :
  ∃ new,
    console (program example_Number_toString example_encodeURIComponent example_jwt_sign example_env example_outputFile
               (fresh_world example_script None)).2 = new ∧
    Forall within_total new.
Proof.
  destruct (progress_lines_within_total example_Number_toString example_encodeURIComponent example_jwt_sign example_env
              example_outputFile (fresh_world example_script None))
    as (new & Hc & Hnew); [reflexivity|].
  exists new. split; [exact Hc|exact Hnew].
Defined.

Lemma rows_are_written_verbatim_witness :
  let acme := VObj [("id", VStr "app2"); ("secret", VStr "s");
                    ("name", VStr "Acme, Inc")] in
  ∃ data w',
    main_loop example_Number_toString example_encodeURIComponent example_jwt_sign [acme] []
              (fresh_world (tail example_script) None) = (Ok data, w') ∧
    Forall (plain_row example_Number_toString) data ∧
    map (row_of example_Number_toString metric_names) data
      = ["app2,Acme, Inc,3,2,1,1,0,0,1,1,1,5,0,0,0,0,3,1,2,0"].
Proof.
  cbv zeta. eexists _, _. split; [vm_compute; reflexivity|].
  split; [|vm_compute; reflexivity].
  eapply (rows_are_written_verbatim example_Number_toString example_encodeURIComponent example_jwt_sign
            [VObj [("id", VStr "app2"); ("secret", VStr "s");
                   ("name", VStr "Acme, Inc")]] _
            (fresh_world (tail example_script) None)).
  vm_compute. reflexivity.
Defined.

Lemma listApplications_returns_the_body_witness :
  (listApplications example_jwt_sign example_env
     (fresh_world [NetworkError "ECONNRESET"; ok_reply (VStr "not a list")]
                  None)).1
  = Ok (VStr "not a list").
Proof.
  eapply (listApplications_returns_the_body example_jwt_sign example_env _
            {| status := 200; statusText := "OK"; data := VStr "not a list" |}
            [NetworkError "ECONNRESET"; ok_reply (VStr "not a list")] []).
  - reflexivity.
  - eapply (flaky_retry _ _ (AxiosError "ECONNRESET")); [reflexivity|].
    apply flaky_nil.
  - reflexivity.
  - reflexivity.
Defined.
